(** * SOP generator: BPMN graph to step records

    A shallow embedding of [backend/bpmn_parser.py] (class [BPMNParser] and
    [parse_bpmn_to_sop]) and of the SLA merge scan of
    [create_word_doc_from_template] in [backend/app.py].

    The embedding starts from the entity tables that [_parse_structure]
    fills in ([self.tasks], [self.gateways], [self.flows], ...); the XML
    reader itself (lxml) is outside of it.  Python dictionaries that are only
    looked up by key are [gmap]s; dictionaries whose [.items()] order is
    observable are association lists in insertion order.  A mutable
    [visited] set that is shared by the recursive calls of a traversal is
    threaded through them explicitly. *)

From Stdlib Require Import ZArith Decimal DecimalString Ascii String Floats.
From stdpp Require Import gmap strings list fin_maps sorting.

Local Open Scope string_scope.
Local Open Scope list_scope.

(** ** Python built-ins used by the source *)

Module Py.

(** A step number is what the regular expression [(\d+)] captures: a
    string of decimal digits.  [Decimal.uint] is exactly that (leading
    zeros are kept, [Nil] is the empty string). *)
Abbreviation digits := Decimal.uint.

#[global] Instance digits_eq_dec : EqDecision digits.
Proof. solve_decision. Defined.

(** [int(s)] *)
Definition int (s : digits) : Z := Z.of_uint s.

(** [f"{s}"] for a digit string and [str(n)] for a non-negative [int] *)
Definition str (s : digits) : string := NilEmpty.string_of_uint s.
Definition str_of_nat (n : nat) : string := str (Nat.to_uint n).

(** Truthiness of [str] and [Optional[str]] values *)
Definition truthy (s : string) : bool :=
  match s with EmptyString => false | String _ _ => true end.
Definition truthy_opt (o : option string) : bool :=
  match o with Some s => truthy s | None => false end.
Definition truthy_digits (s : digits) : bool :=
  match s with Nil => false | _ => true end.
Definition truthy_num (o : option digits) : bool :=
  match o with Some s => truthy_digits s | None => false end.

(** [a or b] on strings *)
Definition or_else (a b : string) : string := if truthy a then a else b.

(** [str.lower], [str.isspace] on the ASCII range *)
Definition lower_ascii (c : ascii) : ascii :=
  let n := nat_of_ascii c in
  if ((65 <=? n) && (n <=? 90))%nat then ascii_of_nat (n + 32) else c.
Fixpoint lower (s : string) : string :=
  match s with
  | EmptyString => EmptyString
  | String c s' => String (lower_ascii c) (lower s')
  end.
Definition isspace (c : ascii) : bool :=
  let n := nat_of_ascii c in
  (((9 <=? n) && (n <=? 13)) || ((28 <=? n) && (n <=? 32)))%nat.

Fixpoint lstrip (s : string) : string :=
  match s with
  | EmptyString => EmptyString
  | String c s' => if isspace c then lstrip s' else s
  end.
Definition rstrip (s : string) : string := String.rev (lstrip (String.rev s)).
Definition strip (s : string) : string := rstrip (lstrip s).

Definition startswith (s p : string) : bool := String.prefix p s.
Definition endswith (s p : string) : bool :=
  String.prefix (String.rev p) (String.rev s).

(** [s[n:]] *)
Fixpoint slice_from (n : nat) (s : string) : string :=
  match n, s with
  | S n', String _ s' => slice_from n' s'
  | _, _ => s
  end.

(** [s.split('\n')] *)
Fixpoint split_go (cur : string) (s : string) : list string :=
  match s with
  | EmptyString => [String.rev cur]
  | String c s' =>
      if Ascii.eqb c "010"%char then String.rev cur :: split_go EmptyString s'
      else split_go (String c cur) s'
  end.
Definition split_lines (s : string) : list string := split_go EmptyString s.

(** [sep.join(l)] *)
Definition join (sep : string) (l : list string) : string := String.concat sep l.

(** [chr(ord('A') + i)]; exact below code point 256 *)
Definition chr_A (i : nat) : string := String (ascii_of_nat (65 + i)) EmptyString.

(** [sorted(l, key=key)] and [l.sort(key=key)]: the stable sort.  A stable
    sort has one result, so insertion from the right computes what
    Python's merge sort does. *)
Section Sorted.
Context {A K : Type} (ltb : K -> K -> bool) (key : A -> K).

Fixpoint insert_sorted (x : A) (l : list A) : list A :=
  match l with
  | [] => [x]
  | y :: l' => if ltb (key y) (key x) then y :: insert_sorted x l' else x :: l
  end.

Definition sorted (l : list A) : list A := foldr insert_sorted [] l.
End Sorted.

(** Lexicographic order of the [(int, int)] tuples used as sort keys *)
Definition tuple_ltb (a b : Z * Z) : bool :=
  (a.1 <? b.1)%Z || ((a.1 =? b.1)%Z && (a.2 <? b.2)%Z).

(** [sorted(set(l), key=int)].  The iteration order of a Python set of
    strings is unspecified; it only shows between two different digit
    strings of the same value, such as "1" and "01". *)
Definition sorted_set (l : list digits) : list digits :=
  sorted Z.ltb int (remove_dups l).

End Py.
Import Py.

(** ** The entity tables of [BPMNParser] *)

Inductive GatewayType := XOR | AND | OR.
Inductive EventType := EvStart | EvEnd | EvIntermediate.
Inductive BoundaryKind := Timer | Message | Signal | Error.

#[global] Instance GatewayType_eq_dec : EqDecision GatewayType.
Proof. solve_decision. Defined.
#[global] Instance EventType_eq_dec : EqDecision EventType.
Proof. solve_decision. Defined.

Record Raci := {
  responsible : string;
  accountable : string;
  consulted : string;
  informed : string
}.

Record Task := {
  task_name : string;
  task_label : string;
  task_lane : string;
  task_lane_id : option string;
  task_number : option digits;
  task_incoming : list string;
  task_outgoing : list string;
  task_documentation : option string;
  task_sla : option string
}.

Record Gateway := {
  gw_type : GatewayType;
  gw_incoming : list string;
  gw_outgoing : list string
}.

(** A sequence flow.  BPMN requires [sourceRef] and [targetRef]; a flow
    that lacks one (Python [None]) is outside the embedding, as is an
    element without [id]. *)
Record Flow := {
  flow_source : string;
  flow_target : string;
  flow_name : string;
  flow_documentation : option string
}.

Record Subprocess := {
  sp_name : string;
  sp_incoming : list string;
  sp_outgoing : list string
}.

Record Event := {
  ev_name : string;
  ev_type : EventType;
  ev_incoming : list string;
  ev_outgoing : list string
}.

Record BoundaryEvent := {
  be_id : string;
  be_name : string;
  be_interrupting : bool;
  be_event_type : option BoundaryKind;
  be_outgoing : list string
}.

Record Bounds := {
  b_x : float;
  b_y : float;
  b_width : float;
  b_height : float
}.

(** An insertion-ordered dictionary with string keys *)
Abbreviation odict V := (list (string * V)).

Fixpoint oget {V} (d : odict V) (k : string) : option V :=
  match d with
  | [] => None
  | (k', v) :: d' => if decide (k' = k) then Some v else oget d' k
  end.

Record BPMNParser := {
  tasks : odict Task;
  gateways : gmap string Gateway;
  flows : gmap string Flow;
  subprocesses : gmap string Subprocess;
  events : odict Event;
  boundary_events : gmap string (list BoundaryEvent);
  groups : odict string;
  shape_bounds : gmap string Bounds;
  lane_raci : gmap string Raci
}.

(** ** Step records *)

Inductive Alignment := LEFT | CENTER | JUSTIFY.

Record Paragraph := {
  text : string;
  font_size : nat;
  bold : bool;
  alignment : Alignment
}.

Definition para (t : string) (size : nat) (b : bool) : Paragraph :=
  {| text := t; font_size := size; bold := b; alignment := JUSTIFY |}.

Definition blank : Paragraph := para "" 11 false.

Record Row := {
  ref : string;
  is_gateway : bool;
  sla : option string;
  sla_group : option string;
  raci : option Raci;
  paragraphs : list Paragraph
}.

Definition na_raci : Raci :=
  {| responsible := "N/A"; accountable := "N/A"; consulted := "N/A"; informed := "N/A" |}.

Section Parser.
Variable self : BPMNParser.

(** *** [_get_task_sla] *)
Definition in_group (task_cx task_cy : float) (gb : Bounds) : bool :=
  let gx := b_x gb in
  let gy := b_y gb in
  let gw := b_width gb in
  let gh := b_height gb in
  (PrimFloat.leb gx task_cx && PrimFloat.leb task_cx (PrimFloat.add gx gw))
  && (PrimFloat.leb gy task_cy && PrimFloat.leb task_cy (PrimFloat.add gy gh)).

Fixpoint group_of (task_cx task_cy : float) (gs : odict string)
  : option string * option string :=
  match gs with
  | [] => (None, None)
  | (group_id, group_sla) :: gs' =>
      match shape_bounds self !! group_id with
      | None => group_of task_cx task_cy gs'
      | Some gb =>
          if in_group task_cx task_cy gb then (Some group_sla, Some group_id)
          else group_of task_cx task_cy gs'
      end
  end.

Definition _get_task_sla (task_id : string) : option string * option string :=
  match oget (tasks self) task_id with
  | None => (None, None)
  | Some task =>
      if truthy_opt (task_sla task) then (task_sla task, None)
      else
        match shape_bounds self !! task_id with
        | None => (None, None)
        | Some tb =>
            let task_cx := PrimFloat.add (b_x tb) (PrimFloat.div (b_width tb) 2%float) in
            let task_cy := PrimFloat.add (b_y tb) (PrimFloat.div (b_height tb) 2%float) in
            group_of task_cx task_cy (groups self)
        end
  end.


(** *** Membership in the entity tables *)
Definition has {A} (o : option A) : bool :=
  match o with Some _ => true | None => false end.

Definition in_tasks (id : string) : bool := has (oget (tasks self) id).
Definition in_gateways (id : string) : bool := has (gateways self !! id).
Definition in_subprocesses (id : string) : bool := has (subprocesses self !! id).
Definition in_events (id : string) : bool := has (oget (events self) id).

(** [self.tasks[id]['number']] when [id in self.tasks] and the number is
    truthy *)
Definition numbered_task (id : string) : option digits :=
  match oget (tasks self) id with
  | Some t => if truthy_num (task_number t) then task_number t else None
  | None => None
  end.

(** Every identifier a traversal can recurse into *)
Definition nodes : gset string :=
  list_to_set (tasks self).*1 ∪ dom (gateways self)
  ∪ dom (subprocesses self) ∪ list_to_set (events self).*1.

(** The recursion budget of the traversals: one call more than there are
    nodes.  [None] as a result means the budget was used up. *)
Definition budget : nat := S (size nodes).

(** *** [_find_first_task_from_element] *)
Fixpoint find_first_loop
    (rec : string -> gset string -> option (option digits * gset string))
    (outgoing_flows : list string) (visited : gset string)
  : option (option digits * gset string) :=
  match outgoing_flows with
  | [] => Some (None, visited)
  | flow_id :: rest =>
      match flows self !! flow_id with
      | None => find_first_loop rec rest visited
      | Some flow =>
          let target_id := flow_target flow in
          match numbered_task target_id with
          | Some step_num => Some (Some step_num, visited)
          | None =>
              if in_gateways target_id || in_events target_id then
                match rec target_id visited with
                | None => None
                | Some (result, visited') =>
                    if truthy_num result then Some (result, visited')
                    else find_first_loop rec rest visited'
                end
              else find_first_loop rec rest visited
          end
      end
  end.

Fixpoint find_first_task_fuel (fuel : nat) (element_id : string) (visited : gset string)
  : option (option digits * gset string) :=
  match fuel with
  | 0 => None
  | S fuel' =>
      if decide (element_id ∈ visited) then Some (None, visited)
      else
        let visited := {[element_id]} ∪ visited in
        let outgoing_flows :=
          match oget (events self) element_id with
          | Some e => ev_outgoing e
          | None =>
              match gateways self !! element_id with
              | Some g => gw_outgoing g
              | None => []
              end
          end in
        find_first_loop (find_first_task_fuel fuel') outgoing_flows visited
  end.

Definition _find_first_task_from_element (element_id : string) : option digits :=
  match find_first_task_fuel budget element_id ∅ with
  | Some (result, _) => result
  | None => None
  end.

(** *** [_get_start_event_numbers] *)
Definition start_events_with_step : list (string * Z) :=
  flat_map (fun '(event_id, event_data) =>
    match ev_type event_data with
    | EvStart =>
        let first_step := _find_first_task_from_element event_id in
        let step_num :=
          match first_step with
          | Some s => if truthy_digits s then int s else 9999%Z
          | None => 9999%Z
          end in
        [(event_id, step_num)]
    | _ => []
    end) (events self).

Definition _get_start_event_numbers : odict nat :=
  imap (fun n '(event_id, _) => (event_id, S n))
       (sorted Z.ltb snd start_events_with_step).

(** *** [_get_target_step_numbers] *)
Inductive Target :=
| TTask (step : digits)
| TGateway (id : string)
| TSubprocess (id : string)
| TEnd (name : string)
| TIntermediate (id : string).

Definition outgoing_of (element_id : string) : option (list string) :=
  match oget (tasks self) element_id with
  | Some t => Some (task_outgoing t)
  | None =>
  match gateways self !! element_id with
  | Some g => Some (gw_outgoing g)
  | None =>
  match subprocesses self !! element_id with
  | Some s => Some (sp_outgoing s)
  | None =>
  match oget (events self) element_id with
  | Some e => Some (ev_outgoing e)
  | None => None
  end end end end.

Definition target_of_flow (flow_id : string) : list (Target * string) :=
  match flows self !! flow_id with
  | None => []
  | Some flow =>
      let target_id := flow_target flow in
      let name := flow_name flow in
      match oget (tasks self) target_id with
      | Some t =>
          match task_number t with
          | Some target_step =>
              if truthy_digits target_step then [(TTask target_step, name)] else []
          | None => []
          end
      | None =>
      match gateways self !! target_id with
      | Some _ => [(TGateway target_id, name)]
      | None =>
      match subprocesses self !! target_id with
      | Some _ => [(TSubprocess target_id, name)]
      | None =>
      match oget (events self) target_id with
      | Some e =>
          match ev_type e with
          | EvEnd => [(TEnd (or_else (ev_name e) "Process Complete"), name)]
          | EvIntermediate => [(TIntermediate target_id, name)]
          | EvStart => []
          end
      | None => []
      end end end end
  end.

Definition _get_target_step_numbers (element_id : string) : list (Target * string) :=
  match outgoing_of element_id with
  | Some flow_ids => flat_map target_of_flow flow_ids
  | None => []
  end.

(** *** [_trace_gateway_to_task] *)
Fixpoint trace_gateway_loop
    (rec : string -> gset string -> option (option digits * gset string))
    (incoming_flows : list string) (visited : gset string)
  : option (option digits * gset string) :=
  match incoming_flows with
  | [] => Some (None, visited)
  | flow_id :: rest =>
      match flows self !! flow_id with
      | None => trace_gateway_loop rec rest visited
      | Some flow =>
          let source_id := flow_source flow in
          match numbered_task source_id with
          | Some step_num => Some (Some step_num, visited)
          | None =>
              if in_gateways source_id then
                match rec source_id visited with
                | None => None
                | Some (result, visited') =>
                    if truthy_num result then Some (result, visited')
                    else trace_gateway_loop rec rest visited'
                end
              else trace_gateway_loop rec rest visited
          end
      end
  end.

Fixpoint trace_gateway_fuel (fuel : nat) (gateway_id : string) (visited : gset string)
  : option (option digits * gset string) :=
  match fuel with
  | 0 => None
  | S fuel' =>
      if decide (gateway_id ∈ visited) then Some (None, visited)
      else
        let visited := {[gateway_id]} ∪ visited in
        match gateways self !! gateway_id with
        | None => Some (None, visited)
        | Some gateway =>
            trace_gateway_loop (trace_gateway_fuel fuel') (gw_incoming gateway) visited
        end
  end.

Definition _trace_gateway_to_task (gateway_id : string) : option digits :=
  match trace_gateway_fuel budget gateway_id ∅ with
  | Some (result, _) => result
  | None => None
  end.

(** *** [_trace_back_to_split_gateway] *)
Fixpoint trace_back_fuel (fuel : nat) (element_id : string) (visited : gset string)
  : option (option (string * GatewayType)) :=
  match fuel with
  | 0 => None
  | S fuel' =>
      if decide (element_id ∈ visited) then Some None
      else
        let visited := {[element_id]} ∪ visited in
        let continue (incoming_flows : list string) :=
          match incoming_flows with
          | [] => Some None
          | [flow_id] =>
              match flows self !! flow_id with
              | None => Some None
              | Some flow => trace_back_fuel fuel' (flow_source flow) visited
              end
          | _ => Some None
          end in
        match gateways self !! element_id with
        | Some gw =>
            if (length (gw_incoming gw) =? 1)%nat && (1 <? length (gw_outgoing gw))%nat
            then Some (Some (element_id, gw_type gw))
            else continue (gw_incoming gw)
        | None =>
            match oget (tasks self) element_id with
            | Some t => continue (task_incoming t)
            | None => Some None
            end
        end
  end.

Definition _trace_back_to_split_gateway (element_id : string)
  : option (string * GatewayType) :=
  match trace_back_fuel budget element_id ∅ with
  | Some result => result
  | None => None
  end.

(** *** [_detect_step_trigger_input] and its closure [trace_source] *)

(** What [trace_source] mutates: its [visited] argument and the two sets
    [step_sources] and [trigger_sources] of the enclosing call (kept in
    insertion order). *)
Record TraceState := {
  ts_visited : gset string;
  step_sources : list digits;
  trigger_sources : list nat
}.

Definition set_add {A} `{EqDecision A} (x : A) (s : list A) : list A :=
  if decide (x ∈ s) then s else s ++ [x].

Definition add_visited (id : string) (st : TraceState) : TraceState :=
  {| ts_visited := {[id]} ∪ ts_visited st;
     step_sources := step_sources st;
     trigger_sources := trigger_sources st |}.
Definition add_step (num : digits) (st : TraceState) : TraceState :=
  {| ts_visited := ts_visited st;
     step_sources := set_add num (step_sources st);
     trigger_sources := trigger_sources st |}.
Definition add_trigger (n : nat) (st : TraceState) : TraceState :=
  {| ts_visited := ts_visited st;
     step_sources := step_sources st;
     trigger_sources := set_add n (trigger_sources st) |}.
Definition fresh_visited (st : TraceState) : TraceState :=
  {| ts_visited := ∅;
     step_sources := step_sources st;
     trigger_sources := trigger_sources st |}.

Fixpoint trace_source_loop (rec : string -> TraceState -> option TraceState)
    (incoming_flows : list string) (st : TraceState) : option TraceState :=
  match incoming_flows with
  | [] => Some st
  | flow_id :: rest =>
      match flows self !! flow_id with
      | None => trace_source_loop rec rest st
      | Some flow =>
          match rec (flow_source flow) st with
          | None => None
          | Some st' => trace_source_loop rec rest st'
          end
      end
  end.

Section TraceSource.
Variable current_task_num : Z.
Variable start_event_numbers : odict nat.

Fixpoint trace_source_fuel (fuel : nat) (element_id : string) (st : TraceState)
  : option TraceState :=
  match fuel with
  | 0 => None
  | S fuel' =>
      if decide (element_id ∈ ts_visited st) then Some st
      else
        let st := add_visited element_id st in
        match oget (tasks self) element_id with
        | Some t =>
            match task_number t with
            | Some num =>
                if truthy_digits num && (int num <? current_task_num)%Z
                then Some (add_step num st) else Some st
            | None => Some st
            end
        | None =>
        match oget (events self) element_id with
        | Some e =>
            match ev_type e with
            | EvStart =>
                match oget start_event_numbers element_id with
                | Some n => Some (add_trigger n st)
                | None => Some st
                end
            | _ => trace_source_loop (trace_source_fuel fuel') (ev_incoming e) st
            end
        | None =>
        match gateways self !! element_id with
        | Some g => trace_source_loop (trace_source_fuel fuel') (gw_incoming g) st
        | None =>
        match subprocesses self !! element_id with
        | Some s => trace_source_loop (trace_source_fuel fuel') (sp_incoming s) st
        | None => Some st
        end end end end
  end.

(** [trace_source(source_id, set())] for one incoming flow *)
Definition trace_source (element_id : string) (st : TraceState) : option TraceState :=
  trace_source_fuel budget element_id (fresh_visited st).

End TraceSource.

Definition no_sources : TraceState :=
  {| ts_visited := ∅; step_sources := []; trigger_sources := [] |}.

(** The two sets after the loop over the incoming flows of the task *)
Definition step_trigger_sources (task_id : string) : option (list digits * list nat) :=
  match oget (tasks self) task_id with
  | None => None
  | Some task =>
      let incoming_flows := task_incoming task in
      if (length incoming_flows =? 0)%nat then None
      else
        match task_number task with
        | None => None
        | Some current_task_num_str =>
            if negb (truthy_digits current_task_num_str) then None
            else
              let current_task_num := int current_task_num_str in
              let start_event_numbers := _get_start_event_numbers in
              match trace_source_loop (trace_source current_task_num start_event_numbers)
                                      incoming_flows no_sources with
              | Some st => Some (step_sources st, trigger_sources st)
              | None => None
              end
        end
  end.

Definition nonempty {A} (l : list A) : bool :=
  match l with [] => false | _ :: _ => true end.

Definition _detect_step_trigger_input (task_id : string) : option string :=
  match step_trigger_sources task_id with
  | Some (steps, triggers) =>
      if nonempty steps && nonempty triggers then
        let parts :=
          map (fun step_num => "Step " +:+ str step_num) (sorted Z.ltb int steps)
          ++ map (fun input_num => "Input " +:+ str_of_nat input_num)
                 (sorted Nat.ltb (fun n => n) triggers) in
        Some ("Step Input: " +:+ join " or " parts)
      else None
  | None => None
  end.

(** *** [_detect_multi_input] *)
Inductive JoinType := JoinAnd | JoinOr.

Definition join_type_of (gateway_type : GatewayType) (join_type : JoinType) : JoinType :=
  match gateway_type with
  | OR => JoinOr
  | AND => JoinAnd
  | XOR => join_type
  end.

Definition connector (join_type : JoinType) : string :=
  match join_type with JoinOr => " and/or Step " | JoinAnd => " and Step " end.

(** First loop: the incoming flows whose direct source is an AND/OR
    gateway.  ([xor_sources] is filled by the source but never read.) *)
Definition parallel_or_inclusive_sources (incoming_flows : list string)
  : list (string * string * GatewayType) :=
  flat_map (fun flow_id =>
    match flows self !! flow_id with
    | None => []
    | Some flow =>
        let source_id := flow_source flow in
        match gateways self !! source_id with
        | Some source_gw =>
            match gw_type source_gw with
            | AND | OR => [(flow_id, source_id, gw_type source_gw)]
            | XOR => []
            end
        | None => []
        end
    end) incoming_flows.

(** The numbered tasks in front of a gateway; with [through], a source
    that is itself a gateway is traced by [_trace_gateway_to_task]. *)
Definition gateway_source_steps (through : bool) (gateway_id : string) : list digits :=
  match gateways self !! gateway_id with
  | None => []
  | Some gateway =>
      flat_map (fun gw_flow_id =>
        match flows self !! gw_flow_id with
        | None => []
        | Some flow =>
            let gw_source_id := flow_source flow in
            match numbered_task gw_source_id with
            | Some step => [step]
            | None =>
                if through && in_gateways gw_source_id then
                  match _trace_gateway_to_task gw_source_id with
                  | Some task_step => if truthy_digits task_step then [task_step] else []
                  | None => []
                  end
                else []
            end
        end) (gw_incoming gateway)
  end.

Definition join_source_steps (sources : list (string * string * GatewayType))
  : list digits * JoinType :=
  foldl (fun '(source_steps, join_type) '(_, gateway_id, gateway_type) =>
           (source_steps ++ gateway_source_steps true gateway_id,
            join_type_of gateway_type join_type))
        ([], JoinAnd) sources.

(** Second loop: the split gateway each incoming flow traces back to, and
    whether an XOR gateway is involved. *)
Definition trace_splits (incoming_flows : list string)
  : list (option (string * GatewayType)) * bool :=
  foldl (fun '(split_gateways, has_xor_source) flow_id =>
    match flows self !! flow_id with
    | None => (split_gateways, has_xor_source)
    | Some flow =>
        let source_id := flow_source flow in
        let has_xor_source :=
          match gateways self !! source_id with
          | Some source_gw =>
              if decide (gw_type source_gw = XOR) then true else has_xor_source
          | None => has_xor_source
          end in
        if in_tasks source_id || in_gateways source_id then
          match _trace_back_to_split_gateway source_id with
          | Some split_info =>
              (split_gateways ++ [Some split_info],
               if decide (split_info.2 = XOR) then true else has_xor_source)
          | None => (split_gateways ++ [None], has_xor_source)
          end
        else (split_gateways ++ [None], has_xor_source)
    end) ([], false) incoming_flows.

Definition all_xor_splits (incoming_flows : list string)
    (split_gateways : list (option (string * GatewayType))) : bool :=
  (length split_gateways =? length incoming_flows)%nat
  && (0 <? length split_gateways)%nat
  && (let non_none_splits := omap (fun s => s) split_gateways in
      (length non_none_splits =? length split_gateways)%nat
      && forallb (fun s => bool_decide (s.2 = XOR)) non_none_splits).

(** Third loop: the "normal" detection from the direct sources *)
Definition direct_source_steps (incoming_flows : list string) : list digits * JoinType :=
  foldl (fun '(source_steps, join_type) flow_id =>
    match flows self !! flow_id with
    | None => (source_steps, join_type)
    | Some flow =>
        let source_id := flow_source flow in
        match numbered_task source_id with
        | Some step => (source_steps ++ [step], join_type)
        | None =>
            match gateways self !! source_id with
            | Some gateway =>
                (source_steps ++ gateway_source_steps false source_id,
                 join_type_of (gw_type gateway) join_type)
            | None => (source_steps, join_type)
            end
        end
    end) ([], JoinAnd) incoming_flows.

Definition step_input_text (source_steps : list digits) (join_type : JoinType) : string :=
  "Step Input: Step " +:+ join (connector join_type) (map str (sorted_set source_steps)).

Definition _detect_multi_input (task_id : string) : option string :=
  match oget (tasks self) task_id with
  | None => None
  | Some task =>
      let incoming_flows := task_incoming task in
      if (length incoming_flows =? 0)%nat then None
      else
        let sources := parallel_or_inclusive_sources incoming_flows in
        if nonempty sources then
          let '(source_steps, join_type) := join_source_steps sources in
          if (1 <? length source_steps)%nat
          then Some (step_input_text source_steps join_type)
          else _detect_step_trigger_input task_id
        else
          let '(split_gateways, has_xor_source) := trace_splits incoming_flows in
          if has_xor_source then _detect_step_trigger_input task_id
          else if all_xor_splits incoming_flows split_gateways
          then _detect_step_trigger_input task_id
          else
            let '(source_steps, join_type) := direct_source_steps incoming_flows in
            if (1 <? length source_steps)%nat
            then Some (step_input_text source_steps join_type)
            else _detect_step_trigger_input task_id
  end.

(** *** [_check_intermediate_event] and [_check_intermediate_before_subprocess] *)
Fixpoint intermediate_source_name (incoming_flows : list string) : option string :=
  match incoming_flows with
  | [] => None
  | flow_id :: rest =>
      match flows self !! flow_id with
      | Some flow =>
          match oget (events self) (flow_source flow) with
          | Some e =>
              if bool_decide (ev_type e = EvIntermediate) && truthy (ev_name e)
              then Some (ev_name e)
              else intermediate_source_name rest
          | None => intermediate_source_name rest
          end
      | None => intermediate_source_name rest
      end
  end.

Definition _check_intermediate_event (task_id : string) : option string :=
  match oget (tasks self) task_id with
  | None => None
  | Some t => intermediate_source_name (task_incoming t)
  end.

Definition _check_intermediate_before_subprocess (subprocess_id : string) : option string :=
  match subprocesses self !! subprocess_id with
  | None => None
  | Some s => intermediate_source_name (sp_incoming s)
  end.

(** *** Helpers on target lists *)
Definition is_and_or (t : GatewayType) : bool :=
  match t with AND | OR => true | XOR => false end.

Definition connector_of (t : GatewayType) : string :=
  match t with OR => " and/or Step " | _ => " and Step " end.

(** [[t[1] for t in targets if t[0] == 'task']] *)
Definition task_targets_of (targets : list (Target * string)) : list digits :=
  flat_map (fun '(t, _) => match t with TTask step => [step] | _ => [] end) targets.

(** [[t for t in targets if t[0] == 'end']], the names only *)
Definition end_targets_of (targets : list (Target * string)) : list string :=
  flat_map (fun '(t, _) => match t with TEnd name => [name] | _ => [] end) targets.

(** A [for] loop that stops at the first task or end target *)
Inductive NextStop := NextTask (step : digits) | NextEnd (name : string).

Fixpoint first_task_or_end (targets : list (Target * string)) : option NextStop :=
  match targets with
  | [] => None
  | (TTask step, _) :: _ => Some (NextTask step)
  | (TEnd name, _) :: _ => Some (NextEnd name)
  | _ :: rest => first_task_or_end rest
  end.

(** *** [_check_boundary_events] *)

(** The normal successor of a task with a non-interrupting boundary event:
    the loop stops at the first task, gateway or end target; a gateway is
    followed for one hop. *)
Fixpoint normal_next (task_targets : list (Target * string)) : option NextStop :=
  match task_targets with
  | [] => None
  | (TTask step, _) :: _ => Some (NextTask step)
  | (TGateway gateway_id, _) :: _ => first_task_or_end (_get_target_step_numbers gateway_id)
  | (TEnd name, _) :: _ => Some (NextEnd name)
  | _ :: rest => normal_next rest
  end.

Definition boundary_text (task_id : string) (boundary : BoundaryEvent) : list string :=
  let event_name := be_name boundary in
  if negb (truthy event_name) then []
  else
    let target_step :=
      match be_outgoing boundary with
      | flow_id :: _ =>
          match flows self !! flow_id with
          | Some flow =>
              match oget (tasks self) (flow_target flow) with
              | Some t => task_number t
              | None => None
              end
          | None => None
          end
      | [] => None
      end in
    match target_step with
    | None => []
    | Some target_step =>
        if negb (truthy_digits target_step) then []
        else
          let condition :=
            match be_event_type boundary with
            | Some Timer => "performing the activity took more than " +:+ event_name
            | _ => event_name +:+ " during performing the activity"
            end in
          if be_interrupting boundary then
            ["If " +:+ condition +:+ ", stop the activity and proceed to step "
               +:+ str target_step]
          else
            let next :=
              if in_tasks task_id then normal_next (_get_target_step_numbers task_id)
              else None in
            let head := "If " +:+ condition +:+ ", proceed to step " +:+ str target_step
                          +:+ " and complete the activity" in
            match next with
            | Some (NextTask normal_next_step) =>
                [head +:+ ", then proceed to step " +:+ str normal_next_step]
            | Some (NextEnd end_event_name) =>
                [head +:+ ", then Process Ends (" +:+ end_event_name +:+ ")"]
            | None => [head]
            end
    end.

Definition _check_boundary_events (task_id : string) : list string :=
  match boundary_events self !! task_id with
  | None => []
  | Some boundaries => flat_map (boundary_text task_id) boundaries
  end.

(** *** [_check_task_intermediate_chain] *)

(** ["Revert"] iff the next step is at or before the current one *)
Definition chain_routing_verb (current_step_num : option digits) (next_step : digits) : string :=
  match current_step_num with
  | Some cur =>
      if truthy_digits cur && (int next_step <=? int cur)%Z then "Revert" else "Proceed"
  | None => "Proceed"
  end.

Definition process_suffix_of (process_name : string) : string :=
  if endswith (lower process_name) "process" then "" else " Process".

Definition _check_task_intermediate_chain (task_id : string)
    (current_step_num : option digits) : option string :=
  match _get_target_step_numbers task_id with
  | (TIntermediate event_id, _) :: _ =>
      match oget (events self) event_id with
      | None => None
      | Some event =>
          let event_name := ev_name event in
          let wait_prefix :=
            if startswith (lower event_name) "wait for " then ""
            else if startswith (lower event_name) "wait until " then ""
            else "Wait for " in
          let wait := wait_prefix +:+ event_name in
          match _get_target_step_numbers event_id with
          | [] => Some wait
          | (TSubprocess subprocess_id, _) :: _ =>
              match subprocesses self !! subprocess_id with
              | None => Some wait
              | Some subprocess =>
                  let subprocess_name := sp_name subprocess in
                  let start := wait +:+ " and Then Start " +:+ subprocess_name
                                 +:+ process_suffix_of subprocess_name in
                  match _get_target_step_numbers subprocess_id with
                  | (TTask next_step, _) :: _ =>
                      Some (start +:+ " Then " +:+ chain_routing_verb current_step_num next_step
                              +:+ " to Step " +:+ str next_step)
                  | (TEnd end_name, _) :: _ =>
                      Some (start +:+ ", then Process Ends (" +:+ end_name +:+ ")")
                  | _ => Some start
                  end
              end
          | (TGateway gateway_id, _) :: _ =>
              match gateways self !! gateway_id with
              | None => Some wait
              | Some gateway =>
                  let gateway_targets := _get_target_step_numbers gateway_id in
                  let task_targets := sorted Z.ltb int (task_targets_of gateway_targets) in
                  if is_and_or (gw_type gateway) && (1 <? length (gw_outgoing gateway))%nat
                     && nonempty task_targets
                  then Some (wait +:+ " and Then Proceed to Step "
                               +:+ join (connector_of (gw_type gateway)) (map str task_targets))
                  else
                    match first_task_or_end gateway_targets with
                    | Some (NextTask gw_target_value) =>
                        Some (wait +:+ " and Then "
                                +:+ chain_routing_verb current_step_num gw_target_value
                                +:+ " to Step " +:+ str gw_target_value)
                    | Some (NextEnd gw_target_value) =>
                        Some (wait +:+ ", then Process Ends (" +:+ gw_target_value +:+ ")")
                    | None => Some wait
                    end
              end
          | (TTask next_step, _) :: _ =>
              Some (wait +:+ " and Then " +:+ chain_routing_verb current_step_num next_step
                      +:+ " to Step " +:+ str next_step)
          | (TEnd end_name, _) :: _ =>
              Some (wait +:+ ", then Process Ends (" +:+ end_name +:+ ")")
          | (TIntermediate _, _) :: _ => Some wait
          end
      end
  | _ => None
  end.

Definition _check_task_intermediate_subprocess_chain := _check_task_intermediate_chain.

(** *** [_generate_gateway_rows] *)

(** The ['target_type'] of a case record together with the fields that the
    record carries for that type *)
Inductive CaseDest :=
| DTask (target_step : digits)
| DEnd (end_name : string)
| DSubprocess (subprocess_name subprocess_id : string)
| DParallel (parallel_targets : list digits) (gateway_type : GatewayType)
| DIntermediateTask (event_name : string) (target_step : digits)
| DIntermediateEnd (event_name end_name : string)
| DIntermediateSubprocess (event_name subprocess_name subprocess_id : string)
| DIntermediateParallel (event_name : string) (parallel_targets : list digits)
                        (gateway_type : GatewayType).

Record Case := {
  case_flow_name : string;
  case_flow_documentation : option string;
  is_revert : bool;
  sort_key : Z * Z;
  dest : CaseDest
}.

Definition flow_doc_by_name (gateway : Gateway) : gmap string string :=
  foldl (fun acc flow_id =>
    match flows self !! flow_id with
    | Some f =>
        match flow_documentation f with
        | Some d => if truthy d && truthy (flow_name f) then <[flow_name f := d]> acc else acc
        | None => acc
        end
    | None => acc
    end) ∅ (gw_outgoing gateway).

(** Reverts: [(0, target_num)]; proceeds: [(1, -target_num)] *)
Definition revert_key (is_revert : bool) (target_num : Z) : Z * Z :=
  if is_revert then (0, target_num)%Z else (1, - target_num)%Z.

Definition is_parallel_split (gateway : option Gateway) : bool :=
  match gateway with
  | Some g => is_and_or (gw_type g) && (1 <? length (gw_outgoing g))%nat
  | None => false
  end.

Definition gateway_type_of (gateway : option Gateway) : GatewayType :=
  match gateway with Some g => gw_type g | None => XOR end.

Definition cases_of_target (parent_step : digits) (docs : gmap string string)
    (target : Target * string) : list Case :=
  let '(t, flow_name) := target in
  let parent_num := int parent_step in
  let doc := docs !! flow_name in
  let unlabeled := or_else flow_name "[CONDITION UNLABELED]" in
  match t with
  | TTask target_value =>
      let target_num := int target_value in
      let is_revert := (target_num <=? parent_num)%Z in
      [{| case_flow_name := unlabeled; case_flow_documentation := doc;
          is_revert := is_revert; sort_key := revert_key is_revert target_num;
          dest := DTask target_value |}]
  | TEnd target_value =>
      [{| case_flow_name := or_else flow_name "Complete"; case_flow_documentation := doc;
          is_revert := false; sort_key := (-1, 0)%Z; dest := DEnd target_value |}]
  | TSubprocess target_value =>
      match subprocesses self !! target_value with
      | Some subprocess =>
          [{| case_flow_name := or_else flow_name "Proceed"; case_flow_documentation := doc;
              is_revert := false; sort_key := (1, 5000)%Z;
              dest := DSubprocess (sp_name subprocess) target_value |}]
      | None => []
      end
  | TGateway intermediate_gateway_id =>
      let intermediate_gateway := gateways self !! intermediate_gateway_id in
      let intermediate_targets := _get_target_step_numbers intermediate_gateway_id in
      if is_parallel_split intermediate_gateway then
        match sorted Z.ltb int (task_targets_of intermediate_targets) with
        | [] => []
        | first :: _ as task_targets_sorted =>
            let first_target_num := int first in
            let is_revert := (first_target_num <? parent_num)%Z in
            [{| case_flow_name := unlabeled; case_flow_documentation := doc;
                is_revert := is_revert; sort_key := revert_key is_revert first_target_num;
                dest := DParallel task_targets_sorted (gateway_type_of intermediate_gateway) |}]
        end
      else
        flat_map (fun '(inter, _) =>
          match inter with
          | TTask inter_value =>
              let target_num := int inter_value in
              let is_revert := (target_num <? parent_num)%Z in
              [{| case_flow_name := unlabeled; case_flow_documentation := doc;
                  is_revert := is_revert; sort_key := revert_key is_revert target_num;
                  dest := DTask inter_value |}]
          | TEnd inter_value =>
              [{| case_flow_name := or_else flow_name "Complete";
                  case_flow_documentation := doc;
                  is_revert := false; sort_key := (-1, 0)%Z; dest := DEnd inter_value |}]
          | _ => []
          end) intermediate_targets
  | TIntermediate target_value =>
      match oget (events self) target_value with
      | None => []
      | Some event =>
          let event_name := or_else (ev_name event) "Event" in
          match _get_target_step_numbers target_value with
          | [] => []
          | (TTask first_et_value, _) :: _ =>
              let target_num := int first_et_value in
              let is_revert := (target_num <=? parent_num)%Z in
              [{| case_flow_name := unlabeled; case_flow_documentation := doc;
                  is_revert := is_revert; sort_key := revert_key is_revert target_num;
                  dest := DIntermediateTask event_name first_et_value |}]
          | (TEnd first_et_value, _) :: _ =>
              [{| case_flow_name := or_else flow_name "Complete";
                  case_flow_documentation := doc;
                  is_revert := false; sort_key := (-1, 0)%Z;
                  dest := DIntermediateEnd event_name first_et_value |}]
          | (TSubprocess first_et_value, _) :: _ =>
              match subprocesses self !! first_et_value with
              | Some subprocess =>
                  [{| case_flow_name := or_else flow_name "Proceed";
                      case_flow_documentation := doc;
                      is_revert := false; sort_key := (1, 5000)%Z;
                      dest := DIntermediateSubprocess event_name (sp_name subprocess)
                                                      first_et_value |}]
              | None => []
              end
          | (TGateway inter_gw_id, _) :: _ =>
              let inter_gw := gateways self !! inter_gw_id in
              let inter_gw_targets := _get_target_step_numbers inter_gw_id in
              if is_parallel_split inter_gw then
                match sorted Z.ltb int (task_targets_of inter_gw_targets) with
                | [] => []
                | first :: _ as task_targets =>
                    let first_target_num := int first in
                    let is_revert := (first_target_num <? parent_num)%Z in
                    [{| case_flow_name := unlabeled; case_flow_documentation := doc;
                        is_revert := is_revert;
                        sort_key := revert_key is_revert first_target_num;
                        dest := DIntermediateParallel event_name task_targets
                                                      (gateway_type_of inter_gw) |}]
                end
              else
                match first_task_or_end inter_gw_targets with
                | Some (NextTask ig_value) =>
                    let target_num := int ig_value in
                    let is_revert := (target_num <? parent_num)%Z in
                    [{| case_flow_name := unlabeled; case_flow_documentation := doc;
                        is_revert := is_revert; sort_key := revert_key is_revert target_num;
                        dest := DIntermediateTask event_name ig_value |}]
                | Some (NextEnd ig_value) =>
                    [{| case_flow_name := or_else flow_name "Complete";
                        case_flow_documentation := doc;
                        is_revert := false; sort_key := (-1, 0)%Z;
                        dest := DIntermediateEnd event_name ig_value |}]
                | None => []
                end
          | (TIntermediate _, _) :: _ => []
          end
      end
  end.

Definition revert_or_proceed_to (is_revert : bool) : string :=
  if is_revert then "Revert to" else "Proceed to".

(** ["Revert" if int(next_step) <= int(parent_step) else "Proceed"] *)
Definition revert_or_proceed (next_step parent_step : digits) : string :=
  if (int next_step <=? int parent_step)%Z then "Revert" else "Proceed".

Definition subprocess_targets_of (subprocess_id : string) : list (Target * string) :=
  if truthy subprocess_id then _get_target_step_numbers subprocess_id else [].

Definition routing_text_of (parent_step : digits) (case : Case) : string :=
  match dest case with
  | DTask target_step =>
      revert_or_proceed_to (is_revert case) +:+ " Step " +:+ str target_step
  | DEnd end_name => "Process Ends (" +:+ end_name +:+ ")"
  | DSubprocess subprocess_name subprocess_id =>
      let start := "Start " +:+ subprocess_name +:+ " Process" in
      match subprocess_targets_of subprocess_id with
      | (TTask next_step, _) :: _ =>
          start +:+ ", then " +:+ revert_or_proceed next_step parent_step
            +:+ " to Step " +:+ str next_step
      | (TGateway sp_gw_id, _) :: _ =>
          let sp_gw := gateways self !! sp_gw_id in
          if is_parallel_split sp_gw then
            match sorted Z.ltb int (task_targets_of (_get_target_step_numbers sp_gw_id)) with
            | first_target :: _ as task_targets =>
                start +:+ ", then " +:+ revert_or_proceed first_target parent_step
                  +:+ " to Step "
                  +:+ join (connector_of (gateway_type_of sp_gw)) (map str task_targets)
            | [] => start
            end
          else start
      | (TEnd end_event_name, _) :: _ =>
          start +:+ ", then Process Ends (" +:+ end_event_name +:+ ")"
      | _ => start
      end
  | DParallel parallel_targets gateway_type =>
      revert_or_proceed_to (is_revert case) +:+ " Step "
        +:+ join (connector_of gateway_type) (map str parallel_targets)
  | DIntermediateTask event_name target_step =>
      "Wait until " +:+ event_name +:+ " Then " +:+ revert_or_proceed_to (is_revert case)
        +:+ " Step " +:+ str target_step
  | DIntermediateEnd event_name end_name =>
      "Wait until " +:+ event_name +:+ ", then Process Ends (" +:+ end_name +:+ ")"
  | DIntermediateSubprocess event_name subprocess_name subprocess_id =>
      let start := "Wait until " +:+ event_name +:+ " Then Start " +:+ subprocess_name
                     +:+ process_suffix_of subprocess_name in
      match subprocess_targets_of subprocess_id with
      | (TTask next_step, _) :: _ =>
          start +:+ ", then " +:+ revert_or_proceed next_step parent_step
            +:+ " to Step " +:+ str next_step
      | (TEnd end_name, _) :: _ => start +:+ ", then Process Ends (" +:+ end_name +:+ ")"
      | _ => start
      end
  | DIntermediateParallel event_name parallel_targets gateway_type =>
      "Wait until " +:+ event_name +:+ " Then " +:+ revert_or_proceed_to (is_revert case)
        +:+ " Step " +:+ join (connector_of gateway_type) (map str parallel_targets)
  end.

Definition explanation_text_of (case : Case) : string :=
  match case_flow_documentation case with
  | Some d => if truthy d then d
              else "[Condition explanation for " +:+ case_flow_name case +:+ "]"
  | None => "[Condition explanation for " +:+ case_flow_name case +:+ "]"
  end.

Definition gateway_case_row (parent_step : digits) (parent_raci : option Raci)
    (i : nat) (case : Case) : Row :=
  let letter := chr_A i in
  let case_title := "Case " +:+ letter +:+ ": " +:+ case_flow_name case in
  {| ref := str parent_step +:+ letter;
     is_gateway := true;
     sla := None;
     sla_group := None;
     raci := Some (default na_raci parent_raci);
     paragraphs := [para case_title 12 true; blank;
                    para (explanation_text_of case) 11 false; blank;
                    para (routing_text_of parent_step case) 12 true] |}.

(** [cases_with_dest] after [cases_with_dest.sort(key=...)] *)
Definition cases_with_dest (parent_step : digits) (gateway_id : string) : list Case :=
  match gateways self !! gateway_id with
  | None => []
  | Some gateway =>
      sorted tuple_ltb sort_key
             (flat_map (cases_of_target parent_step (flow_doc_by_name gateway))
                       (_get_target_step_numbers gateway_id))
  end.

Definition _generate_gateway_rows (parent_step : digits) (gateway_id : string)
    (parent_raci : option Raci) : list Row :=
  match gateways self !! gateway_id with
  | None => []
  | Some gateway =>
      if negb (nonempty (_get_target_step_numbers gateway_id)) then []
      else imap (gateway_case_row parent_step parent_raci)
                (cases_with_dest parent_step gateway_id)
  end.

(** *** [generate_sop_rows] *)

(** [l[-1] = f(l[-1])] *)
Fixpoint alter_last {A} (f : A -> A) (l : list A) : list A :=
  match l with
  | [] => []
  | [x] => [f x]
  | x :: l' => x :: alter_last f l'
  end.

Definition add_paragraphs (ps : list Paragraph) (r : Row) : Row :=
  {| ref := ref r; is_gateway := is_gateway r; sla := sla r; sla_group := sla_group r;
     raci := raci r; paragraphs := paragraphs r ++ ps |}.

(** [sop_rows[-1]['paragraphs'].extend(ps)] *)
Definition extend_last (sop_rows : list Row) (ps : list Paragraph) : list Row :=
  alter_last (add_paragraphs ps) sop_rows.

Definition ensure_period (text : string) : string :=
  let text := rstrip text in
  if truthy text && negb (endswith text "." || endswith text "!" || endswith text "?")
  then text +:+ "." else text.

Definition ensure_period_para (p : Paragraph) : Paragraph :=
  if truthy (text p)
  then {| text := ensure_period (text p); font_size := font_size p; bold := bold p;
          alignment := alignment p |}
  else p.

(** [[(tid, t) for tid, t in self.tasks.items() if t['number'] is not None]]
    sorted by [int(t['number'])]; the number is kept next to the task. *)
Definition numbered_tasks : list (string * Task * digits) :=
  flat_map (fun '(tid, t) =>
    match task_number t with Some n => [(tid, t, n)] | None => [] end) (tasks self).

Definition sorted_tasks : list (string * Task * digits) :=
  sorted Z.ltb (fun x => int x.2) numbered_tasks.

Definition doc_lines_of (documentation : option string) : list string :=
  match documentation with
  | Some d => if truthy d then map rstrip (split_lines d) else []
  | None => []
  end.

Definition desc_text_of (lane_name label : string) (doc_lines : list string)
    (intermediate_event : option string) : string :=
  let first_line := match doc_lines with l :: _ => strip l | [] => "" end in
  let subject := "The " +:+ lane_name +:+ "" in
  ensure_period
    (if truthy_opt intermediate_event then
       let wait := subject +:+ " shall wait until " +:+ default "" intermediate_event
                     +:+ " Then " in
       if truthy first_line then
         if startswith (lower first_line) "shall "
         then wait +:+ strip (slice_from 6 first_line)
         else wait +:+ first_line
       else wait +:+ lower label
     else
       if truthy first_line then
         if startswith (lower first_line) "shall "
         then subject +:+ " " +:+ first_line
         else subject +:+ " shall " +:+ first_line
       else subject +:+ " shall " +:+ lower label).

(** The extra documentation lines: a blank paragraph, one paragraph per
    non-empty line, and a full stop at the end of the last paragraph *)
Definition add_extra_doc_lines (extra_doc_lines : list string)
    (paragraphs : list Paragraph) : list Paragraph :=
  if nonempty extra_doc_lines then
    alter_last ensure_period_para
      (paragraphs ++ blank :: flat_map (fun extra_line =>
                                 let line_text := rstrip extra_line in
                                 if truthy line_text then [para line_text 11 false] else [])
                               extra_doc_lines)
  else paragraphs.

(** The first task target with a smaller step number *)
Fixpoint revert_step_of (current_num : Z) (targets : list (Target * string))
  : option digits :=
  match targets with
  | [] => None
  | (TTask target_value, _) :: rest =>
      if (int target_value <? current_num)%Z then Some target_value
      else revert_step_of current_num rest
  | _ :: rest => revert_step_of current_num rest
  end.

(** The paragraphs of a task row before the routing text is added *)
Definition task_paragraphs (task_id : string) (task : Task) (step_num : digits)
  : list Paragraph :=
  let task_subprocess_chain :=
    _check_task_intermediate_subprocess_chain task_id (Some step_num) in
  let intermediate_event :=
    if truthy_opt task_subprocess_chain then None else _check_intermediate_event task_id in
  let multi_input := _detect_multi_input task_id in
  let title_text :=
    if truthy_opt multi_input then task_label task +:+ " " +:+ default "" multi_input
    else task_label task in
  let doc_lines := doc_lines_of (task_documentation task) in
  let desc_text := desc_text_of (task_lane task) (task_label task) doc_lines intermediate_event in
  let boundary_events := _check_boundary_events task_id in
  let targets := _get_target_step_numbers task_id in
  let revert_step := revert_step_of (int step_num) targets in
  let paragraphs := [para title_text 12 true; blank; para desc_text 11 false] in
  let paragraphs := add_extra_doc_lines (tail doc_lines) paragraphs in
  let paragraphs :=
    if truthy_opt task_subprocess_chain
    then paragraphs ++ [blank; para (default "" task_subprocess_chain) 12 true]
    else paragraphs in
  let paragraphs :=
    paragraphs
    ++ flat_map (fun boundary_text => [blank; para boundary_text 11 true]) boundary_events in
  match revert_step with
  | Some r =>
      if truthy_digits r
      then paragraphs ++ [blank; para ("Revert to Step " +:+ str r) 12 true]
      else paragraphs
  | None => paragraphs
  end.

(** The first gateway target that is an AND/OR join leading to an end event
    and to no task: the loop over [targets] with its [seen_join_gateways]
    set stops ([break]) there. *)
Fixpoint find_join_to_end (targets : list (Target * string)) (seen : gset string)
  : option (Gateway * string) :=
  match targets with
  | [] => None
  | (TGateway target_value_j, _) :: rest =>
      if decide (target_value_j ∈ seen) then find_join_to_end rest seen
      else
        let seen := {[target_value_j]} ∪ seen in
        match gateways self !! target_value_j with
        | Some gw_j =>
            if is_and_or (gw_type gw_j) && (1 <? length (gw_incoming gw_j))%nat then
              let join_targets := _get_target_step_numbers target_value_j in
              match end_targets_of join_targets, task_targets_of join_targets with
              | end_name :: _, [] => Some (gw_j, end_name)
              | _, _ => find_join_to_end rest seen
              end
            else find_join_to_end rest seen
        | None => find_join_to_end rest seen
        end
  | _ :: rest => find_join_to_end rest seen
  end.

(** The step numbers of the other tasks feeding the join *)
Definition other_steps_of (task_id : string) (gw_j : Gateway) : list digits :=
  flat_map (fun gw_flow_id =>
    match flows self !! gw_flow_id with
    | None => []
    | Some flow =>
        let source_id := flow_source flow in
        if decide (source_id = task_id) then []
        else
          match oget (tasks self) source_id with
          | Some t =>
              match task_number t with
              | Some other_step => if truthy_digits other_step then [other_step] else []
              | None => []
              end
          | None =>
              if in_gateways source_id then
                match _trace_gateway_to_task source_id with
                | Some traced => if truthy_digits traced then [traced] else []
                | None => []
                end
              else []
          end
    end) (gw_incoming gw_j).

Definition wait_text_of (other_steps : list digits) (end_name : string) : string :=
  "Wait until step " +:+ join " and step " (map str (sorted_set other_steps))
    +:+ " completed then Process Ends (" +:+ end_name +:+ ")".

(** The wait sentence of the parallel-join-to-end case, when it applies
    ([parallel_join_end_handled]) *)
Definition parallel_join_end (task_id : string) (targets : list (Target * string))
  : option string :=
  match find_join_to_end targets ∅ with
  | Some (gw_j, end_name) =>
      let other_steps := other_steps_of task_id gw_j in
      if nonempty other_steps then Some (wait_text_of other_steps end_name) else None
  | None => None
  end.

Definition is_task_target (t : Target * string) : bool :=
  match t.1 with TTask _ => true | _ => false end.

Definition subprocess_text_of (step_num : digits) (subprocess_id : string)
    (subprocess : Subprocess) : string :=
  let intermediate_event := _check_intermediate_before_subprocess subprocess_id in
  let process_name := sp_name subprocess in
  let subprocess_targets := _get_target_step_numbers subprocess_id in
  let start := "Start " +:+ process_name +:+ process_suffix_of process_name in
  if truthy_opt intermediate_event then
    let wait := "Wait for " +:+ default "" intermediate_event +:+ " and Then " +:+ start in
    match subprocess_targets with
    | (TTask next_step, _) :: _ =>
        wait +:+ " Then " +:+ revert_or_proceed next_step step_num
          +:+ " to Step " +:+ str next_step
    | (TEnd end_event_name, _) :: _ =>
        wait +:+ ", then Process Ends (" +:+ end_event_name +:+ ")"
    | _ => wait
    end
  else
    match subprocess_targets with
    | (TEnd end_event_name, _) :: _ =>
        start +:+ ", then Process Ends (" +:+ end_event_name +:+ ")"
    | (TTask next_step, _) :: _ =>
        start +:+ " Then " +:+ revert_or_proceed next_step step_num
          +:+ " to Step " +:+ str next_step
    | _ => start
    end.

(** The routing text after the task row has been appended: what follows
    [if parallel_join_end_handled: continue].  The two table accesses
    [self.gateways[gateway_id]] and [self.subprocesses[subprocess_id]]
    cannot fail, since the target kinds come from these tables. *)
Definition ordinary_routing (step_num : digits) (task_raci : Raci)
    (targets : list (Target * string)) (sop_rows : list Row) : list Row :=
  match targets with
  | [(TGateway gateway_id, _)] =>
      match gateways self !! gateway_id with
      | None => sop_rows
      | Some gateway =>
          if is_and_or (gw_type gateway) && (length (gw_incoming gateway) =? 1)%nat
             && (1 <? length (gw_outgoing gateway))%nat
          then
            let task_targets :=
              sorted Z.ltb int (task_targets_of (_get_target_step_numbers gateway_id)) in
            if (1 <? length task_targets)%nat then
              extend_last sop_rows
                [blank;
                 para ("Proceed to Step "
                         +:+ join (connector_of (gw_type gateway)) (map str task_targets))
                      12 true]
            else sop_rows
          else if bool_decide (gw_type gateway = XOR) then
            sop_rows ++ _generate_gateway_rows step_num gateway_id (Some task_raci)
          else sop_rows
      end
  | [(TSubprocess subprocess_id, _)] =>
      match subprocesses self !! subprocess_id with
      | None => sop_rows
      | Some subprocess =>
          extend_last sop_rows
            [blank; para (subprocess_text_of step_num subprocess_id subprocess) 12 true]
      end
  | [(TEnd end_event_name, _)] =>
      extend_last sop_rows
        [blank; para ("Process Ends (" +:+ end_event_name +:+ ")") 12 true]
  | _ =>
      if (1 <? length targets)%nat && forallb is_task_target targets then
        let target_steps := sorted Z.ltb int (task_targets_of targets) in
        extend_last sop_rows
          [blank; para ("Proceed to Step " +:+ join " and Step " (map str target_steps))
                       12 true]
      else sop_rows
  end.

(** One iteration of [for task_id, task in sorted_tasks] *)
Definition task_iteration (sop_rows : list Row) (entry : string * Task * digits)
  : list Row :=
  let '(task_id, task, step_num) := entry in
  let paragraphs := task_paragraphs task_id task step_num in
  let targets := _get_target_step_numbers task_id in
  let '(sla_value, sla_group) := _get_task_sla task_id in
  let task_raci :=
    match task_lane_id task with
    | Some lane_id => default na_raci (lane_raci self !! lane_id)
    | None => na_raci
    end in
  let sop_rows :=
    sop_rows ++ [{| ref := str step_num; is_gateway := false; sla := sla_value;
                    sla_group := sla_group; raci := Some task_raci;
                    paragraphs := paragraphs |}] in
  if (length targets =? 0)%nat then sop_rows
  else
    match parallel_join_end task_id targets with
    | Some wait_text => extend_last sop_rows [blank; para wait_text 12 true]
    | None => ordinary_routing step_num task_raci targets sop_rows
    end.

Definition generate_sop_rows : list Row := foldl task_iteration [] sorted_tasks.

(** *** [get_process_inputs] and [get_process_outputs] *)
Fixpoint first_flow_name (outgoing_flows : list string) : option string :=
  match outgoing_flows with
  | [] => None
  | flow_id :: rest =>
      match flows self !! flow_id with
      | Some f => if truthy (flow_name f) then Some (flow_name f) else first_flow_name rest
      | None => first_flow_name rest
      end
  end.

Definition get_process_inputs : string :=
  let inputs_with_numbers :=
    flat_map (fun '(event_id, input_num) =>
      match oget (events self) event_id with
      | Some event_data =>
          if truthy (ev_name event_data) then [(input_num, ev_name event_data)]
          else match first_flow_name (ev_outgoing event_data) with
               | Some name => [(input_num, name)]
               | None => []
               end
      | None => []
      end) _get_start_event_numbers in
  join (String "010"%char "")
       (map (fun '(num, name) => str_of_nat num +:+ ". " +:+ name)
            (sorted Nat.ltb fst inputs_with_numbers)).

Definition get_process_outputs : string :=
  let outputs :=
    flat_map (fun '(_, event_data) =>
      if bool_decide (ev_type event_data = EvEnd) && truthy (ev_name event_data)
      then [ev_name event_data] else []) (events self) in
  join (String "010"%char "")
       (imap (fun i out => str_of_nat (i + 1) +:+ ". " +:+ out) outputs).

End Parser.

Arguments has {A} o.
Arguments nonempty {A} l.
Arguments alter_last {A} f l.
Arguments set_add {A _} x s.

(** ** [parse_bpmn_to_sop] *)

(** The outcome of a Python call: a value, or an exception, of which only
    the message [str(e)] is kept. *)
Inductive result (A : Type) :=
| Ok (a : A)
| Raise (e : string).
Arguments Ok {A} a.
Arguments Raise {A} e.

Definition bind {A B} (r : result A) (k : A -> result B) : result B :=
  match r with Ok a => k a | Raise e => Raise e end.

(** [try: body  except Exception as e: return handler(e)] *)
Definition try_except {A} (body : result A) (handler : string -> A) : result A :=
  match body with
  | Ok a => Ok a
  | Raise e => Ok (handler e)
  end.

(** The values of the [metadata] and [context] dictionaries *)
Inductive Value :=
| VStr (s : string)
| VList (l : list (gmap string string))
| VSteps (rows : list Row).

Definition get_or (d : gmap string Value) (k : string) (dflt : Value) : Value :=
  default dflt (d !! k).

Definition context_of (self : BPMNParser) (metadata : gmap string Value)
    (sop_rows : list Row) : gmap string Value :=
  let auto_inputs := get_process_inputs self in
  let auto_outputs := get_process_outputs self in
  list_to_map
    [("process_name", get_or metadata "process_name" (VStr ""));
     ("process_code", get_or metadata "process_code" (VStr ""));
     ("issued_by", get_or metadata "issued_by" (VStr "Business Excellence"));
     ("release_date", get_or metadata "release_date" (VStr "TBD"));
     ("process_owner", get_or metadata "process_owner" (VStr ""));
     ("purpose", get_or metadata "purpose" (VStr ""));
     ("scope", get_or metadata "scope" (VStr ""));
     ("abbreviations", get_or metadata "abbreviations" (VStr ""));
     ("references", get_or metadata "references" (VStr ""));
     ("inputs", get_or metadata "inputs" (VStr auto_inputs));
     ("outputs", get_or metadata "outputs" (VStr auto_outputs));
     ("abbreviations_list", get_or metadata "abbreviations_list" (VList []));
     ("references_list", get_or metadata "references_list" (VList []));
     ("general_policies_list", get_or metadata "general_policies_list" (VList []));
     ("steps", VSteps sop_rows)].

(** The row of the [except] branch; it has no ['sla'], ['sla_group'] or
    ['raci'] key. *)
Definition error_row (e : string) : Row :=
  {| ref := "ERROR"; is_gateway := false; sla := None; sla_group := None; raci := None;
     paragraphs := [para ("Parse error: " +:+ e) 11 false] |}.

Definition error_context (metadata : gmap string Value) (e : string) : gmap string Value :=
  list_to_map
    [("process_name", get_or metadata "process_name" (VStr "ERROR"));
     ("process_code", VStr "");
     ("issued_by", VStr "");
     ("release_date", VStr "TBD");
     ("purpose", VStr "");
     ("scope", VStr "");
     ("abbreviations", VStr "");
     ("references", VStr "");
     ("inputs", VStr "");
     ("outputs", VStr "");
     ("steps", VSteps [error_row e])].

Section ParseBpmnToSop.
(** [BPMNParser(xml_content)]: lxml's [etree.fromstring] followed by
    [_parse_structure]; it raises on XML that is not well-formed. *)
Variable new_BPMNParser : list Byte.byte -> result BPMNParser.

(** The [try] block with the outcome of [parser.generate_sop_rows()] left
    open, so that a failure of the synthesis can be stated. *)
Definition parse_bpmn_to_sop_with (generate : BPMNParser -> result (list Row))
    (xml_content : list Byte.byte) (metadata : gmap string Value)
  : result (gmap string Value) :=
  try_except
    (bind (new_BPMNParser xml_content) (fun parser =>
     bind (generate parser) (fun sop_rows =>
     Ok (context_of parser metadata sop_rows))))
    (error_context metadata).

Definition parse_bpmn_to_sop (xml_content : list Byte.byte) (metadata : gmap string Value)
  : result (gmap string Value) :=
  parse_bpmn_to_sop_with (fun parser => Ok (generate_sop_rows parser)) xml_content metadata.

End ParseBpmnToSop.

(** ** The SLA merge scan of [create_word_doc_from_template] *)

Module SlaMerge.

(** A merge range [(merge_start, merge_end, sla_value)] *)
Abbreviation Range := (nat * nat * option string)%type.

(** [while j < len(steps) and steps[j].get('is_gateway', False):
       merge_end = j; j += 1]
    with [rest = steps[j:]] *)
Fixpoint gateway_run (rest : list Row) (merge_end j : nat) : nat * nat :=
  match rest with
  | r :: rest' => if is_gateway r then gateway_run rest' j (S j) else (merge_end, j)
  | [] => (merge_end, j)
  end.

Definition while_gateway (steps : list Row) (merge_end j : nat) : nat * nat :=
  gateway_run (drop j steps) merge_end j.

(** [while j < len(steps) and steps[j].get('sla_group') == sla_group:]
    with the inner gateway loop; [None] when the iteration budget is used
    up. *)
Fixpoint while_group (fuel : nat) (steps : list Row) (group : option string)
    (merge_end j : nat) : option (nat * nat) :=
  match steps !! j with
  | None => Some (merge_end, j)
  | Some r =>
      if decide (sla_group r = group) then
        match fuel with
        | 0 => None
        | S fuel' =>
            let '(merge_end, j) := while_gateway steps j (S j) in
            while_group fuel' steps group merge_end j
        end
      else Some (merge_end, j)
  end.

(** [while idx < len(steps):] *)
Fixpoint scan (fuel : nat) (steps : list Row) (idx : nat) (sla_merges : list Range)
  : option (list Range) :=
  match steps !! idx with
  | None => Some sla_merges
  | Some step_item =>
      match fuel with
      | 0 => None
      | S fuel' =>
          let sla := sla step_item in
          let sla_group := sla_group step_item in
          if truthy_opt sla && negb (truthy_opt sla_group) then
            let '(merge_end, j) := while_gateway steps idx (idx + 1) in
            scan fuel' steps j (sla_merges ++ [(idx, merge_end, sla)])
          else if truthy_opt sla_group then
            let '(merge_end, j) := while_gateway steps idx (idx + 1) in
            match while_group (length steps) steps sla_group merge_end j with
            | None => None
            | Some (merge_end, j) =>
                scan fuel' steps j (sla_merges ++ [(idx, merge_end, sla)])
            end
          else
            let '(_, idx) := while_gateway steps idx (idx + 1) in
            scan fuel' steps idx sla_merges
      end
  end.

Definition sla_merges (steps : list Row) : option (list Range) :=
  scan (length steps) steps 0 [].

End SlaMerge.

(** * Further parts of the program *)

(** ** The step number in a task name
    ([_extract_step_number], [_remove_step_number]) *)

(** [\d] and the class [[.:\-]] on the ASCII range ([\s] is [isspace]) *)
Definition isdigit (c : ascii) : bool :=
  let n := nat_of_ascii c in ((48 <=? n) && (n <=? 57))%nat.

Definition is_separator (c : ascii) : bool :=
  Ascii.eqb c "."%char || Ascii.eqb c ":"%char || Ascii.eqb c "-"%char.

(** The class [[\n\r\t]] *)
Definition is_line_break (c : ascii) : bool :=
  Ascii.eqb c "010"%char || Ascii.eqb c "013"%char || Ascii.eqb c "009"%char.

(** The longest prefix of characters of a class, and what follows it: how
    a greedy [c*] or [c+] matches when nothing behind it needs a character
    of the class *)
Fixpoint span (p : ascii -> bool) (s : string) : string * string :=
  match s with
  | EmptyString => (EmptyString, EmptyString)
  | String c s' =>
      if p c then let '(run, rest) := span p s' in (String c run, rest)
      else (EmptyString, s)
  end.

(** [re.match(r'^\s*(\d+)\s*[.:\-]?\s*', s)]: the group [(\d+)] and what
    follows the match, [None] when there is no match.  The pattern matches
    exactly when the first character after the leading white space is a
    digit; every part behind [\d+] can match the empty string, so each
    greedy part takes all it can get and nothing is given back. *)
Definition match_step_number (s : string) : option (string * string) :=
  let '(group_1, s) := span isdigit (lstrip s) in
  if truthy group_1 then
    let s := lstrip s in
    let s :=
      match s with
      | String c s' => if is_separator c then s' else s
      | EmptyString => s
      end in
    Some (group_1, lstrip s)
  else None.

Definition _extract_step_number (task_name : string) : option digits :=
  match match_step_number task_name with
  | Some (group_1, _) => NilEmpty.uint_of_string group_1
  | None => None
  end.

(** [re.sub(r'[c]+', ' ', s)]: every run of characters of the class
    becomes one blank; [in_run] tells that the blank for the current run is
    written already. *)
Fixpoint sub_runs_from (p : ascii -> bool) (in_run : bool) (s : string) : string :=
  match s with
  | EmptyString => EmptyString
  | String c s' =>
      if p c then
        if in_run then sub_runs_from p true s'
        else String " "%char (sub_runs_from p true s')
      else String c (sub_runs_from p false s')
  end.

Definition sub_runs (p : ascii -> bool) (s : string) : string := sub_runs_from p false s.

(** The pattern of the second [re.sub] starts with [^], so it replaces at
    most the one match at the start of the name. *)
Definition _remove_step_number (task_name : string) : string :=
  let cleaned_name := sub_runs is_line_break task_name in
  let cleaned_name :=
    match match_step_number cleaned_name with
    | Some (_, rest) => rest
    | None => cleaned_name
    end in
  strip (sub_runs isspace cleaned_name).

(** ** [extract_metadata_from_bpmn] *)

Section ExtractMetadata.
Variable new_BPMNParser : list Byte.byte -> result BPMNParser.
(** [parser.extract_bpmn_metadata()] reads the XML tree, which the
    embedding does not hold. *)
Variable extract_bpmn_metadata : BPMNParser -> result (gmap string Value).

Definition extract_metadata_from_bpmn (xml_content : list Byte.byte)
  : result (gmap string Value) :=
  try_except
    (bind (new_BPMNParser xml_content) (fun parser =>
     bind (extract_bpmn_metadata parser) (fun metadata =>
     let metadata := <["inputs" := VStr (get_process_inputs parser)]> metadata in
     let metadata := <["outputs" := VStr (get_process_outputs parser)]> metadata in
     Ok metadata)))
    (fun _ => ∅).

End ExtractMetadata.

(** ** The history of entered metadata ([history_manager.py])

    The embedding follows [self.history]; [_save_history] writes the list
    to the file of the current user and leaves it as it is. *)

(** [==] on the values of a dictionary *)
#[global] Instance Alignment_eq_dec : EqDecision Alignment.
Proof. solve_decision. Defined.
#[global] Instance Raci_eq_dec : EqDecision Raci.
Proof. solve_decision. Defined.
#[global] Instance Paragraph_eq_dec : EqDecision Paragraph.
Proof. solve_decision. Defined.
#[global] Instance Row_eq_dec : EqDecision Row.
Proof. solve_decision. Defined.
#[global] Instance Value_eq_dec : EqDecision Value.
Proof. solve_decision. Defined.

(** An entry as [add_entry] builds it *)
Record Entry := {
  entry_timestamp : string;
  entry_process_name : Value;
  entry_process_code : Value;
  entry_purpose : Value;
  entry_scope : Value;
  entry_abbreviations_list : Value;
  entry_references_list : Value;
  entry_general_policies_list : Value
}.

(** [{k: v for k, v in entry.items() if k != 'timestamp'}] *)
Definition without_timestamp (e : Entry)
  : Value * Value * Value * Value * Value * Value * Value :=
  (entry_process_name e, entry_process_code e, entry_purpose e, entry_scope e,
   entry_abbreviations_list e, entry_references_list e, entry_general_policies_list e).

(** [existing['timestamp'] = t] *)
Definition set_timestamp (t : string) (e : Entry) : Entry :=
  {| entry_timestamp := t;
     entry_process_name := entry_process_name e;
     entry_process_code := entry_process_code e;
     entry_purpose := entry_purpose e;
     entry_scope := entry_scope e;
     entry_abbreviations_list := entry_abbreviations_list e;
     entry_references_list := entry_references_list e;
     entry_general_policies_list := entry_general_policies_list e |}.

Module HistoryManager.

(** The entry for [metadata] at the time [now] ([datetime.now().isoformat()]) *)
Definition new_entry (now : string) (metadata : gmap string Value) : Entry :=
  {| entry_timestamp := now;
     entry_process_name := get_or metadata "process_name" (VStr "");
     entry_process_code := get_or metadata "process_code" (VStr "");
     entry_purpose := get_or metadata "purpose" (VStr "");
     entry_scope := get_or metadata "scope" (VStr "");
     entry_abbreviations_list := get_or metadata "abbreviations_list" (VList []);
     entry_references_list := get_or metadata "references_list" (VList []);
     entry_general_policies_list := get_or metadata "general_policies_list" (VList []) |}.

(** The loop [for existing in self.history]: the first entry that equals
    the new one but for the time stamp gets its time stamp; [None] when
    the loop ends without having found one. *)
Fixpoint update_existing (entry : Entry) (history : list Entry) : option (list Entry) :=
  match history with
  | [] => None
  | existing :: rest =>
      if bool_decide (without_timestamp existing = without_timestamp entry)
      then Some (set_timestamp (entry_timestamp entry) existing :: rest)
      else cons existing <$> update_existing entry rest
  end.

(** [self.history] after [add_entry(metadata)] *)
Definition add_entry (history : list Entry) (metadata : gmap string Value) (now : string)
  : list Entry :=
  let entry := new_entry now metadata in
  match update_existing entry history with
  | Some history => history
  | None => take 50 (entry :: history)
  end.

Definition get_all (history : list Entry) : list Entry := history.

Definition get_entry (history : list Entry) (index : Z) : option Entry :=
  if (0 <=? index)%Z && (index <? Z.of_nat (length history))%Z
  then history !! Z.to_nat index
  else None.

(** [q in s] on strings *)
Fixpoint contains_str (q s : string) : bool :=
  String.prefix q s
  || match s with
     | EmptyString => false
     | String _ s' => contains_str q s'
     end.

(** [v.lower()]: only a string has the method *)
Definition lower_of (v : Value) : result string :=
  match v with
  | VStr s => Ok (lower s)
  | _ => Raise "'list' object has no attribute 'lower'"
  end.

(** The condition of [search]; [or] evaluates its second operand only when
    the first is false. *)
Definition matches (query_lower : string) (entry : Entry) : result bool :=
  bind (lower_of (entry_process_name entry)) (fun name =>
  if contains_str query_lower name then Ok true
  else bind (lower_of (entry_process_code entry)) (fun code =>
       Ok (contains_str query_lower code))).

Fixpoint search_from (query_lower : string) (results : list Entry) (history : list Entry)
  : result (list Entry) :=
  match history with
  | [] => Ok results
  | entry :: rest =>
      bind (matches query_lower entry) (fun found =>
      search_from query_lower (if found then results ++ [entry] else results) rest)
  end.

Definition search (history : list Entry) (query : string) : result (list Entry) :=
  search_from (lower query) [] history.

(** [self.history] after [clear()] *)
Definition clear (history : list Entry) : list Entry := [].

End HistoryManager.

(** * Notions used to state the properties *)

(** ** Traversals *)

(** The nodes a traversal has not visited yet: the measure that every
    recursive call decreases. *)
Definition unvisited (self : BPMNParser) (visited : gset string) : nat :=
  size (nodes self ∖ visited).

(** A traversal step [f] returns whenever fewer than [n] nodes are
    unvisited, and it only adds to [visited]. *)
Definition returns_below {R} (self : BPMNParser) (n : nat)
    (f : string -> gset string -> option (R * gset string)) : Prop :=
  forall e v, unvisited self v < n -> exists r v', f e v = Some (r, v') /\ v ⊆ v'.

(** The same for [trace_source], whose state carries [visited] *)
Definition trace_returns_below (self : BPMNParser) (n : nat)
    (f : string -> TraceState -> option TraceState) : Prop :=
  forall e st, unvisited self (ts_visited st) < n ->
    exists st', f e st = Some st' /\ ts_visited st ⊆ ts_visited st'.

(** ** SLA merge ranges *)

(** The three kinds of rows the scan distinguishes *)
Definition own_sla (r : Row) : bool := truthy_opt (sla r) && negb (truthy_opt (sla_group r)).
Definition grouped (r : Row) : bool := truthy_opt (sla_group r).
Definition no_sla (r : Row) : bool :=
  negb (truthy_opt (sla r)) && negb (truthy_opt (sla_group r)).

(** The number of gateway-case rows at the front of [rest] *)
Fixpoint gateway_cases (rest : list Row) : nat :=
  match rest with
  | r :: rest' => if is_gateway r then S (gateway_cases rest') else 0
  | [] => 0
  end.

(** Rows [s+1 .. e] are gateway cases or members of [group], and row
    [e+1], if there is one, is neither. *)
Definition group_extent (steps : list Row) (group : option string) (s e : nat) : Prop :=
  (forall k r, s < k <= e -> steps !! k = Some r ->
     is_gateway r = true \/ sla_group r = group)
  /\ (forall r, steps !! (S e) = Some r -> is_gateway r = false /\ sla_group r <> group).

(** What a range of the scan looks like *)
Definition range_shape (steps : list Row) (rg : SlaMerge.Range) : Prop :=
  let '(s, e, v) := rg in
  exists head, steps !! s = Some head /\ v = sla head /\ s <= e < length steps
    /\ ((own_sla head = true /\ e = s + gateway_cases (drop (S s) steps))
        \/ (grouped head = true /\ group_extent steps (sla_group head) s e)).

(** Ranges in increasing order without overlap, from row [from] on *)
Fixpoint ordered (from : nat) (ranges : list SlaMerge.Range) : Prop :=
  match ranges with
  | [] => True
  | (s, e, _) :: rest => from <= s /\ s <= e /\ ordered (S e) rest
  end.

(** ** Sorting *)

(** [a] may stand before [b]: the key of [b] is not smaller. *)
Definition not_after {A K} (ltb : K -> K -> bool) (key : A -> K) (a b : A) : Prop :=
  ltb (key b) (key a) = false.

(** ** Generated rows *)

(** A task row followed by its gateway-case rows *)
Definition block_ok (b : list Row) : Prop :=
  exists r gws, b = r :: gws /\ is_gateway r = false
    /\ Forall (fun g => is_gateway g = true /\ sla g = None /\ sla_group g = None
                        /\ raci g = raci r) gws.

(** The references of the rows that are not gateway cases *)
Definition task_refs (rows : list Row) : list string :=
  ref <$> filter (fun r => is_gateway r = false) rows.

(** The step numbers of the numbered tasks, in the order of [self.tasks] *)
Definition step_numbers (self : BPMNParser) : list digits :=
  omap (fun kv => task_number kv.2) (tasks self).

(** ** Gateway cases *)

(** A flow that resolves to one target: a numbered task or an end event *)
Definition direct_flow (self : BPMNParser) (flow_id : string) : Prop :=
  exists target name, target_of_flow self flow_id = [(target, name)]
    /\ match target with TTask _ | TEnd _ => True | _ => False end.

(** The order of the lettering between two cases that lead to a task or to
    an end event: ends first, then reverts (target at or before the parent)
    ascending by target, then proceeds descending by target. *)
Definition lettered_before (parent_num : Z) (c1 c2 : Case) : Prop :=
  match dest c1, dest c2 with
  | DEnd _, _ => True
  | DTask _, DEnd _ => False
  | DTask t1, DTask t2 =>
      if (int t1 <=? parent_num)%Z then
        if (int t2 <=? parent_num)%Z then (int t1 <= int t2)%Z else True
      else
        if (int t2 <=? parent_num)%Z then False else (int t2 <= int t1)%Z
  | _, _ => True
  end.

(** A case built for a direct task or end target: its revert flag and its
    sort key *)
Definition direct_case (parent_num : Z) (c : Case) : Prop :=
  match dest c with
  | DTask t =>
      is_revert c = (int t <=? parent_num)%Z
      /\ sort_key c = revert_key (int t <=? parent_num)%Z (int t)
  | DEnd _ => is_revert c = false /\ sort_key c = ((-1)%Z, 0%Z)
  | _ => False
  end.

(** The text of the first and of the last paragraph *)
Definition first_text (ps : list Paragraph) : string :=
  match ps with p :: _ => text p | [] => "" end.
Definition last_text (ps : list Paragraph) : string :=
  match reverse ps with p :: _ => text p | [] => "" end.

(** The title and the routing sentence of a row *)
Definition case_title (r : Row) : string := first_text (paragraphs r).
Definition routing_sentence (r : Row) : string := last_text (paragraphs r).

(** ** Multi-input detection *)

(** The steps traced from the AND/OR gateways that are direct predecessors
    of the task; [None] when no direct predecessor is such a gateway *)
Definition join_steps (self : BPMNParser) (task : Task) : option (list digits) :=
  let sources := parallel_or_inclusive_sources self (task_incoming task) in
  if nonempty sources then Some (join_source_steps self sources).1 else None.

(** (a) of C4: an AND/OR gateway is a direct predecessor and two different
    step numbers are traced from these gateways *)
Definition joins_two_steps (self : BPMNParser) (task_id : string) : Prop :=
  exists task steps, oget (tasks self) task_id = Some task
    /\ join_steps self task = Some steps /\ 2 <= length (remove_dups steps).

(** (a) as the code tests it: two traced steps, counted with repetition *)
Definition joins_two_traces (self : BPMNParser) (task_id : string) : Prop :=
  exists task steps, oget (tasks self) task_id = Some task
    /\ join_steps self task = Some steps /\ 2 <= length steps.

(** (b) of C4: the backward trace finds a forward step and a trigger *)
Definition step_and_trigger (self : BPMNParser) (task_id : string) : Prop :=
  exists steps triggers, step_trigger_sources self task_id = Some (steps, triggers)
    /\ steps <> [] /\ triggers <> [].

(** An incoming flow comes from an XOR gateway or traces back to an XOR
    split *)
Definition xor_involved (self : BPMNParser) (task : Task) : bool :=
  (trace_splits self (task_incoming task)).2.

(** The third way to a "Step Input:" text: no AND/OR gateway in front, no
    XOR gateway involved, and the direct sources give two steps *)
Definition direct_two_steps (self : BPMNParser) (task_id : string) : Prop :=
  exists task, oget (tasks self) task_id = Some task
    /\ join_steps self task = None /\ xor_involved self task = false
    /\ 2 <= length (direct_source_steps self (task_incoming task)).1.

(** ** Unnumbered tasks *)

(** A task with another step number, and the same graph with other step
    numbers on its tasks *)
Definition with_number (number : option digits) (t : Task) : Task :=
  {| task_name := task_name t; task_label := task_label t; task_lane := task_lane t;
     task_lane_id := task_lane_id t; task_number := number;
     task_incoming := task_incoming t; task_outgoing := task_outgoing t;
     task_documentation := task_documentation t; task_sla := task_sla t |}.

Definition renumber (number : string -> Task -> option digits) (self : BPMNParser)
  : BPMNParser :=
  {| tasks := (fun kv : string * Task => (kv.1, with_number (number kv.1 kv.2) kv.2))
                <$> tasks self;
     gateways := gateways self; flows := flows self; subprocesses := subprocesses self;
     events := events self; boundary_events := boundary_events self;
     groups := groups self; shape_bounds := shape_bounds self;
     lane_raci := lane_raci self |}.

(** * Notions used to state further properties *)

(** ** What the traversals look for *)

(** The flows a forward search follows out of an element: the outgoing
    flows of an event, else of a gateway *)
Definition forward_flows (self : BPMNParser) (element_id : string) : list string :=
  match oget (events self) element_id with
  | Some e => ev_outgoing e
  | None =>
      match gateways self !! element_id with
      | Some g => gw_outgoing g
      | None => []
      end
  end.

(** One of these flows exists and leads to [y]. *)
Definition flows_to (self : BPMNParser) (x y : string) : Prop :=
  exists flow_id flow, flow_id ∈ forward_flows self x
    /\ flows self !! flow_id = Some flow /\ flow_target flow = y.

(** [t] is reached from [x] along such flows, passing only through
    gateways and events. *)
Inductive leads_to (self : BPMNParser) : string -> string -> Prop :=
| leads_here x t : flows_to self x t -> leads_to self x t
| leads_through x y t :
    flows_to self x y -> in_gateways self y || in_events self y = true ->
    leads_to self y t -> leads_to self x t.

(** An incoming flow of the gateway [x] exists and comes from [y]. *)
Definition flows_from (self : BPMNParser) (x y : string) : Prop :=
  exists gateway flow_id flow, gateways self !! x = Some gateway
    /\ flow_id ∈ gw_incoming gateway
    /\ flows self !! flow_id = Some flow /\ flow_source flow = y.

(** [t] is found behind the gateway [x], passing only through gateways. *)
Inductive comes_from (self : BPMNParser) : string -> string -> Prop :=
| comes_here x t : flows_from self x t -> comes_from self x t
| comes_through x y t :
    flows_from self x y -> in_gateways self y = true ->
    comes_from self y t -> comes_from self x t.

(** A split gateway, one incoming flow and several outgoing ones, and its
    type *)
Definition split_type (self : BPMNParser) (x : string) : option GatewayType :=
  match gateways self !! x with
  | Some gw =>
      if (length (gw_incoming gw) =? 1)%nat && (1 <? length (gw_outgoing gw))%nat
      then Some (gw_type gw) else None
  | None => None
  end.

(** The source of the only incoming flow of a gateway or, failing that, of
    a task *)
Definition single_source (self : BPMNParser) (x : string) : option string :=
  let incoming_flows :=
    match gateways self !! x with
    | Some gw => gw_incoming gw
    | None =>
        match oget (tasks self) x with
        | Some t => task_incoming t
        | None => []
        end
    end in
  match incoming_flows with
  | [flow_id] => flow_source <$> flows self !! flow_id
  | _ => None
  end.

(** [z] lies on the chain of single incoming flows that starts at [x]; the
    chain does not go on behind a split. *)
Inductive traces_back (self : BPMNParser) : string -> string -> Prop :=
| traces_here x : traces_back self x x
| traces_on x y z :
    split_type self x = None -> single_source self x = Some y ->
    traces_back self y z -> traces_back self x z.

(** ** What a traversal has established when it returns *)

(** Nothing numbered lies one flow ahead of [x], and the gateways and
    events one flow ahead are in [v]. *)
Definition explored (self : BPMNParser) (v : gset string) (x : string) : Prop :=
  forall y, flows_to self x y ->
    numbered_task self y = None
    /\ (in_gateways self y || in_events self y = true -> y ∈ v).

(** What a forward search from [e] with the set [v] has established when
    it returns *)
Definition forward_result (self : BPMNParser) (e : string) (v : gset string)
    (res : option digits * gset string) : Prop :=
  v ⊆ res.2
  /\ match res.1 with
     | Some n =>
         truthy_digits n = true
         /\ exists t, leads_to self e t /\ numbered_task self t = Some n
     | None => e ∈ res.2 /\ forall x, x ∈ res.2 -> x ∉ v -> explored self res.2 x
     end.

(** The same for the search behind a gateway *)
Definition explored_back (self : BPMNParser) (v : gset string) (x : string) : Prop :=
  forall y, flows_from self x y ->
    numbered_task self y = None /\ (in_gateways self y = true -> y ∈ v).

Definition backward_result (self : BPMNParser) (e : string) (v : gset string)
    (res : option digits * gset string) : Prop :=
  v ⊆ res.2
  /\ match res.1 with
     | Some n =>
         truthy_digits n = true
         /\ exists t, comes_from self e t /\ numbered_task self t = Some n
     | None => e ∈ res.2 /\ forall x, x ∈ res.2 -> x ∉ v -> explored_back self res.2 x
     end.

(** The chain of single incoming flows: the visited elements are not
    splits and the chain leads from each of them into the set again or to
    the element that is visited next. *)
Definition on_chain (self : BPMNParser) (v : gset string) (e : string) : Prop :=
  forall x, x ∈ v ->
    split_type self x = None
    /\ exists y, single_source self x = Some y /\ (y ∈ v \/ y = e).


(** ** Start events *)

(** The start events, in the order of [self.events] *)
Definition start_events (self : BPMNParser) : list string :=
  flat_map (fun '(event_id, event_data) =>
    match ev_type event_data with EvStart => [event_id] | _ => [] end) (events self).

(** The sort key of a start event: the step number of the first task it
    leads to, 9999 when there is none *)
Definition first_step (self : BPMNParser) (event_id : string) : Z :=
  match _find_first_task_from_element self event_id with
  | Some s => if truthy_digits s then int s else 9999%Z
  | None => 9999%Z
  end.

(** The name under which a start event is listed as a process input: its
    own name or else the first name found on its outgoing flows *)
Definition input_name (self : BPMNParser) (event_data : Event) : option string :=
  if truthy (ev_name event_data) then Some (ev_name event_data)
  else first_flow_name self (ev_outgoing event_data).

(** A line of a numbered list: ["<n>. <name>"] *)
Definition numbered_line (entry : nat * string) : string :=
  str_of_nat entry.1 +:+ ". " +:+ entry.2.

(** ** SLA of a task *)

(** The centre of a shape, as [_get_task_sla] computes it *)
Definition centre_x (tb : Bounds) : float :=
  PrimFloat.add (b_x tb) (PrimFloat.div (b_width tb) 2%float).
Definition centre_y (tb : Bounds) : float :=
  PrimFloat.add (b_y tb) (PrimFloat.div (b_height tb) 2%float).

(** The group has a shape and the point lies inside it. *)
Definition contains (self : BPMNParser) (cx cy : float) (group_id : string) : bool :=
  match shape_bounds self !! group_id with
  | Some gb => in_group cx cy gb
  | None => false
  end.

(** ** Task names *)

(** Every character of the string is of the class. *)
Fixpoint all_chars (p : ascii -> bool) (s : string) : bool :=
  match s with
  | EmptyString => true
  | String c s' => p c && all_chars p s'
  end.

(** The string does not start with a character of the class. *)
Definition starts_without (p : ascii -> bool) (s : string) : bool :=
  match s with
  | EmptyString => true
  | String c _ => negb (p c)
  end.

(** The only white space is the blank and no two blanks are adjacent;
    with [blank], the string does not start with one either. *)
Fixpoint spaced (blank : bool) (s : string) : bool :=
  match s with
  | EmptyString => true
  | String c s' =>
      if Ascii.eqb c " "%char then negb blank && spaced true s'
      else negb (isspace c) && spaced false s'
  end.

(** The same, and the string does not end with a blank. *)
Fixpoint tidy_after (blank : bool) (s : string) : bool :=
  match s with
  | EmptyString => negb blank
  | String c s' =>
      if Ascii.eqb c " "%char then negb blank && tidy_after true s'
      else negb (isspace c) && tidy_after false s'
  end.

(** A tidy label: words separated by single blanks, no other white space,
    none at either end *)
Definition tidy (s : string) : bool :=
  match s with
  | EmptyString => true
  | _ => tidy_after true s
  end.

(** ** Sentences *)

(** The text ends with a full stop, an exclamation mark or a question
    mark: the test of [ensure_period]. *)
Definition ends_sentence (text : string) : bool :=
  endswith text "." || endswith text "!" || endswith text "?".

(** The RACI of the lane of a task, "N/A" throughout when the lane has
    none *)
Definition lane_raci_of (self : BPMNParser) (task : Task) : Raci :=
  match task_lane_id task with
  | Some lane_id => default na_raci (lane_raci self !! lane_id)
  | None => na_raci
  end.

(** ** Sources of a task *)

(** What the sets of [_detect_step_trigger_input] hold at any time: step
    numbers of numbered tasks, all smaller than the number of the current
    task, and input numbers of start events; nothing twice. *)
Definition sources_ok (self : BPMNParser) (current_task_num : Z)
    (start_event_numbers : odict nat) (st : TraceState) : Prop :=
  (forall n, n ∈ step_sources st ->
     (int n < current_task_num)%Z /\ exists id, numbered_task self id = Some n)
  /\ (forall k, k ∈ trigger_sources st ->
        exists event_id, (event_id, k) ∈ start_event_numbers)
  /\ NoDup (step_sources st) /\ NoDup (trigger_sources st).

(** * Example graphs *)

Definition mk_task (label : string) (number : option nat) (incoming outgoing : list string)
  : Task :=
  {| task_name := match number with
                  | Some n => str_of_nat n +:+ ". " +:+ label
                  | None => label
                  end;
     task_label := label; task_lane := "Ops"; task_lane_id := Some "Lane_1";
     task_number := Nat.to_uint <$> number;
     task_incoming := incoming; task_outgoing := outgoing;
     task_documentation := None; task_sla := None |}.

Definition mk_flow (source target name : string) : Flow :=
  {| flow_source := source; flow_target := target; flow_name := name;
     flow_documentation := None |}.

Definition mk_event (name : string) (type : EventType) (incoming outgoing : list string)
  : Event :=
  {| ev_name := name; ev_type := type; ev_incoming := incoming; ev_outgoing := outgoing |}.

Definition mk_gateway (type : GatewayType) (incoming outgoing : list string) : Gateway :=
  {| gw_type := type; gw_incoming := incoming; gw_outgoing := outgoing |}.

Definition mk_graph (ts : odict Task) (gs : list (string * Gateway))
    (fs : list (string * Flow)) (es : odict Event) : BPMNParser :=
  {| tasks := ts; gateways := list_to_map gs; flows := list_to_map fs;
     subprocesses := ∅; events := es; boundary_events := ∅; groups := [];
     shape_bounds := ∅; lane_raci := ∅ |}.

(** Two tasks that carry the same step number *)
Definition ex_same_number : BPMNParser :=
  mk_graph
    [("T1", mk_task "Receive" (Some 1) ["f0"] ["f1"]);
     ("T2", mk_task "Record" (Some 1) ["f1"] ["f2"])]
    []
    [("f0", mk_flow "S" "T1" ""); ("f1", mk_flow "T1" "T2" ""); ("f2", mk_flow "T2" "E" "")]
    [("S", mk_event "Request" EvStart [] ["f0"]); ("E", mk_event "Done" EvEnd ["f2"] [])].

(** Start -> 1 -> XOR -> {"Approved" -> 3, "Rejected" -> 1}, 3 -> End *)
Definition ex_xor : BPMNParser :=
  mk_graph
    [("T1", mk_task "Review" (Some 1) ["f0"; "fr"] ["f1"]);
     ("T3", mk_task "Archive" (Some 3) ["fa"] ["f3"])]
    [("G", mk_gateway XOR ["f1"] ["fa"; "fr"])]
    [("f0", mk_flow "S" "T1" ""); ("f1", mk_flow "T1" "G" "");
     ("fa", mk_flow "G" "T3" "Approved"); ("fr", mk_flow "G" "T1" "Rejected");
     ("f3", mk_flow "T3" "E" "")]
    [("S", mk_event "Request" EvStart [] ["f0"]); ("E", mk_event "Done" EvEnd ["f3"] [])].

(** Start -> 1 -> AND split -> {2, 3} -> AND join -> End "Done" *)
Definition ex_parallel : BPMNParser :=
  mk_graph
    [("T1", mk_task "Prepare" (Some 1) ["f0"] ["f1"]);
     ("T2", mk_task "Pack" (Some 2) ["f2"] ["f4"]);
     ("T3", mk_task "Bill" (Some 3) ["f3"] ["f5"])]
    [("G1", mk_gateway AND ["f1"] ["f2"; "f3"]);
     ("G2", mk_gateway AND ["f4"; "f5"] ["f6"])]
    [("f0", mk_flow "S" "T1" ""); ("f1", mk_flow "T1" "G1" "");
     ("f2", mk_flow "G1" "T2" ""); ("f3", mk_flow "G1" "T3" "");
     ("f4", mk_flow "T2" "G2" ""); ("f5", mk_flow "T3" "G2" "");
     ("f6", mk_flow "G2" "E" "")]
    [("S", mk_event "Order" EvStart [] ["f0"]); ("E", mk_event "Done" EvEnd ["f6"] [])].

(** A list of step records with an own SLA, no SLA, and two SLA groups *)
Definition mk_row (r : string) (gateway : bool) (s g : option string) : Row :=
  {| ref := r; is_gateway := gateway; sla := s; sla_group := g; raci := None;
     paragraphs := [] |}.

Definition ex_steps : list Row :=
  [mk_row "1" false (Some "1 day") None; mk_row "1A" true None None;
   mk_row "1B" true None None; mk_row "2" false None None; mk_row "2A" true None None;
   mk_row "3" false (Some "2 days") (Some "Group_1");
   mk_row "4" false (Some "2 days") (Some "Group_1"); mk_row "4A" true None None;
   mk_row "5" false (Some "3 days") (Some "Group_2")].

(** A loop back to step 6 through a merging gateway:
    Start -> G2 -> 6 -> G1 (XOR) -> {"Yes" -> 7, "No" -> G2}, 7 -> End *)
Definition ex_nested_self_loop : BPMNParser :=
  mk_graph
    [("T6", mk_task "Check" (Some 6) ["f_in"] ["f1"]);
     ("T7", mk_task "Ship" (Some 7) ["fy"] ["f7"])]
    [("G1", mk_gateway XOR ["f1"] ["fy"; "fn"]);
     ("G2", mk_gateway XOR ["f0"; "fn"] ["f_in"])]
    [("f0", mk_flow "S" "G2" ""); ("f_in", mk_flow "G2" "T6" "");
     ("f1", mk_flow "T6" "G1" ""); ("fy", mk_flow "G1" "T7" "Yes");
     ("fn", mk_flow "G1" "G2" "No"); ("f7", mk_flow "T7" "E" "")]
    [("S", mk_event "Order" EvStart [] ["f0"]); ("E", mk_event "Done" EvEnd ["f7"] [])].

(** The same loop drawn without the merging gateway: "No" leads from G1
    straight back to task 6 *)
Definition ex_direct_self_loop : BPMNParser :=
  mk_graph
    [("T6", mk_task "Check" (Some 6) ["f0"; "fn"] ["f1"]);
     ("T7", mk_task "Ship" (Some 7) ["fy"] ["f7"])]
    [("G1", mk_gateway XOR ["f1"] ["fy"; "fn"])]
    [("f0", mk_flow "S" "T6" "");
     ("f1", mk_flow "T6" "G1" ""); ("fy", mk_flow "G1" "T7" "Yes");
     ("fn", mk_flow "G1" "T6" "No"); ("f7", mk_flow "T7" "E" "")]
    [("S", mk_event "Order" EvStart [] ["f0"]); ("E", mk_event "Done" EvEnd ["f7"] [])].

(** An XOR split with a branch to a task that has no step number *)
Definition ex_unnumbered_branch : BPMNParser :=
  mk_graph
    [("T1", mk_task "Review" (Some 1) ["f0"] ["f1"]);
     ("T2", mk_task "Approve" (Some 2) ["fa"] ["f2"]);
     ("U", mk_task "Notify" None ["fb"] ["f3"])]
    [("G", mk_gateway XOR ["f1"] ["fa"; "fb"])]
    [("f0", mk_flow "S" "T1" ""); ("f1", mk_flow "T1" "G" "");
     ("fa", mk_flow "G" "T2" "Yes"); ("fb", mk_flow "G" "U" "No");
     ("f2", mk_flow "T2" "E" ""); ("f3", mk_flow "U" "E" "")]
    [("S", mk_event "Request" EvStart [] ["f0"]);
     ("E", mk_event "Done" EvEnd ["f2"; "f3"] [])].

(** Two tasks that flow into a third one without any gateway *)
Definition ex_two_predecessors : BPMNParser :=
  mk_graph
    [("T1", mk_task "Collect" (Some 1) ["f0"] ["f1"]);
     ("T2", mk_task "Verify" (Some 2) ["f00"] ["f2"]);
     ("T3", mk_task "File" (Some 3) ["f1"; "f2"] ["f3"])]
    []
    [("f0", mk_flow "S1" "T1" ""); ("f00", mk_flow "S2" "T2" "");
     ("f1", mk_flow "T1" "T3" ""); ("f2", mk_flow "T2" "T3" "");
     ("f3", mk_flow "T3" "E" "")]
    [("S1", mk_event "Letter" EvStart [] ["f0"]); ("S2", mk_event "Call" EvStart [] ["f00"]);
     ("E", mk_event "Done" EvEnd ["f3"] [])].

(** Start -> 1 -> AND split -> {2, 3} -> AND join -> 4 -> End *)
Definition ex_join : BPMNParser :=
  mk_graph
    [("T1", mk_task "Prepare" (Some 1) ["f0"] ["f1"]);
     ("T2", mk_task "Pack" (Some 2) ["f2"] ["f4"]);
     ("T3", mk_task "Bill" (Some 3) ["f3"] ["f5"]);
     ("T4", mk_task "Merge" (Some 4) ["f6"] ["f7"])]
    [("G1", mk_gateway AND ["f1"] ["f2"; "f3"]);
     ("G2", mk_gateway AND ["f4"; "f5"] ["f6"])]
    [("f0", mk_flow "S" "T1" ""); ("f1", mk_flow "T1" "G1" "");
     ("f2", mk_flow "G1" "T2" ""); ("f3", mk_flow "G1" "T3" "");
     ("f4", mk_flow "T2" "G2" ""); ("f5", mk_flow "T3" "G2" "");
     ("f6", mk_flow "G2" "T4" ""); ("f7", mk_flow "T4" "E" "")]
    [("S", mk_event "Order" EvStart [] ["f0"]); ("E", mk_event "Done" EvEnd ["f7"] [])].

(** Two tasks without a step number on the way:
    Start -> Intake -> 1 -> Notify -> 2 -> End *)
Definition ex_unnumbered_between : BPMNParser :=
  mk_graph
    [("U0", mk_task "Intake" None ["f0"] ["f1"]);
     ("T1", mk_task "Review" (Some 1) ["f1"] ["f2"]);
     ("U", mk_task "Notify" None ["f2"] ["f3"]);
     ("T2", mk_task "Close" (Some 2) ["f3"] ["f4"])]
    []
    [("f0", mk_flow "S" "U0" ""); ("f1", mk_flow "U0" "T1" "");
     ("f2", mk_flow "T1" "U" ""); ("f3", mk_flow "U" "T2" "");
     ("f4", mk_flow "T2" "E" "")]
    [("S", mk_event "Request" EvStart [] ["f0"]); ("E", mk_event "Done" EvEnd ["f4"] [])].

(** An AND join in front of the end event that is fed by task 2 and by a
    task without a step number:
    Start -> 1 -> AND split -> {2, Notify} -> AND join -> End "Done" *)
Definition ex_join_unnumbered : BPMNParser :=
  mk_graph
    [("T1", mk_task "Prepare" (Some 1) ["f0"] ["f1"]);
     ("T2", mk_task "Pack" (Some 2) ["f2"] ["f4"]);
     ("U", mk_task "Notify" None ["f3"] ["f5"])]
    [("G1", mk_gateway AND ["f1"] ["f2"; "f3"]);
     ("G2", mk_gateway AND ["f4"; "f5"] ["f6"])]
    [("f0", mk_flow "S" "T1" ""); ("f1", mk_flow "T1" "G1" "");
     ("f2", mk_flow "G1" "T2" ""); ("f3", mk_flow "G1" "U" "");
     ("f4", mk_flow "T2" "G2" ""); ("f5", mk_flow "U" "G2" "");
     ("f6", mk_flow "G2" "E" "")]
    [("S", mk_event "Order" EvStart [] ["f0"]); ("E", mk_event "Done" EvEnd ["f6"] [])].

(** A constructor that rejects every input, as lxml does on XML that is
    not well-formed *)
Definition ex_reject (xml_content : list Byte.byte) : result BPMNParser :=
  Raise "Start tag expected, '<' not found, line 1, column 1".

(** * Further example graphs *)

(** Task 2 is entered from task 1 and from a start event of its own:
    Start "Order" -> 1 -> 2 -> End, Start "Reminder" -> 2 *)
Definition ex_step_and_trigger : BPMNParser :=
  mk_graph
    [("T1", mk_task "Register" (Some 1) ["f0"] ["f1"]);
     ("T2", mk_task "Handle" (Some 2) ["f1"; "f2"] ["f3"])]
    []
    [("f0", mk_flow "S1" "T1" ""); ("f1", mk_flow "T1" "T2" "");
     ("f2", mk_flow "S2" "T2" ""); ("f3", mk_flow "T2" "E" "")]
    [("S1", mk_event "Order" EvStart [] ["f0"]);
     ("S2", mk_event "Reminder" EvStart [] ["f2"]);
     ("E", mk_event "Done" EvEnd ["f3"] [])].

(** A task that waits for an intermediate event:
    Start -> 1 -> (Payment received) -> 2 -> End *)
Definition ex_intermediate : BPMNParser :=
  mk_graph
    [("T1", mk_task "Invoice" (Some 1) ["f0"] ["f1"]);
     ("T2", mk_task "Deliver" (Some 2) ["f2"] ["f3"])]
    []
    [("f0", mk_flow "S" "T1" ""); ("f1", mk_flow "T1" "I" "");
     ("f2", mk_flow "I" "T2" ""); ("f3", mk_flow "T2" "E" "")]
    [("S", mk_event "Order" EvStart [] ["f0"]);
     ("I", mk_event "Payment received" EvIntermediate ["f1"] ["f2"]);
     ("E", mk_event "Done" EvEnd ["f3"] [])].

(** Task 1 has an SLA of its own; tasks 2 and 3 lie inside a group with an
    SLA: Start -> 1 -> XOR -> {"Yes" -> 2, "No" -> 1}, 2 -> 3 -> End *)
Definition with_sla (s : string) (t : Task) : Task :=
  {| task_name := task_name t; task_label := task_label t; task_lane := task_lane t;
     task_lane_id := task_lane_id t; task_number := task_number t;
     task_incoming := task_incoming t; task_outgoing := task_outgoing t;
     task_documentation := task_documentation t; task_sla := Some s |}.

Definition mk_bounds (x y width height : float) : Bounds :=
  {| b_x := x; b_y := y; b_width := width; b_height := height |}.

Definition ex_sla_group : BPMNParser :=
  {| tasks :=
       [("T1", with_sla "1 day" (mk_task "Review" (Some 1) ["f0"; "fn"] ["f1"]));
        ("T2", mk_task "Approve" (Some 2) ["fy"] ["f2"]);
        ("T3", mk_task "Archive" (Some 3) ["f2"] ["f3"])];
     gateways := {["G" := mk_gateway XOR ["f1"] ["fy"; "fn"]]};
     flows :=
       list_to_map
         [("f0", mk_flow "S" "T1" ""); ("f1", mk_flow "T1" "G" "");
          ("fy", mk_flow "G" "T2" "Yes"); ("fn", mk_flow "G" "T1" "No");
          ("f2", mk_flow "T2" "T3" ""); ("f3", mk_flow "T3" "E" "")];
     subprocesses := ∅;
     events := [("S", mk_event "Request" EvStart [] ["f0"]);
                ("E", mk_event "Done" EvEnd ["f3"] [])];
     boundary_events := ∅;
     groups := [("Group_1", "2 days")];
     shape_bounds :=
       list_to_map
         [("T1", mk_bounds 100 100 100 80); ("T2", mk_bounds 400 100 100 80);
          ("T3", mk_bounds 600 100 100 80); ("Group_1", mk_bounds 350 50 400 200)];
     lane_raci := ∅ |}.

(** A constructor and an extraction that accept every input *)
Definition ex_accept (xml_content : list Byte.byte) : result BPMNParser :=
  Ok ex_xor.

Definition ex_extract (parser : BPMNParser) : result (gmap string Value) :=
  Ok {["process_name" := VStr "Review"]}.

(** * Properties *)

(** ** Termination of the traversals *)

Section Termination.
Variable self : BPMNParser.

Lemma unvisited_mono (v v' : gset string) :
  v ⊆ v' -> unvisited self v' <= unvisited self v.
Proof. intros Hsub. unfold unvisited. apply subseteq_size. set_solver. Qed.

Lemma unvisited_add (e : string) (v : gset string) :
  e ∈ nodes self -> e ∉ v -> unvisited self ({[e]} ∪ v) < unvisited self v.
Proof.
  intros Hin Hnot. unfold unvisited. apply subset_size.
  apply strict_spec_alt. split; [set_solver|].
  intros Heq. assert (e ∈ nodes self ∖ v) as He by set_solver.
  rewrite <- Heq in He. set_solver.
Qed.

Lemma unvisited_empty : unvisited self ∅ < budget self.
Proof.
  unfold unvisited, budget.
  assert (size (nodes self ∖ ∅) <= size (nodes self)); [|lia].
  apply subseteq_size. set_solver.
Qed.

Lemma oget_key {V} (d : odict V) (id : string) :
  has (oget d id) = true -> id ∈ d.*1.
Proof.
  induction d as [|[k t] l IH]; simpl; [discriminate|].
  destruct (decide (k = id)) as [->|]; [left|right; auto].
Qed.

Lemma in_tasks_nodes (id : string) : in_tasks self id = true -> id ∈ nodes self.
Proof. unfold in_tasks, nodes. intros H%oget_key. set_solver. Qed.

Lemma in_events_nodes (id : string) : in_events self id = true -> id ∈ nodes self.
Proof. unfold in_events, nodes. intros H%oget_key. set_solver. Qed.

Lemma in_gateways_nodes (id : string) : in_gateways self id = true -> id ∈ nodes self.
Proof.
  unfold in_gateways, nodes. intros H.
  assert (id ∈ dom (gateways self)); [|set_solver].
  apply elem_of_dom. destruct (gateways self !! id); [eauto|discriminate].
Qed.

Lemma in_subprocesses_nodes (id : string) :
  in_subprocesses self id = true -> id ∈ nodes self.
Proof.
  unfold in_subprocesses, nodes. intros H.
  assert (id ∈ dom (subprocesses self)); [|set_solver].
  apply elem_of_dom. destruct (subprocesses self !! id); [eauto|discriminate].
Qed.

Lemma find_first_loop_returns n rec fl v :
  returns_below self n rec -> unvisited self v < n ->
  exists r v', find_first_loop self rec fl v = Some (r, v') /\ v ⊆ v'.
Proof.
  intros Hrec. revert v. induction fl as [|flow_id rest IH]; intros v Hv; simpl.
  - eauto.
  - destruct (flows self !! flow_id) as [flow|]; [|auto].
    destruct (numbered_task self (flow_target flow)); [eauto|].
    destruct (in_gateways self (flow_target flow) || in_events self (flow_target flow));
      [|auto].
    destruct (Hrec (flow_target flow) v Hv) as (r & v' & -> & Hsub).
    destruct (truthy_num r); [eauto|].
    destruct (IH v') as (r' & v'' & -> & Hsub').
    { pose proof (unvisited_mono _ _ Hsub). lia. }
    exists r', v''. split; [done|set_solver].
Qed.

Lemma find_first_task_returns n : returns_below self n (find_first_task_fuel self n).
Proof.
  induction n as [|n IH]; intros e v Hv; [lia|]. simpl.
  destruct (decide (e ∈ v)); [eauto|].
  destruct (decide (e ∈ nodes self)) as [Hin|Hout].
  - destruct (find_first_loop_returns n (find_first_task_fuel self n)
       (match oget (events self) e with
        | Some e0 => ev_outgoing e0
        | None => match gateways self !! e with Some g => gw_outgoing g | None => [] end
        end) ({[e]} ∪ v) IH) as (r & v' & -> & Hsub).
    { pose proof (unvisited_add e v Hin ltac:(done)). lia. }
    exists r, v'. split; [done|set_solver].
  - assert (oget (events self) e = None) as ->.
    { destruct (oget (events self) e) eqn:E; [|done].
      exfalso. apply Hout, in_events_nodes. unfold in_events. by rewrite E. }
    assert (gateways self !! e = None) as ->.
    { destruct (gateways self !! e) eqn:E; [|done].
      exfalso. apply Hout, in_gateways_nodes. unfold in_gateways. by rewrite E. }
    simpl. exists None, ({[e]} ∪ v). split; [done|set_solver].
Qed.

Lemma trace_gateway_loop_returns n rec fl v :
  returns_below self n rec -> unvisited self v < n ->
  exists r v', trace_gateway_loop self rec fl v = Some (r, v') /\ v ⊆ v'.
Proof.
  intros Hrec. revert v. induction fl as [|flow_id rest IH]; intros v Hv; simpl.
  - eauto.
  - destruct (flows self !! flow_id) as [flow|]; [|auto].
    destruct (numbered_task self (flow_source flow)); [eauto|].
    destruct (in_gateways self (flow_source flow)); [|auto].
    destruct (Hrec (flow_source flow) v Hv) as (r & v' & -> & Hsub).
    destruct (truthy_num r); [eauto|].
    destruct (IH v') as (r' & v'' & -> & Hsub').
    { pose proof (unvisited_mono _ _ Hsub). lia. }
    exists r', v''. split; [done|set_solver].
Qed.

Lemma trace_gateway_returns n : returns_below self n (trace_gateway_fuel self n).
Proof.
  induction n as [|n IH]; intros e v Hv; [lia|]. simpl.
  destruct (decide (e ∈ v)); [eauto|].
  destruct (gateways self !! e) as [gateway|] eqn:E.
  - destruct (trace_gateway_loop_returns n (trace_gateway_fuel self n)
                (gw_incoming gateway) ({[e]} ∪ v) IH) as (r & v' & -> & Hsub).
    { assert (e ∈ nodes self) as Hin.
      { apply in_gateways_nodes. unfold in_gateways. by rewrite E. }
      pose proof (unvisited_add e v Hin ltac:(done)). lia. }
    exists r, v'. split; [done|set_solver].
  - exists None, ({[e]} ∪ v). split; [done|set_solver].
Qed.

Lemma trace_back_returns n e v :
  unvisited self v < n -> is_Some (trace_back_fuel self n e v).
Proof.
  revert e v. induction n as [|n IH]; intros e v Hv; [lia|]. simpl.
  destruct (decide (e ∈ v)); [eauto|].
  assert (forall fl, e ∈ nodes self ->
            is_Some (match fl with
                     | [] => Some None
                     | [flow_id] =>
                         match flows self !! flow_id with
                         | Some flow => trace_back_fuel self n (flow_source flow) ({[e]} ∪ v)
                         | None => Some None
                         end
                     | _ :: _ :: _ => Some None
                     end)) as Hcont.
  { intros [|flow_id [|? ?]] Hin; [eauto| |eauto].
    destruct (flows self !! flow_id); [|eauto].
    apply IH. pose proof (unvisited_add e v Hin ltac:(done)). lia. }
  destruct (gateways self !! e) as [gw|] eqn:Eg.
  - destruct (_ && _); [eauto|].
    apply Hcont, in_gateways_nodes. unfold in_gateways. by rewrite Eg.
  - destruct (oget (tasks self) e) eqn:Et; [|eauto].
    apply Hcont, in_tasks_nodes. unfold in_tasks. by rewrite Et.
Qed.

Lemma trace_source_loop_returns n rec fl st :
  trace_returns_below self n rec -> unvisited self (ts_visited st) < n ->
  exists st', trace_source_loop self rec fl st = Some st'
              /\ ts_visited st ⊆ ts_visited st'.
Proof.
  intros Hrec. revert st. induction fl as [|flow_id rest IH]; intros st Hv; simpl.
  - eauto.
  - destruct (flows self !! flow_id) as [flow|]; [|auto].
    destruct (Hrec (flow_source flow) st Hv) as (st' & -> & Hsub).
    destruct (IH st') as (st'' & -> & Hsub').
    { pose proof (unvisited_mono _ _ Hsub). lia. }
    exists st''. split; [done|set_solver].
Qed.

Lemma trace_source_returns cur nums n :
  trace_returns_below self n (trace_source_fuel self cur nums n).
Proof.
  induction n as [|n IH]; intros e st Hv; [lia|]. simpl.
  destruct (decide (e ∈ ts_visited st)); [eauto|].
  assert (forall fl, e ∈ nodes self ->
            exists st', trace_source_loop self (trace_source_fuel self cur nums n) fl
                          (add_visited e st) = Some st'
                        /\ ts_visited st ⊆ ts_visited st') as Hloop.
  { intros fl Hin.
    destruct (trace_source_loop_returns n (trace_source_fuel self cur nums n) fl
                (add_visited e st) IH) as (st' & -> & Hsub).
    { simpl. pose proof (unvisited_add e (ts_visited st) Hin ltac:(done)). lia. }
    exists st'. split; [done|]. simpl in Hsub. set_solver. }
  assert (forall st', ts_visited st' = {[e]} ∪ ts_visited st ->
            exists st'', Some st' = Some st'' /\ ts_visited st ⊆ ts_visited st'') as Hret.
  { intros st' Hst'. exists st'. split; [done|]. rewrite Hst'. set_solver. }
  destruct (oget (tasks self) e) as [t|] eqn:Et.
  { destruct (task_number t) as [num|]; [|by apply Hret].
    destruct (_ && _); by apply Hret. }
  destruct (oget (events self) e) as [ev|] eqn:Ee.
  { assert (e ∈ nodes self) by (apply in_events_nodes; unfold in_events; by rewrite Ee).
    destruct (ev_type ev); [|by apply Hloop..].
    destruct (oget nums e); by apply Hret. }
  destruct (gateways self !! e) as [g|] eqn:Eg.
  { apply Hloop, in_gateways_nodes. unfold in_gateways. by rewrite Eg. }
  destruct (subprocesses self !! e) as [s|] eqn:Es.
  { apply Hloop, in_subprocesses_nodes. unfold in_subprocesses. by rewrite Es. }
  by apply Hret.
Qed.

(** More budget does not change a result. *)
Lemma find_first_loop_mono rec rec' fl v r :
  (forall e v r, rec e v = Some r -> rec' e v = Some r) ->
  find_first_loop self rec fl v = Some r -> find_first_loop self rec' fl v = Some r.
Proof.
  intros Hrec. revert v. induction fl as [|flow_id rest IH]; intros v; simpl; [done|].
  destruct (flows self !! flow_id) as [flow|]; [|auto].
  destruct (numbered_task self (flow_target flow)); [done|].
  destruct (_ || _); [|auto].
  destruct (rec (flow_target flow) v) as [[res v']|] eqn:E; [|done].
  rewrite (Hrec _ _ _ E). destruct (truthy_num res); auto.
Qed.

Lemma find_first_task_fuel_S n e v r :
  find_first_task_fuel self n e v = Some r -> find_first_task_fuel self (S n) e v = Some r.
Proof.
  revert e v r. induction n as [|n IH]; intros e v r; [done|].
  intros H. simpl in H. cbn [find_first_task_fuel].
  destruct (decide (e ∈ v)); [done|].
  eapply find_first_loop_mono; [|exact H]. exact IH.
Qed.

Lemma trace_gateway_loop_mono rec rec' fl v r :
  (forall e v r, rec e v = Some r -> rec' e v = Some r) ->
  trace_gateway_loop self rec fl v = Some r -> trace_gateway_loop self rec' fl v = Some r.
Proof.
  intros Hrec. revert v. induction fl as [|flow_id rest IH]; intros v; simpl; [done|].
  destruct (flows self !! flow_id) as [flow|]; [|auto].
  destruct (numbered_task self (flow_source flow)); [done|].
  destruct (in_gateways self _); [|auto].
  destruct (rec (flow_source flow) v) as [[res v']|] eqn:E; [|done].
  rewrite (Hrec _ _ _ E). destruct (truthy_num res); auto.
Qed.

Lemma trace_gateway_fuel_S n e v r :
  trace_gateway_fuel self n e v = Some r -> trace_gateway_fuel self (S n) e v = Some r.
Proof.
  revert e v r. induction n as [|n IH]; intros e v r; [done|].
  intros H. simpl in H. cbn [trace_gateway_fuel].
  destruct (decide (e ∈ v)); [done|].
  destruct (gateways self !! e); [|done].
  eapply trace_gateway_loop_mono; [|exact H]. exact IH.
Qed.

Lemma trace_back_fuel_S n e v r :
  trace_back_fuel self n e v = Some r -> trace_back_fuel self (S n) e v = Some r.
Proof.
  revert e v r. induction n as [|n IH]; intros e v r; [done|].
  intros H. simpl in H. cbn [trace_back_fuel].
  destruct (decide (e ∈ v)); [done|].
  destruct (gateways self !! e) as [gw|].
  - destruct (_ && _); [done|].
    destruct (gw_incoming gw) as [|flow_id [|? ?]]; [done| |done].
    destruct (flows self !! flow_id); [|done]. by apply IH.
  - destruct (oget (tasks self) e) as [t|]; [|done].
    destruct (task_incoming t) as [|flow_id [|? ?]]; [done| |done].
    destruct (flows self !! flow_id); [|done]. by apply IH.
Qed.

Lemma trace_source_loop_mono rec rec' fl st r :
  (forall e st r, rec e st = Some r -> rec' e st = Some r) ->
  trace_source_loop self rec fl st = Some r -> trace_source_loop self rec' fl st = Some r.
Proof.
  intros Hrec. revert st. induction fl as [|flow_id rest IH]; intros st; simpl; [done|].
  destruct (flows self !! flow_id) as [flow|]; [|auto].
  destruct (rec (flow_source flow) st) as [st'|] eqn:E; [|done].
  rewrite (Hrec _ _ _ E). auto.
Qed.

Lemma trace_source_fuel_S cur nums n e st r :
  trace_source_fuel self cur nums n e st = Some r ->
  trace_source_fuel self cur nums (S n) e st = Some r.
Proof.
  revert e st r. induction n as [|n IH]; intros e st r; [done|].
  intros H. simpl in H. cbn [trace_source_fuel].
  destruct (decide (e ∈ ts_visited st)); [done|].
  destruct (oget (tasks self) e); [done|].
  destruct (oget (events self) e) as [ev|].
  { destruct (ev_type ev); [done|..];
      (eapply trace_source_loop_mono; [|exact H]; exact IH). }
  destruct (gateways self !! e).
  { eapply trace_source_loop_mono; [|exact H]; exact IH. }
  destruct (subprocesses self !! e); [|done].
  eapply trace_source_loop_mono; [|exact H]; exact IH.
Qed.

Lemma fuel_le {R} (f : nat -> option R) n m r :
  (forall n r, f n = Some r -> f (S n) = Some r) -> n <= m -> f n = Some r -> f m = Some r.
Proof. intros HS Hle. induction Hle; auto. Qed.

End Termination.

(** C9: every recursive traversal returns on every graph, cyclic or not.
    Run with the budget the embedding gives it (one call more than there
    are nodes), or with any larger budget, each of
    [_find_first_task_from_element], [_trace_gateway_to_task],
    [_trace_back_to_split_gateway] and [trace_source] yields one and the
    same result; and a call on an element that is already in [visited]
    returns at once without recursing. *)
Theorem traversals_terminate (self : BPMNParser) (element_id : string) :
  (exists r, forall fuel, budget self <= fuel ->
     find_first_task_fuel self fuel element_id ∅ = Some r)
  /\ (exists r, forall fuel, budget self <= fuel ->
     trace_gateway_fuel self fuel element_id ∅ = Some r)
  /\ (exists r, forall fuel, budget self <= fuel ->
     trace_back_fuel self fuel element_id ∅ = Some r)
  /\ (forall cur nums st, exists r, forall fuel, budget self <= fuel ->
     trace_source_fuel self cur nums fuel element_id (fresh_visited st) = Some r)
  /\ (forall fuel visited, element_id ∈ visited ->
     find_first_task_fuel self (S fuel) element_id visited = Some (None, visited)
     /\ trace_gateway_fuel self (S fuel) element_id visited = Some (None, visited)
     /\ trace_back_fuel self (S fuel) element_id visited = Some None)
  /\ (forall cur nums fuel st, element_id ∈ ts_visited st ->
     trace_source_fuel self cur nums (S fuel) element_id st = Some st).
Proof.
  pose proof (unvisited_empty self) as Hb.
  repeat split.
  - destruct (find_first_task_returns self (budget self) element_id ∅ Hb)
      as (r & v & Hr & _).
    exists (r, v). intros fuel Hle.
    apply (fuel_le (fun n => find_first_task_fuel self n element_id ∅) (budget self)); auto.
    intros n r'. apply find_first_task_fuel_S.
  - destruct (trace_gateway_returns self (budget self) element_id ∅ Hb)
      as (r & v & Hr & _).
    exists (r, v). intros fuel Hle.
    apply (fuel_le (fun n => trace_gateway_fuel self n element_id ∅) (budget self)); auto.
    intros n r'. apply trace_gateway_fuel_S.
  - destruct (trace_back_returns self (budget self) element_id ∅ Hb) as (r & Hr).
    exists r. intros fuel Hle.
    apply (fuel_le (fun n => trace_back_fuel self n element_id ∅) (budget self)); auto.
    intros n r'. apply trace_back_fuel_S.
  - intros cur nums st.
    destruct (trace_source_returns self cur nums (budget self) element_id
                (fresh_visited st) Hb) as (r & Hr & _).
    exists r. intros fuel Hle.
    apply (fuel_le (fun n => trace_source_fuel self cur nums n element_id (fresh_visited st))
                   (budget self)); auto.
    intros n r'. apply trace_source_fuel_S.
  - simpl. by rewrite decide_True.
  - simpl. by rewrite decide_True.
  - simpl. by rewrite decide_True.
  - intros cur nums fuel st Hin. simpl. by rewrite decide_True.
Qed.

(** An instance on a graph with a cycle (6 -> G1 -> G2 -> 6): the forward
    search from the merging gateway G2 returns. *)
Lemma traversals_terminate_witness :
  exists r, find_first_task_fuel ex_nested_self_loop (budget ex_nested_self_loop) "G2" ∅
            = Some r.
Proof.
  destruct (traversals_terminate ex_nested_self_loop "G2") as [[r Hr] _].
  exists r. apply Hr. apply Nat.le_refl.
Defined.

(** ** The SLA merge scan *)

Section SlaScan.
Import SlaMerge.

Lemma gateway_cases_lookup rest k :
  k < gateway_cases rest -> exists r, rest !! k = Some r /\ is_gateway r = true.
Proof.
  revert k. induction rest as [|r rest IH]; intros k Hk; simpl in *; [lia|].
  destruct (is_gateway r) eqn:E; [|lia].
  destruct k as [|k]; simpl; [eauto|]. apply IH. lia.
Qed.

Lemma gateway_cases_stop rest r :
  rest !! gateway_cases rest = Some r -> is_gateway r = false.
Proof.
  induction rest as [|r' rest IH]; simpl; [done|].
  destruct (is_gateway r') eqn:E; simpl; [auto|]. by intros [= ->].
Qed.

Lemma gateway_cases_length rest : gateway_cases rest <= length rest.
Proof. induction rest as [|r rest IH]; simpl; [lia|]. destruct (is_gateway r); lia. Qed.

Lemma gateway_run_spec rest merge_end j :
  gateway_run rest merge_end j
  = (match gateway_cases rest with 0 => merge_end | S k => j + k end,
     j + gateway_cases rest).
Proof.
  revert merge_end j. induction rest as [|r rest IH]; intros merge_end j; simpl.
  - f_equal. lia.
  - destruct (is_gateway r); [|f_equal; lia].
    rewrite IH. destruct (gateway_cases rest); f_equal; lia.
Qed.

(** The gateway loop started right after row [j] ends with
    [merge_end = j' - 1]. *)
Lemma while_gateway_spec steps j :
  while_gateway steps j (S j)
  = (j + gateway_cases (drop (S j) steps), S (j + gateway_cases (drop (S j) steps))).
Proof.
  unfold while_gateway. rewrite gateway_run_spec.
  destruct (gateway_cases (drop (S j) steps)); f_equal; lia.
Qed.

Lemma gateway_cases_drop_lookup steps j k r :
  j <= k < j + gateway_cases (drop j steps) -> steps !! k = Some r -> is_gateway r = true.
Proof.
  intros Hk Hr.
  destruct (gateway_cases_lookup (drop j steps) (k - j)) as (r' & Hr' & Hg); [lia|].
  rewrite lookup_drop in Hr'. replace (j + (k - j)) with k in Hr' by lia. congruence.
Qed.

Lemma gateway_cases_drop_stop steps j r :
  steps !! (j + gateway_cases (drop j steps)) = Some r -> is_gateway r = false.
Proof.
  intros Hr. apply (gateway_cases_stop (drop j steps)). by rewrite lookup_drop.
Qed.

Lemma gateway_cases_drop_bound steps j :
  j <= length steps -> j + gateway_cases (drop j steps) <= length steps.
Proof.
  intros Hj. pose proof (gateway_cases_length (drop j steps)) as H.
  rewrite length_drop in H. lia.
Qed.

(** The group loop, entered with [merge_end = j - 1] at a row that is not a
    gateway case *)
Lemma while_group_spec fuel steps group m :
  length steps - S m <= fuel -> S m <= length steps ->
  (forall r, steps !! (S m) = Some r -> is_gateway r = false) ->
  exists e, while_group fuel steps group m (S m) = Some (e, S e)
    /\ m <= e /\ S e <= length steps
    /\ (forall k r, m < k <= e -> steps !! k = Some r ->
          is_gateway r = true \/ sla_group r = group)
    /\ (forall r, steps !! (S e) = Some r -> is_gateway r = false /\ sla_group r <> group).
Proof.
  revert m. induction fuel as [|fuel IH]; intros m Hfuel Hlen Hng.
  - destruct (steps !! S m) as [r|] eqn:E.
    { apply lookup_lt_Some in E. lia. }
    exists m. simpl. rewrite E. split; [done|]. split; [lia|]. split; [lia|]. split.
    + intros k r' Hk. lia.
    + intros r' Hr'. congruence.
  - simpl. destruct (steps !! S m) as [r|] eqn:E.
    + destruct (decide (sla_group r = group)) as [Hg|Hg].
      * rewrite while_gateway_spec.
        pose proof (lookup_lt_Some _ _ _ E) as Hlt.
        pose proof (gateway_cases_drop_bound steps (S (S m)) ltac:(lia)) as Hb.
        destruct (IH (S m + gateway_cases (drop (S (S m)) steps)))
          as (e & He & Hle & Hlen' & Hin & Hout).
        { lia. } { lia. }
        { intros r'. apply (gateway_cases_drop_stop steps (S (S m))). }
        exists e. split; [exact He|]. split; [lia|]. split; [done|]. split; [|done].
        intros k r' Hk Hr'.
        destruct (decide (k = S m)) as [->|]; [right; congruence|].
        destruct (decide (k <= S m + gateway_cases (drop (S (S m)) steps))).
        -- left. eapply (gateway_cases_drop_lookup steps (S (S m))); [|done]. lia.
        -- apply (Hin k); [lia|done].
      * exists m. split; [done|]. split; [lia|]. split; [lia|]. split.
        -- intros k r' Hk. lia.
        -- intros r' Hr'. replace r' with r by congruence. split; [by apply Hng|done].
    + exists m. split; [done|]. split; [lia|]. split; [lia|]. split.
      * intros k r' Hk. lia.
      * intros r' Hr'. congruence.
Qed.

Lemma ordered_weaken from from' ranges :
  from <= from' -> ordered from' ranges -> ordered from ranges.
Proof. destruct ranges as [|[[s e] v] rest]; simpl; [done|]. intros; intuition lia. Qed.

Lemma ordered_lookup from ranges a s e v :
  ordered from ranges -> ranges !! a = Some (s, e, v) ->
  from <= s /\ s <= e /\ ordered (S e) (drop (S a) ranges).
Proof.
  revert from a. induction ranges as [|[[s' e'] v'] rest IH]; intros from a Hord Ha; [done|].
  destruct Hord as (H1 & H2 & H3). destruct a as [|a]; simpl in *.
  - injection Ha as -> -> ->. rewrite drop_0. auto.
  - destruct (IH _ _ H3 Ha) as (? & ? & ?). split; [lia|]. auto.
Qed.

(** Ranges in order are pairwise disjoint. *)
Lemma ordered_disjoint from ranges a b s1 e1 v1 s2 e2 v2 :
  ordered from ranges -> a < b ->
  ranges !! a = Some (s1, e1, v1) -> ranges !! b = Some (s2, e2, v2) -> e1 < s2.
Proof.
  intros Hord Hab Ha Hb.
  destruct (ordered_lookup _ _ _ _ _ _ Hord Ha) as (_ & _ & Hrest).
  assert (drop (S a) ranges !! (b - S a) = Some (s2, e2, v2)) as Hb'.
  { rewrite lookup_drop. replace (S a + (b - S a)) with b by lia. done. }
  destruct (ordered_lookup _ _ _ _ _ _ Hrest Hb') as (? & _). lia.
Qed.

Lemma own_not_grouped r : own_sla r = true -> grouped r = false.
Proof.
  unfold own_sla, grouped. destruct (truthy_opt (sla_group r)); [|done].
  by rewrite andb_false_r.
Qed.

(** The loop invariant of the scan: from row [idx] on it appends ranges in
    order, each of the expected shape, and no task row with an SLA is
    passed over. *)
Lemma scan_spec fuel steps idx acc :
  length steps - idx <= fuel ->
  exists new, scan fuel steps idx acc = Some (acc ++ new)
    /\ ordered idx new
    /\ Forall (range_shape steps) new
    /\ (forall i r, idx <= i -> steps !! i = Some r -> is_gateway r = false ->
          own_sla r = true ->
          (i, i + gateway_cases (drop (S i) steps), sla r) ∈ new)
    /\ (forall i r, idx <= i -> steps !! i = Some r -> is_gateway r = false ->
          grouped r = true ->
          exists s e v h, (s, e, v) ∈ new /\ s <= i <= e
                          /\ steps !! s = Some h /\ sla_group h = sla_group r).
Proof.
  revert idx acc. induction fuel as [|fuel IH]; intros idx acc Hfuel.
  - assert (steps !! idx = None) as E by (apply lookup_ge_None; lia).
    exists []. simpl. rewrite E, app_nil_r. repeat split; try done.
    all: intros i r Hi Hr; apply lookup_lt_Some in Hr; lia.
  - simpl. destruct (steps !! idx) as [step_item|] eqn:E; cycle 1.
    { exists []. rewrite app_nil_r. repeat split; try done.
      all: intros i r Hi Hr; apply lookup_lt_Some in Hr; apply lookup_ge_None in E; lia. }
    pose proof (lookup_lt_Some _ _ _ E) as Hlt.
    rewrite Nat.add_1_r, while_gateway_spec.
    set (gc := gateway_cases (drop (S idx) steps)).
    pose proof (gateway_cases_drop_bound steps (S idx) ltac:(lia)) as Hb. fold gc in Hb.
    assert (forall i r, idx < i -> steps !! i = Some r -> is_gateway r = false ->
              S (idx + gc) <= i) as Hskip.
    { intros i r Hi Hr Hng. destruct (decide (i < S idx + gc)); [|lia].
      rewrite (gateway_cases_drop_lookup steps (S idx) i r) in Hng; [done| |done].
      fold gc. lia. }
    destruct (truthy_opt (sla step_item) && negb (truthy_opt (sla_group step_item)))
      eqn:Eown.
    + (* a task with its own SLA *)
      destruct (IH (S (idx + gc)) (acc ++ [(idx, idx + gc, sla step_item)]))
        as (new & -> & Hord & Hshape & Hown & Hgrp); [lia|].
      exists ((idx, idx + gc, sla step_item) :: new).
      split; [by rewrite <- app_assoc|].
      split; [simpl; repeat split; [lia|lia|done]|].
      split.
      { constructor; [|done]. exists step_item. repeat split; try done; try lia. by left. }
      split.
      * intros i r Hi Hr Hng Ho. destruct (decide (i = idx)) as [->|].
        -- replace r with step_item by congruence. left.
        -- right. apply Hown; try done. apply (Hskip i r); [lia|done..].
      * intros i r Hi Hr Hng Hg. destruct (decide (i = idx)) as [->|].
        -- replace r with step_item in Hg by congruence.
           apply own_not_grouped in Eown. congruence.
        -- destruct (Hgrp i r) as (s & e & v & h & Hin & ?); try done.
           { apply (Hskip i r); [lia|done..]. }
           exists s, e, v, h. split; [by right|done].
    + destruct (truthy_opt (sla_group step_item)) eqn:Egrp.
      * (* a task in an SLA group *)
        destruct (while_group_spec (length steps) steps (sla_group step_item) (idx + gc))
          as (e & -> & Hle & Hlen & Hin & Hout); [lia|lia| |].
        { intros r. apply (gateway_cases_drop_stop steps (S idx)). }
        destruct (IH (S e) (acc ++ [(idx, e, sla step_item)]))
          as (new & -> & Hord & Hshape & Hown & Hgrp); [lia|].
        assert (forall k r, idx < k <= e -> steps !! k = Some r ->
                  is_gateway r = true \/ sla_group r = sla_group step_item) as Hext.
        { intros k r Hk Hr. destruct (decide (k <= idx + gc)).
          - left. apply (gateway_cases_drop_lookup steps (S idx) k r); [fold gc; lia|done].
          - apply (Hin k); [lia|done]. }
        exists ((idx, e, sla step_item) :: new).
        split; [by rewrite <- app_assoc|].
        split; [simpl; repeat split; [lia|lia|done]|].
        split.
        { constructor; [|done]. exists step_item. repeat split; try done; try lia.
          right. split; [done|]. split; done. }
        split.
        -- intros i r Hi Hr Hng Ho. destruct (decide (i = idx)) as [->|].
           ++ replace r with step_item in Ho by congruence.
              unfold own_sla in Ho. congruence.
           ++ right. apply Hown; try done.
              destruct (decide (i <= e)); [|lia]. exfalso.
              destruct (Hext i r) as [?|Hsame]; [lia|done|congruence|].
              apply own_not_grouped in Ho. unfold grouped in Ho. congruence.
        -- intros i r Hi Hr Hng Hg. destruct (decide (i <= e)).
           ++ exists idx, e, (sla step_item), step_item.
              split; [left|]. split; [lia|]. split; [done|].
              destruct (decide (i = idx)) as [->|]; [congruence|].
              destruct (Hext i r) as [?|Hsame]; [lia|done|congruence|done].
           ++ destruct (Hgrp i r) as (s & e' & v & h & Hin' & ?); try done; [lia|].
              exists s, e', v, h. split; [by right|done].
      * (* no SLA: the row and its gateway cases are skipped *)
        destruct (IH (S (idx + gc)) acc) as (new & -> & Hord & Hshape & Hown & Hgrp); [lia|].
        exists new. split; [done|].
        split; [eapply ordered_weaken; [|done]; lia|].
        split; [done|].
        split.
        -- intros i r Hi Hr Hng Ho. destruct (decide (i = idx)) as [->|].
           ++ replace r with step_item in Ho by congruence. unfold own_sla in Ho. congruence.
           ++ apply Hown; try done. apply (Hskip i r); [lia|done..].
        -- intros i r Hi Hr Hng Hg. destruct (decide (i = idx)) as [->|].
           ++ replace r with step_item in Hg by congruence. unfold grouped in Hg. congruence.
           ++ apply Hgrp; try done. apply (Hskip i r); [lia|done..].
Qed.

(** A task row with neither an SLA nor a group is in no range of the
    expected shape. *)
Lemma range_shape_excludes steps s e v i r :
  range_shape steps (s, e, v) -> steps !! i = Some r ->
  is_gateway r = false -> no_sla r = true -> ~ (s <= i <= e).
Proof.
  intros (head & Hhead & _ & Hse & Hkind) Hr Hng Hno Hi.
  unfold no_sla in Hno. apply andb_true_iff in Hno as [Hs Hg].
  apply negb_true_iff in Hs, Hg.
  destruct (decide (i = s)) as [->|Hne].
  - replace head with r in Hkind by congruence.
    unfold own_sla, grouped in Hkind. destruct Hkind as [[? _]|[? _]]; [|congruence].
    rewrite Hs in *. done.
  - destruct Hkind as [[_ He]|[Hgrp [Hext _]]].
    + rewrite (gateway_cases_drop_lookup steps (S s) i r) in Hng; [done| |done]. lia.
    + destruct (Hext i r) as [?|Hsame]; [lia|done|congruence|].
      unfold grouped in Hgrp. congruence.
Qed.

End SlaScan.

(** C6: the SLA merge scan returns, for every list of step records, merge
    ranges that are intervals of row indices within the list, in increasing
    order and pairwise disjoint.  A task row with its own SLA and no group
    starts a range that ends with the last of the gateway-case rows
    immediately after it.  A task row with an SLA group lies in a range
    whose first row has the same group and whose other rows are gateway
    cases or rows of that group, up to the first task row of another
    group.  A task row with neither SLA nor group is in no range. *)
Theorem sla_merge_ranges (steps : list Row) :
  exists ranges, SlaMerge.sla_merges steps = Some ranges
  /\ (forall s e v, (s, e, v) ∈ ranges -> s <= e < length steps)
  /\ (forall a b s1 e1 v1 s2 e2 v2, a < b ->
        ranges !! a = Some (s1, e1, v1) -> ranges !! b = Some (s2, e2, v2) -> e1 < s2)
  /\ (forall i r, steps !! i = Some r -> is_gateway r = false -> own_sla r = true ->
        (i, i + gateway_cases (drop (S i) steps), sla r) ∈ ranges)
  /\ (forall i r, steps !! i = Some r -> is_gateway r = false -> grouped r = true ->
        exists s e v head, (s, e, v) ∈ ranges /\ s <= i <= e
          /\ steps !! s = Some head /\ sla_group head = sla_group r /\ v = sla head
          /\ group_extent steps (sla_group r) s e)
  /\ (forall i r, steps !! i = Some r -> is_gateway r = false -> no_sla r = true ->
        forall s e v, (s, e, v) ∈ ranges -> ~ (s <= i <= e)).
Proof.
  destruct (scan_spec (length steps) steps 0 []) as (ranges & Hscan & Hord & Hshape & Hown & Hgrp);
    [lia|].
  exists ranges. split; [exact Hscan|].
  rewrite Forall_forall in Hshape.
  split; [|split; [|split; [|split]]].
  - intros s e v Hin. destruct (Hshape _ Hin) as (? & _ & _ & ? & _). done.
  - intros a b s1 e1 v1 s2 e2 v2. by apply (ordered_disjoint 0).
  - intros i r Hr Hng Ho. apply Hown; [lia|done..].
  - intros i r Hr Hng Hg.
    destruct (Hgrp i r) as (s & e & v & h & Hin & Hi & Hh & Hsame); [lia|done..|].
    exists s, e, v, h. split; [done|]. split; [done|]. split; [done|]. split; [done|].
    destruct (Hshape _ Hin) as (h' & Hh' & Hv & _ & Hkind).
    replace h' with h in * by congruence. split; [done|].
    destruct Hkind as [[Ho _]|[_ Hext]].
    + apply own_not_grouped in Ho. unfold grouped in *. congruence.
    + by rewrite <- Hsame.
  - intros i r Hr Hng Hno s e v Hin.
    eapply range_shape_excludes; eauto.
Qed.

(** An instance: the ranges of a list with an own SLA, a row without SLA
    and two SLA groups *)
Lemma sla_merge_ranges_witness :
  exists ranges, SlaMerge.sla_merges ex_steps = Some ranges
    /\ ranges = [(0, 2, Some "1 day"); (5, 7, Some "2 days"); (8, 8, Some "3 days")].
Proof.
  destruct (sla_merge_ranges ex_steps) as (ranges & Hranges & _).
  exists ranges. split; [exact Hranges|].
  vm_compute in Hranges. injection Hranges as <-. reflexivity.
Defined.

(** ** The stable sort *)

Section SortedFacts.
Context {A K : Type} (ltb : K -> K -> bool) (key : A -> K).

Lemma insert_sorted_perm x l : insert_sorted ltb key x l ≡ₚ x :: l.
Proof.
  induction l as [|y l IH]; simpl; [done|].
  destruct (ltb (key y) (key x)); [|done].
  rewrite IH. apply Permutation_swap.
Qed.

Lemma sorted_perm l : sorted ltb key l ≡ₚ l.
Proof.
  induction l as [|x l IH]; simpl; [done|].
  rewrite insert_sorted_perm. by f_equiv.
Qed.

Lemma sorted_length l : length (sorted ltb key l) = length l.
Proof. apply Permutation_length, sorted_perm. Qed.

Hypothesis ltb_asym : forall a b, ltb a b = true -> ltb b a = false.
Hypothesis ltb_trans : forall a b c, ltb b a = false -> ltb c b = false -> ltb c a = false.

Lemma insert_sorted_sorted x l :
  StronglySorted (not_after ltb key) l ->
  StronglySorted (not_after ltb key) (insert_sorted ltb key x l).
Proof using ltb_asym ltb_trans.
  induction 1 as [|y l Hs IH Hall]; simpl.
  - repeat constructor.
  - destruct (ltb (key y) (key x)) eqn:E.
    + constructor; [done|].
      rewrite insert_sorted_perm. constructor; [|done]. by apply ltb_asym.
    + constructor; [by constructor|].
      constructor; [done|].
      eapply Forall_impl; [exact Hall|]. intros z Hz. unfold not_after in *. eauto.
Qed.

Lemma sorted_sorted l : StronglySorted (not_after ltb key) (sorted ltb key l).
Proof using ltb_asym ltb_trans.
  induction l as [|x l IH]; simpl; [constructor|]. by apply insert_sorted_sorted.
Qed.

End SortedFacts.

Lemma insert_sorted_map {A B K} (ltb : K -> K -> bool) (key : B -> K) (f : A -> B) x l :
  f <$> insert_sorted ltb (fun a => key (f a)) x l = insert_sorted ltb key (f x) (f <$> l).
Proof.
  induction l as [|y l IH]; [done|].
  cbn [insert_sorted]. rewrite (fmap_cons f y l). cbn [insert_sorted].
  destruct (ltb (key (f y)) (key (f x))); [by rewrite fmap_cons, IH|done].
Qed.

Lemma sorted_map {A B K} (ltb : K -> K -> bool) (key : B -> K) (f : A -> B) l :
  f <$> sorted ltb (fun a => key (f a)) l = sorted ltb key (f <$> l).
Proof.
  induction l as [|x l IH]; [done|].
  change (sorted ltb (fun a => key (f a)) (x :: l))
    with (insert_sorted ltb (fun a => key (f a)) x (sorted ltb (fun a => key (f a)) l)).
  by rewrite insert_sorted_map, IH.
Qed.

Lemma Zltb_asym (a b : Z) : (a <? b)%Z = true -> (b <? a)%Z = false.
Proof. lia. Qed.

Lemma Zltb_trans (a b c : Z) : (b <? a)%Z = false -> (c <? b)%Z = false -> (c <? a)%Z = false.
Proof. lia. Qed.

Lemma tuple_ltb_asym (a b : Z * Z) : tuple_ltb a b = true -> tuple_ltb b a = false.
Proof. unfold tuple_ltb. destruct a, b; simpl. lia. Qed.

Lemma tuple_ltb_trans (a b c : Z * Z) :
  tuple_ltb b a = false -> tuple_ltb c b = false -> tuple_ltb c a = false.
Proof. unfold tuple_ltb. destruct a, b, c; simpl. lia. Qed.

Lemma StronglySorted_weaken {A} (R1 R2 : A -> A -> Prop) l :
  (forall x y, R1 x y -> R2 x y) -> StronglySorted R1 l -> StronglySorted R2 l.
Proof.
  intros HR. induction 1 as [|x l Hs IH Hall]; constructor; [done|].
  eapply Forall_impl; [exact Hall|]. auto.
Qed.

(** [sorted(..., key=int)] is ascending. *)
Lemma sorted_int_ascending {A} (key : A -> Z) l :
  StronglySorted (fun a b => (key a <= key b)%Z) (sorted Z.ltb key l).
Proof.
  eapply StronglySorted_weaken; [|apply (sorted_sorted Z.ltb key Zltb_asym Zltb_trans)].
  unfold not_after. intros a b. lia.
Qed.

(** Without repeated keys, ascending is strictly ascending. *)
Lemma ascending_strict {A} (key : A -> Z) l :
  StronglySorted (fun a b => (key a <= key b)%Z) l -> NoDup (key <$> l) ->
  StronglySorted (fun a b => (key a < key b)%Z) l.
Proof.
  induction 1 as [|x l Hs IH Hall]; intros Hnd; [constructor|].
  rewrite fmap_cons in Hnd. apply NoDup_cons in Hnd as [Hx Hnd].
  constructor; [auto|].
  rewrite Forall_forall in Hall. apply Forall_forall. intros y Hy.
  assert (key x <> key y); [|specialize (Hall y Hy); lia].
  intros Heq. apply Hx. rewrite Heq. by apply list_elem_of_fmap_2.
Qed.

(** ** The shape of the generated rows *)

Section Rows.
Variable self : BPMNParser.

Lemma alter_last_app {A} (f : A -> A) l x : alter_last f (l ++ [x]) = l ++ [f x].
Proof.
  induction l as [|y l IH]; [done|]. simpl. rewrite IH.
  destruct (l ++ [x]) eqn:E; [|done]. by destruct l.
Qed.

Lemma extend_last_app rows r ps : extend_last (rows ++ [r]) ps = rows ++ extend_last [r] ps.
Proof. unfold extend_last. by rewrite alter_last_app. Qed.

(** Every case row carries no SLA and the RACI it was given. *)
Lemma gateway_rows_inv parent_step gateway_id parent_raci row :
  row ∈ _generate_gateway_rows self parent_step gateway_id parent_raci ->
  is_gateway row = true /\ sla row = None /\ sla_group row = None
  /\ raci row = Some (default na_raci parent_raci).
Proof.
  unfold _generate_gateway_rows. destruct (gateways self !! gateway_id); [|by intros ?%elem_of_nil].
  destruct (negb _); [by intros ?%elem_of_nil|].
  intros (i & Hi)%list_elem_of_lookup. rewrite list_lookup_imap in Hi.
  destruct (_ !! i); simplify_eq/=. done.
Qed.

Lemma ordinary_routing_app step_num task_raci targets rows r :
  ordinary_routing self step_num task_raci targets (rows ++ [r])
  = rows ++ ordinary_routing self step_num task_raci targets [r].
Proof.
  unfold ordinary_routing.
  repeat case_match; rewrite ?extend_last_app, <- ?app_assoc; done.
Qed.

Lemma task_iteration_app rows entry :
  task_iteration self rows entry = rows ++ task_iteration self [] entry.
Proof.
  destruct entry as [[task_id task] step_num]. unfold task_iteration.
  destruct (_get_task_sla self task_id) as [sla_value sla_group].
  rewrite app_nil_l.
  destruct (_ =? 0)%nat; [done|].
  destruct (parallel_join_end self task_id _).
  - rewrite extend_last_app. done.
  - by rewrite ordinary_routing_app.
Qed.

Lemma foldl_task_iteration rows l :
  foldl (task_iteration self) rows l = rows ++ flat_map (task_iteration self []) l.
Proof.
  revert rows. induction l as [|e l IH]; intros rows; simpl; [by rewrite app_nil_r|].
  rewrite IH, (task_iteration_app rows e), <- app_assoc. done.
Qed.

(** The rows are the blocks of the tasks, in the order of [sorted_tasks]. *)
Lemma generate_sop_rows_blocks :
  generate_sop_rows self = flat_map (task_iteration self []) (sorted_tasks self).
Proof. unfold generate_sop_rows. by rewrite foldl_task_iteration. Qed.

Lemma ordinary_routing_shape step_num task_raci targets r :
  is_gateway r = false -> raci r = Some task_raci ->
  exists ps gws,
    ordinary_routing self step_num task_raci targets [r] = add_paragraphs ps r :: gws
    /\ Forall (fun g => is_gateway g = true /\ sla g = None /\ sla_group g = None
                        /\ raci g = raci r) gws.
Proof.
  intros Hng Hraci.
  assert (forall ps, exists ps' gws, extend_last [r] ps = add_paragraphs ps' r :: gws
            /\ Forall (fun g => is_gateway g = true /\ sla g = None /\ sla_group g = None
                                /\ raci g = raci r) gws) as Hext.
  { intros ps. exists ps, []. split; [done|constructor]. }
  assert (exists ps' gws, [r] = add_paragraphs ps' r :: gws
            /\ Forall (fun g => is_gateway g = true /\ sla g = None /\ sla_group g = None
                                /\ raci g = raci r) gws) as Hid.
  { exists [], []. split; [|constructor]. destruct r. unfold add_paragraphs. simpl.
    by rewrite app_nil_r. }
  unfold ordinary_routing. repeat case_match; try apply Hext; try apply Hid.
  match goal with
  | |- context [_generate_gateway_rows self ?n ?g ?rc] =>
      exists [], (_generate_gateway_rows self n g rc)
  end.
  split.
  - simpl. f_equal. destruct r. unfold add_paragraphs. simpl. by rewrite app_nil_r.
  - apply Forall_forall. intros row Hrow. apply gateway_rows_inv in Hrow.
    rewrite Hraci. done.
Qed.

(** One iteration on its own: the task row, then its case rows. *)
Lemma task_iteration_shape task_id task step_num :
  exists r gws, task_iteration self [] (task_id, task, step_num) = r :: gws
    /\ ref r = str step_num /\ is_gateway r = false
    /\ (sla r, sla_group r) = _get_task_sla self task_id
    /\ (exists ps, paragraphs r = task_paragraphs self task_id task step_num ++ ps)
    /\ Forall (fun g => is_gateway g = true /\ sla g = None /\ sla_group g = None
                        /\ raci g = raci r) gws.
Proof.
  unfold task_iteration.
  destruct (_get_task_sla self task_id) as [sla_value sla_group] eqn:Esla.
  rewrite app_nil_l.
  set (task_raci := match task_lane_id task with
                    | Some lane_id => default na_raci (lane_raci self !! lane_id)
                    | None => na_raci end).
  set (r := {| ref := str step_num; is_gateway := false; sla := sla_value;
               sla_group := sla_group; raci := Some task_raci;
               paragraphs := task_paragraphs self task_id task step_num |}).
  destruct (_ =? 0)%nat.
  { exists r, []. do 4 (split; [done|]).
    split; [exists []; by rewrite app_nil_r|constructor]. }
  destruct (parallel_join_end self task_id _).
  { eexists (add_paragraphs _ r), []. do 4 (split; [done|]).
    split; [by eexists|constructor]. }
  destruct (ordinary_routing_shape step_num task_raci
              (_get_target_step_numbers self task_id) r) as (ps & gws & -> & Hall); [done..|].
  exists (add_paragraphs ps r), gws. do 4 (split; [done|]).
  split; [by eexists|done].
Qed.

Lemma task_iteration_block entry : block_ok (task_iteration self [] entry).
Proof.
  destruct entry as [[task_id task] step_num].
  destruct (task_iteration_shape task_id task step_num) as (r & gws & -> & _ & ? & _ & _ & ?).
  by exists r, gws.
Qed.

(** In a sequence of blocks every gateway-case row has a parent: the
    nearest task row before it. *)
Lemma blocks_parent {E} (f : E -> list Row) (l : list E) j row :
  (forall e, block_ok (f e)) ->
  flat_map f l !! j = Some row -> is_gateway row = true ->
  sla row = None /\ sla_group row = None
  /\ exists i parent, i < j /\ flat_map f l !! i = Some parent
       /\ is_gateway parent = false
       /\ (forall k r, i < k < j -> flat_map f l !! k = Some r -> is_gateway r = true)
       /\ raci row = raci parent.
Proof.
  intros Hok. revert j. induction l as [|e l IH]; intros j Hj Hg; [done|].
  simpl in *. destruct (Hok e) as (r & gws & Hb & Hr & Hgws). rewrite Hb in *.
  destruct (decide (j < length (r :: gws))) as [Hlt|Hge].
  - rewrite lookup_app_l in Hj by done.
    destruct j as [|j]; simpl in Hj; [congruence|].
    rewrite Forall_forall in Hgws.
    destruct (Hgws row) as (_ & Hs & Hsg & Hraci); [by eapply list_elem_of_lookup_2|].
    split; [done|]. split; [done|].
    exists 0, r. split; [lia|]. split; [done|]. split; [done|]. split; [|done].
    intros k r' Hk Hr'. rewrite lookup_app_l in Hr' by (simpl in *; lia).
    destruct k as [|k]; [lia|]. simpl in Hr'.
    apply (Hgws r'). by eapply list_elem_of_lookup_2.
  - rewrite lookup_app_r in Hj by lia.
    destruct (IH _ Hj Hg) as (Hs & Hsg & i & parent & Hi & Hp & Hpg & Hbetween & Hraci).
    split; [done|]. split; [done|].
    exists (length (r :: gws) + i), parent. split; [lia|].
    split. { rewrite lookup_app_r by lia. rewrite <- Hp. f_equal. lia. }
    split; [done|]. split; [|done].
    intros k r' Hk Hr'. rewrite lookup_app_r in Hr' by lia.
    apply (Hbetween (k - length (r :: gws))); [lia|done].
Qed.

(** The block of a task is a segment of the generated rows. *)
Lemma block_in_rows entry :
  entry ∈ sorted_tasks self ->
  exists before after,
    generate_sop_rows self = before ++ task_iteration self [] entry ++ after.
Proof.
  rewrite generate_sop_rows_blocks.
  intros (l1 & l2 & ->)%list_elem_of_split.
  exists (flat_map (task_iteration self []) l1), (flat_map (task_iteration self []) l2).
  by rewrite flat_map_app.
Qed.

(** The references of the task rows are those of the sorted tasks. *)
Lemma task_row_refs_blocks (l : list (string * Task * digits)) :
  ref <$> filter (fun r => is_gateway r = false) (flat_map (task_iteration self []) l)
  = (fun x => str x.2) <$> l.
Proof.
  induction l as [|[[task_id task] step_num] l IH]; [done|].
  cbn [flat_map]. rewrite filter_app, fmap_app, IH.
  destruct (task_iteration_shape task_id task step_num)
    as (r & gws & -> & Href & Hng & _ & _ & Hgws).
  rewrite filter_cons_True by done.
  assert (filter (fun r => is_gateway r = false) gws = []) as ->.
  { clear -Hgws. induction Hgws as [|g gws [Hg _] _ IH]; [done|].
    rewrite filter_cons_False by congruence. done. }
  rewrite fmap_cons, (fmap_cons _ (task_id, task, step_num)). simpl. by rewrite Href.
Qed.

End Rows.

(** The step numbers of the numbered tasks, in the order of the table *)
Lemma numbered_tasks_numbers (self : BPMNParser) :
  (fun x => x.2) <$> numbered_tasks self = omap (fun kv => task_number kv.2) (tasks self).
Proof.
  unfold numbered_tasks. induction (tasks self) as [|[tid t] l IH]; [done|].
  cbn [flat_map]. rewrite fmap_app, IH. cbn [omap list_omap]. simpl.
  destruct (task_number t); done.
Qed.

(** ** The task rows and their references *)

(** C1, as the code has it: the references of the rows that are not
    gateway cases are the step numbers of the numbered tasks, sorted
    ascending by value with the stable sort: one row per numbered task, none
    left out, in non-decreasing order.  They are strictly increasing, hence
    free of duplicates, when the step numbers are pairwise different as
    numbers. *)
Theorem task_refs_sorted (self : BPMNParser) :
  let sorted_numbers := sorted Z.ltb int (step_numbers self) in
  task_refs (generate_sop_rows self) = str <$> sorted_numbers
  /\ sorted_numbers ≡ₚ step_numbers self
  /\ StronglySorted (fun a b => (int a <= int b)%Z) sorted_numbers
  /\ (NoDup (int <$> step_numbers self) ->
      StronglySorted (fun a b => (int a < int b)%Z) sorted_numbers).
Proof.
  intros sorted_numbers.
  assert (sorted_numbers ≡ₚ step_numbers self) as Hperm by apply sorted_perm.
  split; [|split; [done|split]].
  - unfold task_refs. rewrite generate_sop_rows_blocks, task_row_refs_blocks.
    unfold sorted_numbers, step_numbers. rewrite <- numbered_tasks_numbers.
    unfold sorted_tasks.
    rewrite <- (sorted_map Z.ltb int (fun x : string * Task * digits => x.2)).
    by rewrite <- list_fmap_compose.
  - apply sorted_int_ascending.
  - intros Hnd. apply ascending_strict; [apply sorted_int_ascending|].
    by rewrite Hperm.
Qed.

(** An instance: the XOR scenario, whose step numbers 1 and 3 are
    different *)
Lemma task_refs_sorted_witness :
  NoDup (int <$> step_numbers ex_xor)
  /\ StronglySorted (fun a b => (int a < int b)%Z) (sorted Z.ltb int (step_numbers ex_xor)).
Proof.
  assert (NoDup (int <$> step_numbers ex_xor)) as Hnd.
  { vm_compute. repeat constructor; set_solver. }
  split; [exact Hnd|].
  exact (proj2 (proj2 (proj2 (task_refs_sorted ex_xor))) Hnd).
Defined.

(** C1 as stated fails: two tasks named "1. Receive" and "1. Record" give
    two task rows with the reference "1". *)
Lemma task_refs_repeated :
  task_refs (generate_sop_rows ex_same_number) = ["1"; "1"]
  /\ ~ NoDup (task_refs (generate_sop_rows ex_same_number)).
Proof.
  assert (task_refs (generate_sop_rows ex_same_number) = ["1"; "1"]) as H
    by (vm_compute; reflexivity).
  split; [exact H|]. rewrite H. intros Hnd. apply NoDup_cons in Hnd as [Hnot _].
  apply Hnot. left.
Qed.

(** ** Gateway-case rows *)

(** C10: a gateway-case row has no SLA value and no SLA group, and its
    RACI is the one handed to [_generate_gateway_rows] (all "N/A" when none
    is handed over).  In the generated list every gateway-case row comes
    after a task row, its parent, with only gateway-case rows in between,
    and has the RACI of that parent. *)
Theorem gateway_rows_inherit (self : BPMNParser) :
  (forall parent_step gateway_id parent_raci row,
     row ∈ _generate_gateway_rows self parent_step gateway_id parent_raci ->
     is_gateway row = true /\ sla row = None /\ sla_group row = None
     /\ raci row = Some (default na_raci parent_raci))
  /\ (forall j row,
        generate_sop_rows self !! j = Some row -> is_gateway row = true ->
        sla row = None /\ sla_group row = None
        /\ exists i parent, i < j /\ generate_sop_rows self !! i = Some parent
             /\ is_gateway parent = false
             /\ (forall k r, i < k < j -> generate_sop_rows self !! k = Some r ->
                   is_gateway r = true)
             /\ raci row = raci parent).
Proof.
  split.
  - intros parent_step gateway_id parent_raci row. apply gateway_rows_inv.
  - intros j row. rewrite generate_sop_rows_blocks.
    apply blocks_parent. apply task_iteration_block.
Qed.

(** An instance: row 1 of the XOR scenario is the case "1A" of task 1. *)
Lemma gateway_rows_inherit_witness :
  exists row, generate_sop_rows ex_xor !! 1 = Some row
    /\ is_gateway row = true /\ sla row = None /\ sla_group row = None.
Proof.
  eexists. split; [vm_compute; reflexivity|].
  split; [reflexivity|].
  destruct (proj2 (gateway_rows_inherit ex_xor) 1 _ ltac:(vm_compute; reflexivity)
              ltac:(reflexivity)) as (Hs & Hg & _).
  split; [exact Hs|exact Hg].
Defined.

(** ** The gateway case resolver *)

Section Cases.
Variable self : BPMNParser.

(** A gateway target is a gateway and not a task. *)
Lemma target_of_flow_gateway flow_id gateway_id name :
  (TGateway gateway_id, name) ∈ target_of_flow self flow_id ->
  oget (tasks self) gateway_id = None /\ is_Some (gateways self !! gateway_id).
Proof.
  unfold target_of_flow. intros H.
  repeat case_match; try (by apply elem_of_nil in H);
    apply list_elem_of_singleton in H; simplify_eq; eauto.
Qed.

Lemma targets_gateway element_id gateway_id name :
  (TGateway gateway_id, name) ∈ _get_target_step_numbers self element_id ->
  oget (tasks self) gateway_id = None /\ is_Some (gateways self !! gateway_id).
Proof.
  unfold _get_target_step_numbers. destruct (outgoing_of self element_id); [|by intros ?%elem_of_nil].
  intros H. apply list_elem_of_In, in_flat_map in H as (flow_id & _ & H).
  eapply target_of_flow_gateway. by apply list_elem_of_In.
Qed.

Lemma gateway_targets gateway_id gateway :
  oget (tasks self) gateway_id = None -> gateways self !! gateway_id = Some gateway ->
  _get_target_step_numbers self gateway_id = flat_map (target_of_flow self) (gw_outgoing gateway).
Proof. intros Ht Hg. unfold _get_target_step_numbers, outgoing_of. by rewrite Ht, Hg. Qed.

(** One case per flow that leads directly to a task or an end event *)
Lemma direct_flows_cases parent_step docs flow_ids :
  Forall (direct_flow self) flow_ids ->
  let cases := flat_map (cases_of_target self parent_step docs)
                        (flat_map (target_of_flow self) flow_ids) in
  length cases = length flow_ids /\ Forall (direct_case (int parent_step)) cases.
Proof.
  induction 1 as [|flow_id flow_ids (target & name & Ht & Hkind) _ IH]; [by split|].
  cbn [flat_map]. rewrite Ht. cbn [app flat_map]. destruct IH as [IHlen IHall].
  destruct target; try done; cbn [cases_of_target]; cbn [app length];
    (split; [by rewrite IHlen|constructor; [by split|done]]).
Qed.

Lemma sorted_cases_lettered parent_num (cases : list Case) i j c1 c2 :
  Forall (direct_case parent_num) cases ->
  i < j -> sorted tuple_ltb sort_key cases !! i = Some c1 ->
  sorted tuple_ltb sort_key cases !! j = Some c2 ->
  lettered_before parent_num c1 c2.
Proof.
  intros Hall Hij H1 H2.
  pose proof (sorted_sorted tuple_ltb sort_key tuple_ltb_asym tuple_ltb_trans cases) as Hs.
  assert (Forall (direct_case parent_num) (sorted tuple_ltb sort_key cases)) as Hall'.
  { by rewrite sorted_perm. }
  rewrite Forall_forall in Hall'.
  pose proof (Hall' c1 (list_elem_of_lookup_2 _ _ _ H1)) as Hd1.
  pose proof (Hall' c2 (list_elem_of_lookup_2 _ _ _ H2)) as Hd2.
  assert (not_after tuple_ltb sort_key c1 c2) as Hord.
  { apply lookup_lt_Some in H2 as Hlen.
    rewrite <- (take_drop (S i) (sorted tuple_ltb sort_key cases)) in Hs.
    eapply (StronglySorted_app_1_elem_of _ _ _ c1 c2 Hs).
    - apply (list_elem_of_lookup_2 _ i). rewrite lookup_take_lt by lia. done.
    - apply (list_elem_of_lookup_2 _ (j - S i)). rewrite lookup_drop.
      replace (S i + (j - S i)) with j by lia. done. }
  unfold not_after, lettered_before, direct_case, revert_key, tuple_ltb in *.
  destruct (dest c1), (dest c2); try done;
    destruct Hd1 as [_ Hk1], Hd2 as [_ Hk2]; rewrite Hk1, Hk2 in Hord;
    repeat case_match; simpl in *; lia.
Qed.

End Cases.

(** C2, as the code has it: when the single successor of a task is an XOR
    gateway whose N outgoing flows each lead directly to a numbered task or
    to an end event, the rows that follow the task row are the N case rows
    of the gateway.  Row number i has the reference of the parent step
    followed by the letter number i (A, B, C, ...), the title "Case
    <letter>: <flow label>" and the gateway flag; the cases are lettered in
    the order of their sort keys: ends first, then reverts (target at or
    before the parent) ascending by target, then proceeds descending by
    target.  Each case leads to a task, and is a revert exactly when the
    target is at or before the parent, or to an end event. *)
Theorem gateway_case_rows (self : BPMNParser) (task_id : string) (task : Task)
    (parent_step : digits) (gateway_id name : string) (gateway : Gateway) :
  (task_id, task, parent_step) ∈ sorted_tasks self ->
  _get_target_step_numbers self task_id = [(TGateway gateway_id, name)] ->
  gateways self !! gateway_id = Some gateway ->
  gw_type gateway = XOR ->
  Forall (direct_flow self) (gw_outgoing gateway) ->
  let cases := cases_with_dest self parent_step gateway_id in
  exists task_row rows before after,
    generate_sop_rows self = before ++ task_row :: rows ++ after
    /\ task_iteration self [] (task_id, task, parent_step) = task_row :: rows
    /\ ref task_row = str parent_step /\ is_gateway task_row = false
    /\ rows = _generate_gateway_rows self parent_step gateway_id (raci task_row)
    /\ length rows = length (gw_outgoing gateway)
    /\ length cases = length (gw_outgoing gateway)
    /\ (forall i row, rows !! i = Some row ->
          ref row = str parent_step +:+ chr_A i /\ is_gateway row = true
          /\ exists case, cases !! i = Some case
               /\ case_title row = "Case " +:+ chr_A i +:+ ": " +:+ case_flow_name case)
    /\ Forall (direct_case (int parent_step)) cases
    /\ (forall i j c1 c2, i < j -> cases !! i = Some c1 -> cases !! j = Some c2 ->
          lettered_before (int parent_step) c1 c2).
Proof.
  intros Hsorted Htargets Hgw Hxor Hdirect cases.
  destruct (block_in_rows self _ Hsorted) as (before & after & Hgen).
  destruct (targets_gateway self task_id gateway_id name) as [Hnt _].
  { rewrite Htargets. left. }
  pose proof (gateway_targets self gateway_id gateway Hnt Hgw) as Hgt.
  destruct (direct_flows_cases self parent_step (flow_doc_by_name self gateway)
              (gw_outgoing gateway) Hdirect) as [Hlen Hall].
  assert (length cases = length (gw_outgoing gateway)) as Hcases.
  { unfold cases, cases_with_dest. by rewrite Hgw, sorted_length, Hgt. }
  assert (forall parent_raci,
            _generate_gateway_rows self parent_step gateway_id parent_raci
            = imap (gateway_case_row self parent_step parent_raci) cases) as Hrows.
  { intros parent_raci. unfold _generate_gateway_rows. rewrite Hgw.
    destruct (nonempty _) eqn:E; [done|]. simpl.
    destruct (_get_target_step_numbers self gateway_id) eqn:E'; [|done].
    unfold cases, cases_with_dest. by rewrite Hgw, E'. }
  destruct (_get_task_sla self task_id) as [sla_value sla_group] eqn:Esla.
  assert (exists task_row,
            task_iteration self [] (task_id, task, parent_step)
            = task_row :: _generate_gateway_rows self parent_step gateway_id (raci task_row)
            /\ ref task_row = str parent_step /\ is_gateway task_row = false)
    as (task_row & Hblock & Href & Hng).
  { exists {| ref := str parent_step; is_gateway := false; sla := sla_value;
              sla_group := sla_group;
              raci := Some match task_lane_id task with
                           | Some lane_id => default na_raci (lane_raci self !! lane_id)
                           | None => na_raci
                           end;
              paragraphs := task_paragraphs self task_id task parent_step |}.
    split; [|done].
    unfold task_iteration. rewrite Htargets, Esla.
    cbn [length Nat.eqb app]. unfold parallel_join_end. cbn [find_join_to_end].
    rewrite decide_False by set_solver. rewrite Hgw, Hxor. cbn [is_and_or andb].
    cbn [find_join_to_end]. unfold ordinary_routing. rewrite Hgw, Hxor.
    cbn [is_and_or andb]. rewrite bool_decide_eq_true_2 by done. reflexivity. }
  exists task_row, (_generate_gateway_rows self parent_step gateway_id (raci task_row)),
         before, after.
  split; [by rewrite Hgen, Hblock|].
  split; [done|]. split; [done|]. split; [done|]. split; [done|].
  rewrite Hrows.
  split; [by rewrite length_imap|]. split; [done|]. split; [|split].
  - intros i row Hi. rewrite list_lookup_imap in Hi.
    destruct (cases !! i) as [case|] eqn:Ec; simplify_eq/=.
    split; [done|]. split; [done|]. by exists case.
  - unfold cases, cases_with_dest. rewrite Hgw, Hgt. by rewrite sorted_perm.
  - intros i j c1 c2. unfold cases, cases_with_dest. rewrite Hgw, Hgt.
    by apply sorted_cases_lettered.
Qed.

(** An instance: in the XOR scenario case A of task 1 is the revert
    "Rejected" and case B the proceed "Approved". *)
Lemma gateway_case_rows_witness :
  exists task_row rows,
    task_iteration ex_xor [] ("T1", mk_task "Review" (Some 1) ["f0"; "fr"] ["f1"], Nat.to_uint 1)
    = task_row :: rows
    /\ length rows = 2
    /\ (ref <$> rows) = ["1A"; "1B"]
    /\ (case_title <$> rows) = ["Case A: Rejected"; "Case B: Approved"]
    /\ (routing_sentence <$> rows) = ["Revert to Step 1"; "Proceed to Step 3"].
Proof.
  destruct (gateway_case_rows ex_xor "T1" (mk_task "Review" (Some 1) ["f0"; "fr"] ["f1"])
              (Nat.to_uint 1) "G" "" (mk_gateway XOR ["f1"] ["fa"; "fr"]))
    as (task_row & rows & _ & _ & _ & Hrows & _ & _ & Heq & Hlen & _).
  - vm_compute. left.
  - vm_compute. reflexivity.
  - vm_compute. reflexivity.
  - reflexivity.
  - repeat constructor.
    + exists (TTask (Nat.to_uint 3)), "Approved". split; [vm_compute; reflexivity|exact I].
    + exists (TTask (Nat.to_uint 1)), "Rejected". split; [vm_compute; reflexivity|exact I].
  - exists task_row, rows. split; [exact Hrows|]. split; [exact Hlen|].
    rewrite Heq. split; [|split]; vm_compute; reflexivity.
Defined.

(** C2 as stated fails: the XOR split after task 1 has two outgoing flows,
    one of them to a task without a step number, and one case row is
    produced. *)
Lemma gateway_case_rows_fewer :
  (gw_outgoing <$> gateways ex_unnumbered_branch !! "G") = Some ["fa"; "fb"]
  /\ (ref <$> _generate_gateway_rows ex_unnumbered_branch (Nat.to_uint 1) "G" None) = ["1A"]
  /\ (ref <$> generate_sop_rows ex_unnumbered_branch) = ["1"; "1A"; "2"].
Proof. split; [|split]; vm_compute; reflexivity. Qed.

(** C3 on the code: a flow that the case resolver follows through a nested
    gateway which is not an AND/OR split, to a task with the number of the
    parent step, becomes a case that is not a revert.  So the flow "No" of
    the XOR split after step 6, which leads through the merging gateway
    back to step 6, is rendered as a proceed and lettered after the proceed
    to step 7; drawn without the merging gateway the same loop is the
    revert of case A. *)
Theorem nested_self_loop_is_proceed :
  (forall (self : BPMNParser) parent_step docs gateway_id name gateway target_step target_name,
     gateways self !! gateway_id = Some gateway ->
     is_parallel_split (Some gateway) = false ->
     (TTask target_step, target_name) ∈ _get_target_step_numbers self gateway_id ->
     int target_step = int parent_step ->
     exists case, case ∈ cases_of_target self parent_step docs (TGateway gateway_id, name)
       /\ dest case = DTask target_step /\ is_revert case = false)
  /\ ((fun r => (ref r, case_title r, routing_sentence r))
        <$> _generate_gateway_rows ex_nested_self_loop (Nat.to_uint 6) "G1" None)
     = [("6A", "Case A: Yes", "Proceed to Step 7"); ("6B", "Case B: No", "Proceed to Step 6")]
  /\ ((fun r => (ref r, case_title r, routing_sentence r))
        <$> _generate_gateway_rows ex_direct_self_loop (Nat.to_uint 6) "G1" None)
     = [("6A", "Case A: No", "Revert to Step 6"); ("6B", "Case B: Yes", "Proceed to Step 7")].
Proof.
  split; [|split; vm_compute; reflexivity].
  intros self parent_step docs gateway_id name gateway target_step target_name
         Hgw Hsplit Hin Heq.
  eexists. split.
  - cbn [cases_of_target]. rewrite Hgw, Hsplit.
    apply list_elem_of_In, in_flat_map. exists (TTask target_step, target_name).
    split; [by apply list_elem_of_In|]. left. reflexivity.
  - split; [done|]. simpl. rewrite Heq. apply Z.ltb_irrefl.
Qed.

(** ** Multi-input detection *)

Section MultiInput.
Variable self : BPMNParser.

Lemma foldl_invariant {A B} (P : B -> Prop) (f : B -> A -> B) (l : list A) (b : B) :
  P b -> (forall b a, P b -> P (f b a)) -> P (foldl f b l).
Proof. intros Hb Hf. revert b Hb. induction l as [|a l IH]; simpl; auto. Qed.

Lemma nonempty_true {A} (l : list A) : nonempty l = true <-> l <> [].
Proof. destruct l; simpl; split; congruence. Qed.

Lemma ltb_1_length {A} (l : list A) : (1 <? length l)%nat = true <-> 2 <= length l.
Proof. rewrite Nat.ltb_lt. lia. Qed.

Lemma remove_dups_shorter {A} `{EqDecision A} (l : list A) :
  length (remove_dups l) <= length l.
Proof. induction l as [|x l IH]; simpl; [lia|]. case_decide; simpl; lia. Qed.

(** [_detect_step_trigger_input] gives a text exactly when both sets are
    inhabited. *)
Lemma step_trigger_text task_id :
  is_Some (_detect_step_trigger_input self task_id) <-> step_and_trigger self task_id.
Proof.
  unfold _detect_step_trigger_input, step_and_trigger.
  destruct (step_trigger_sources self task_id) as [[steps triggers]|]; cycle 1.
  { split; [by intros [? ?]|]. by intros (? & ? & ? & _). }
  destruct (nonempty steps && nonempty triggers) eqn:E.
  - apply andb_true_iff in E as [?%nonempty_true ?%nonempty_true].
    split; [|by eauto]. intros _. by exists steps, triggers.
  - apply andb_false_iff in E.
    split; [by intros [? ?]|]. intros (? & ? & [= <- <-] & ?%nonempty_true & ?%nonempty_true).
    destruct E; congruence.
Qed.

(** Whenever a split that is traced is an XOR split, the flag is set. *)
Lemma trace_splits_xor incoming_flows :
  (trace_splits self incoming_flows).2 = false ->
  Forall (fun s => forall x, s = Some x -> x.2 <> XOR) (trace_splits self incoming_flows).1.
Proof.
  unfold trace_splits.
  apply (foldl_invariant
           (fun acc : list (option (string * GatewayType)) * bool =>
              acc.2 = false -> Forall (fun s => forall x, s = Some x -> x.2 <> XOR) acc.1)).
  { intros _. constructor. }
  intros [splits has_xor] flow_id IH. simpl in IH.
  repeat case_match; simpl; try done; intros Hf; simplify_eq;
    (apply Forall_app; split; [auto|]; constructor; [|done]; try done).
  all: intros x [= <-]; done.
Qed.

(** The test "all flows come from XOR splits" cannot succeed once the flag
    is known to be unset. *)
Lemma all_xor_splits_dead incoming_flows :
  (trace_splits self incoming_flows).2 = false ->
  all_xor_splits incoming_flows (trace_splits self incoming_flows).1 = false.
Proof.
  intros Hflag. pose proof (trace_splits_xor incoming_flows Hflag) as Hall.
  unfold all_xor_splits. destruct (trace_splits self incoming_flows).1 as [|s splits].
  { by rewrite andb_false_r. }
  apply andb_false_iff. right.
  apply Forall_cons in Hall as [Hs _].
  destruct s as [x|]; cbn [omap list_omap].
  - simpl. apply andb_false_iff. right. simpl.
    rewrite bool_decide_eq_false_2; [done|]. by apply Hs.
  - apply andb_false_iff. left. apply Nat.eqb_neq.
    assert (forall (l : list (option (string * GatewayType))),
              length (omap (fun s => s) l) <= length l) as Hle.
    { induction l as [|[?|] l IH]; csimpl; lia. }
    specialize (Hle splits). csimpl. lia.
Qed.

(** "Step Input:" texts are not empty. *)
Lemma multi_input_truthy task_id t :
  _detect_multi_input self task_id = Some t -> truthy t = true.
Proof.
  assert (_detect_step_trigger_input self task_id = Some t -> truthy t = true) as Hst.
  { unfold _detect_step_trigger_input. repeat case_match; try done. by intros [= <-]. }
  unfold _detect_multi_input. repeat case_match; try done; by intros [= <-].
Qed.

Lemma alter_last_cons {A} (f : A -> A) x y l :
  alter_last f (x :: y :: l) = x :: alter_last f (y :: l).
Proof. done. Qed.

(** The first paragraph of a task row is its title. *)
Lemma task_paragraphs_title task_id task step_num :
  exists rest,
    task_paragraphs self task_id task step_num
    = para (match _detect_multi_input self task_id with
            | Some t => task_label task +:+ " " +:+ t
            | None => task_label task
            end) 12 true :: rest.
Proof.
  unfold task_paragraphs.
  set (title := if truthy_opt (_detect_multi_input self task_id) then _ else _).
  assert (title = match _detect_multi_input self task_id with
                  | Some t => task_label task +:+ " " +:+ t
                  | None => task_label task
                  end) as <-.
  { unfold title. destruct (_detect_multi_input self task_id) as [t|] eqn:E; [|done].
    simpl. by rewrite (multi_input_truthy _ _ E). }
  set (desc := desc_text_of _ _ _ _).
  assert (exists rest, add_extra_doc_lines (tail (doc_lines_of (task_documentation task)))
                         [para title 12 true; blank; para desc 11 false]
                       = para title 12 true :: rest) as [rest ->].
  { unfold add_extra_doc_lines. destruct (nonempty _); [|by eexists].
    cbn [app]. rewrite alter_last_cons. by eexists. }
  repeat case_match; by eexists.
Qed.

(** The task row of a task among the generated rows *)
Lemma task_row_in_rows task_id task step_num :
  (task_id, task, step_num) ∈ sorted_tasks self ->
  exists row before after,
    generate_sop_rows self = before ++ row :: after
    /\ ref row = str step_num /\ is_gateway row = false
    /\ exists ps, paragraphs row = task_paragraphs self task_id task step_num ++ ps.
Proof.
  intros Hin. destruct (block_in_rows self _ Hin) as (before & after & Hgen).
  destruct (task_iteration_shape self task_id task step_num)
    as (row & gws & Hblock & Href & Hng & _ & Hps & _).
  exists row, before, (gws ++ after). split; [by rewrite Hgen, Hblock|done].
Qed.

End MultiInput.

(** C4, as the code has it: the title of the row of a task is its label,
    followed by the "Step Input:" text when there is one, and there is one
    exactly in
    three cases: an AND/OR gateway is a direct predecessor and at least two
    steps are traced from these gateways (counted with repetition); or no
    AND/OR gateway is a direct predecessor, no XOR gateway is involved, and
    at least two steps are found at the direct sources; or the backward
    trace finds both a forward step and a start-event trigger.  When an XOR
    gateway is involved and no AND/OR gateway is a direct predecessor, the
    text appears exactly in the step-and-trigger case.  Two different steps
    traced from AND/OR joins always give the text. *)
Theorem multi_input_iff (self : BPMNParser) (task_id : string) (task : Task)
    (step_num : digits) :
  oget (tasks self) task_id = Some task ->
  (task_id, task, step_num) ∈ sorted_tasks self ->
  (exists row before after,
     generate_sop_rows self = before ++ row :: after
     /\ ref row = str step_num /\ is_gateway row = false
     /\ case_title row = match _detect_multi_input self task_id with
                         | Some t => task_label task +:+ " " +:+ t
                         | None => task_label task
                         end)
  /\ (is_Some (_detect_multi_input self task_id)
      <-> joins_two_traces self task_id \/ direct_two_steps self task_id
          \/ step_and_trigger self task_id)
  /\ (join_steps self task = None -> xor_involved self task = true ->
      (is_Some (_detect_multi_input self task_id) <-> step_and_trigger self task_id))
  /\ (joins_two_steps self task_id -> is_Some (_detect_multi_input self task_id)).
Proof.
  intros Htask Hsorted. split.
  { destruct (task_row_in_rows self task_id task step_num Hsorted)
      as (row & before & after & Hgen & Href & Hng & ps & Hps).
    exists row, before, after. do 3 (split; [done|]).
    unfold case_title. rewrite Hps.
    by destruct (task_paragraphs_title self task_id task step_num) as [rest ->]. }
  assert (forall P : Task -> Prop,
            (exists task', oget (tasks self) task_id = Some task' /\ P task') <-> P task)
    as Hex.
  { intros P. split; [intros (task' & Ht & HP); congruence|eauto]. }
  assert (joins_two_traces self task_id
          <-> exists steps, join_steps self task = Some steps /\ 2 <= length steps) as Ha.
  { unfold joins_two_traces. split.
    - intros (task' & steps & Ht & ? & ?). replace task' with task in * by congruence. eauto.
    - intros (steps & ? & ?). eauto. }
  assert (direct_two_steps self task_id
          <-> join_steps self task = None /\ xor_involved self task = false
              /\ 2 <= length (direct_source_steps self (task_incoming task)).1) as Hc.
  { unfold direct_two_steps. split.
    - intros (task' & Ht & ?). replace task' with task in * by congruence. done.
    - eauto. }
  pose proof (step_trigger_text self task_id) as Hb.
  assert (step_and_trigger self task_id -> task_incoming task <> []) as Hinc.
  { intros (steps & triggers & Hs & _). unfold step_trigger_sources in Hs.
    rewrite Htask in Hs. by destruct (task_incoming task). }
  assert (is_Some (_detect_multi_input self task_id)
          <-> joins_two_traces self task_id \/ direct_two_steps self task_id
              \/ step_and_trigger self task_id) as Hiff.
  { rewrite Ha, Hc. unfold _detect_multi_input, join_steps, xor_involved. rewrite Htask.
    destruct (task_incoming task) as [|f0 fl] eqn:Einc.
    { simpl. split; [by intros [? ?]|]. intros [(? & ? & ?)|[(_ & _ & ?)|Hst]].
      - done.
      - simpl in *. lia.
      - by apply Hinc in Hst. }
    cbn [length Nat.eqb].
    destruct (nonempty (parallel_or_inclusive_sources self (f0 :: fl))) eqn:Esrc.
    - destruct (join_source_steps self _) as [source_steps join_type] eqn:Ejs. cbn [fst].
      destruct (1 <? length source_steps)%nat eqn:E1.
      + apply ltb_1_length in E1. split; [|by eauto]. intros _. left. eauto.
      + rewrite Hb. split; [tauto|]. intros [(steps & [= <-] & H2)|[[? _]|?]]; try done.
        apply ltb_1_length in H2. congruence.
    - destruct (trace_splits self (f0 :: fl)) as [split_gateways has_xor] eqn:Ets.
      cbn [snd]. destruct has_xor.
      + rewrite Hb. split; [tauto|]. intros [(? & ? & _)|[(_ & ? & _)|?]]; done.
      + pose proof (all_xor_splits_dead self (f0 :: fl)) as Hdead.
        rewrite Ets in Hdead. simpl in Hdead. rewrite Hdead by done.
        destruct (direct_source_steps self (f0 :: fl)) as [source_steps join_type] eqn:Eds.
        cbn [fst].
        destruct (1 <? length source_steps)%nat eqn:E1.
        * apply ltb_1_length in E1. split; [|by eauto]. intros _. right. left. done.
        * rewrite Hb. split; [tauto|]. intros [(? & ? & _)|[(_ & _ & H2)|?]]; try done.
          apply ltb_1_length in H2. congruence. }
  split; [exact Hiff|]. split.
  - intros Hj Hx. rewrite Hiff, Ha, Hc. rewrite Hj, Hx. split; [|tauto].
    intros [(? & ? & _)|[(_ & ? & _)|?]]; done.
  - intros (task' & steps & Ht & Hj & H2). apply Hiff. left.
    exists task', steps. split; [done|]. split; [done|].
    pose proof (remove_dups_shorter steps). lia.
Qed.

(** An instance: task 4 behind an AND join of tasks 2 and 3 *)
Lemma multi_input_iff_witness :
  (exists row before after,
     generate_sop_rows ex_join = before ++ row :: after
     /\ ref row = "4" /\ case_title row = "Merge Step Input: Step 2 and Step 3")
  /\ joins_two_steps ex_join "T4".
Proof.
  destruct (multi_input_iff ex_join "T4" (mk_task "Merge" (Some 4) ["f6"] ["f7"])
              (Nat.to_uint 4)) as ((row & before & after & Hgen & Href & _ & Htitle) & _).
  - vm_compute. reflexivity.
  - vm_compute. do 3 right. left.
  - split.
    + exists row, before, after. split; [exact Hgen|]. split; [exact Href|].
      rewrite Htitle. vm_compute. reflexivity.
    + eexists _, _. split; [vm_compute; reflexivity|].
      split; [vm_compute; reflexivity|]. vm_compute. lia.
Defined.

(** C4 as stated fails: task 3 has the two tasks 1 and 2 as direct
    predecessors, without any gateway and without a trigger in reach, and
    its title carries "Step Input: Step 1 and Step 2". *)
Lemma multi_input_without_join :
  _detect_multi_input ex_two_predecessors "T3" = Some "Step Input: Step 1 and Step 2"
  /\ ~ joins_two_steps ex_two_predecessors "T3"
  /\ ~ step_and_trigger ex_two_predecessors "T3".
Proof.
  split; [vm_compute; reflexivity|]. split.
  - intros (task & steps & Ht & Hj & _). vm_compute in Ht. injection Ht as <-.
    vm_compute in Hj. discriminate.
  - intros (steps & triggers & Hs & _ & Ht). vm_compute in Hs.
    injection Hs as <- <-. done.
Qed.

(** ** Failures in [parse_bpmn_to_sop] *)

(** C5, as the code has it: when the constructor fails on the XML, or the
    synthesis fails afterwards, [parse_bpmn_to_sop] raises nothing.  It
    returns an ordinary context whose ['steps'] are one row, not a gateway
    case, with the reference "ERROR" and the single paragraph "Parse error:
    <message>"; no row of the aborted generation is in it. *)
Theorem parse_failure_is_caught (new_BPMNParser : list Byte.byte -> result BPMNParser)
    (generate : BPMNParser -> result (list Row)) (xml_content : list Byte.byte)
    (metadata : gmap string Value) (e : string) :
  new_BPMNParser xml_content = Raise e
  \/ (exists parser, new_BPMNParser xml_content = Ok parser /\ generate parser = Raise e) ->
  parse_bpmn_to_sop_with new_BPMNParser generate xml_content metadata
  = Ok (error_context metadata e)
  /\ error_context metadata e !! "steps" = Some (VSteps [error_row e])
  /\ ref (error_row e) = "ERROR" /\ is_gateway (error_row e) = false
  /\ (text <$> paragraphs (error_row e)) = ["Parse error: " +:+ e].
Proof.
  intros H. split; [|split; [reflexivity|done]].
  unfold parse_bpmn_to_sop_with.
  destruct H as [->|(parser & -> & Hgen)]; simpl; [done|]. by rewrite Hgen.
Qed.

(** An instance: a constructor that rejects its input *)
Lemma parse_failure_is_caught_witness :
  exists ctx, parse_bpmn_to_sop ex_reject [] ∅ = Ok ctx
    /\ ctx !! "steps"
       = Some (VSteps [error_row "Start tag expected, '<' not found, line 1, column 1"]).
Proof.
  destruct (parse_failure_is_caught ex_reject (fun parser => Ok (generate_sop_rows parser))
              [] ∅ "Start tag expected, '<' not found, line 1, column 1")
    as (Hctx & Hsteps & _).
  - left. reflexivity.
  - eexists. split; [exact Hctx|exact Hsteps].
Defined.

(** C5 as stated fails: a failure of the constructor is not propagated to
    the caller. *)
Lemma parse_failure_not_propagated :
  ~ (forall (new_BPMNParser : list Byte.byte -> result BPMNParser) xml_content metadata e,
       new_BPMNParser xml_content = Raise e ->
       exists e', parse_bpmn_to_sop new_BPMNParser xml_content metadata = Raise e').
Proof.
  intros H. destruct (H ex_reject [] ∅ _ eq_refl) as [e' He']. discriminate He'.
Qed.

(** ** Tasks without a step number *)

Section Unnumbered.
Variable self : BPMNParser.

Lemma oget_renumber number id :
  oget (tasks (renumber number self)) id
  = (fun t => with_number (number id t) t) <$> oget (tasks self) id.
Proof.
  unfold renumber. simpl. induction (tasks self) as [|[k t] l IH]; [done|].
  rewrite fmap_cons. simpl. destruct (decide (k = id)) as [->|]; [done|]. exact IH.
Qed.

Lemma budget_renumber number : budget (renumber number self) = budget self.
Proof.
  unfold budget, nodes, renumber. simpl. do 3 f_equal.
  rewrite <- list_fmap_compose. done.
Qed.

(** The backward trace to a split gateway does not look at step numbers. *)
Lemma trace_back_fuel_renumber number n e v :
  trace_back_fuel (renumber number self) n e v = trace_back_fuel self n e v.
Proof.
  revert e v. induction n as [|n IH]; intros e v; [done|].
  cbn [trace_back_fuel].
  change (gateways (renumber number self)) with (gateways self).
  change (flows (renumber number self)) with (flows self).
  destruct (decide (e ∈ v)); [done|].
  destruct (gateways self !! e) as [gw|].
  - destruct (_ && _); [done|].
    destruct (gw_incoming gw) as [|flow_id [|? ?]]; [done| |done].
    destruct (flows self !! flow_id); [|done]. apply IH.
  - rewrite oget_renumber. destruct (oget (tasks self) e) as [t|]; [|done].
    cbn [fmap option_fmap option_map with_number task_incoming].
    destruct (task_incoming t) as [|flow_id [|? ?]]; [done| |done].
    destruct (flows self !! flow_id); [|done]. apply IH.
Qed.

Lemma sorted_tasks_numbered task_id task step_num :
  (task_id, task, step_num) ∈ sorted_tasks self -> task_number task = Some step_num.
Proof.
  unfold sorted_tasks. rewrite sorted_perm. unfold numbered_tasks.
  intros H. apply list_elem_of_In, in_flat_map in H as ([tid t] & _ & H).
  destruct (task_number t) eqn:E; [|done]. destruct H as [[= <- <- <-]|[]]. done.
Qed.

End Unnumbered.

(** C7, as the code has it: a task without a step number is not among the
    tasks that rows are generated for, and there are as many task rows as
    numbered tasks.  The backward trace to a split gateway gives the same
    result whatever the step numbers of the tasks are, so it passes through
    an unnumbered task as through a numbered one.  Forward target
    resolution stops at it: a flow into an unnumbered task yields no
    target, and the forward search for the first task goes on with the next
    flow without entering the task. *)
Theorem unnumbered_task_participation (self : BPMNParser) (task_id : string) (task : Task) :
  oget (tasks self) task_id = Some task -> task_number task = None ->
  (forall step_num, (task_id, task, step_num) ∉ sorted_tasks self)
  /\ length (task_refs (generate_sop_rows self)) = length (numbered_tasks self)
  /\ (forall number element_id,
        _trace_back_to_split_gateway (renumber number self) element_id
        = _trace_back_to_split_gateway self element_id)
  /\ (forall flow_id flow, flows self !! flow_id = Some flow -> flow_target flow = task_id ->
        target_of_flow self flow_id = []
        /\ (in_gateways self task_id = false -> in_events self task_id = false ->
            forall rec rest visited,
              find_first_loop self rec (flow_id :: rest) visited
              = find_first_loop self rec rest visited)).
Proof.
  intros Htask Hnum. split; [|split; [|split]].
  - intros step_num Hin. apply sorted_tasks_numbered in Hin. congruence.
  - unfold task_refs. rewrite generate_sop_rows_blocks, task_row_refs_blocks.
    rewrite length_fmap. apply sorted_length.
  - intros number element_id. unfold _trace_back_to_split_gateway.
    by rewrite budget_renumber, trace_back_fuel_renumber.
  - intros flow_id flow Hflow Htarget. split.
    + unfold target_of_flow. by rewrite Hflow, Htarget, Htask, Hnum.
    + intros Hg He rec rest visited. simpl. rewrite Hflow, Htarget.
      unfold numbered_task. by rewrite Htask, Hnum, Hg, He.
Qed.

(** An instance: the task "Notify" between steps 1 and 2 *)
Lemma unnumbered_task_participation_witness :
  target_of_flow ex_unnumbered_between "f2" = []
  /\ length (task_refs (generate_sop_rows ex_unnumbered_between)) = 2.
Proof.
  destruct (unnumbered_task_participation ex_unnumbered_between "U"
              (mk_task "Notify" None ["f2"] ["f3"]))
    as (_ & Hlen & _ & Hforward).
  - vm_compute. reflexivity.
  - reflexivity.
  - split.
    + apply (Hforward "f2" (mk_flow "T1" "U" "")); [vm_compute|]; reflexivity.
    + rewrite Hlen. vm_compute. reflexivity.
Defined.

(** C7 as stated fails: forward target resolution does not pass through
    the unnumbered tasks.  Step 1 leads to "Notify", which leads to step 2,
    yet step 1 has no target, and the start event, which leads to "Intake"
    and from there to step 1, reaches no first task. *)
Lemma unnumbered_task_is_dead_end :
  _get_target_step_numbers ex_unnumbered_between "T1" = []
  /\ _get_target_step_numbers ex_unnumbered_between "U" = [(TTask (Nat.to_uint 2), "")]
  /\ _find_first_task_from_element ex_unnumbered_between "S" = None
  /\ ((fun r => (ref r, text <$> paragraphs r)) <$> generate_sop_rows ex_unnumbered_between)
     = [("1", ["Review"; ""; "The Ops shall review."]);
        ("2", ["Close"; ""; "The Ops shall close."; ""; "Process Ends (Done)"])].
Proof. repeat split; vm_compute; reflexivity. Qed.

(** ** Parallel branches that end the process *)

Section JoinToEnd.
Variable self : BPMNParser.

(** What the loop over the targets has found when it stops *)
Lemma find_join_to_end_found targets seen gw_j end_name :
  find_join_to_end self targets seen = Some (gw_j, end_name) ->
  exists gateway_id name ends,
    (TGateway gateway_id, name) ∈ targets
    /\ gateways self !! gateway_id = Some gw_j
    /\ is_and_or (gw_type gw_j) = true /\ 1 < length (gw_incoming gw_j)
    /\ end_targets_of (_get_target_step_numbers self gateway_id) = end_name :: ends
    /\ task_targets_of (_get_target_step_numbers self gateway_id) = [].
Proof.
  revert seen. induction targets as [|[t name] targets IH]; intros seen; [done|].
  assert (forall seen', find_join_to_end self targets seen' = Some (gw_j, end_name) ->
            exists gateway_id name0 ends,
              (TGateway gateway_id, name0) ∈ (t, name) :: targets
              /\ gateways self !! gateway_id = Some gw_j
              /\ is_and_or (gw_type gw_j) = true /\ 1 < length (gw_incoming gw_j)
              /\ end_targets_of (_get_target_step_numbers self gateway_id) = end_name :: ends
              /\ task_targets_of (_get_target_step_numbers self gateway_id) = []) as Hrest.
  { intros seen' H. destruct (IH _ H) as (g & n & ends & Hin & ?).
    exists g, n, ends. split; [by right|done]. }
  destruct t; simpl; try apply Hrest.
  destruct (decide (id ∈ seen)); [apply Hrest|].
  destruct (gateways self !! id) as [gw|] eqn:Egw; [|apply Hrest].
  destruct (is_and_or (gw_type gw) && (1 <? length (gw_incoming gw))%nat) eqn:Ejoin;
    [|apply Hrest].
  destruct (end_targets_of _) as [|end_name' ends] eqn:Eend; [apply Hrest|].
  destruct (task_targets_of _) eqn:Etask; [|apply Hrest].
  intros [= <- <-]. apply andb_true_iff in Ejoin as [? ?%Nat.ltb_lt].
  exists id, name, ends. split; [left|done].
Qed.

End JoinToEnd.

(** C8, as the code has it: let the first AND/OR join among the gateway
    targets of a task that leads to an end event and to no task be [gw_j].
    When another numbered step feeds that join, directly or traced back
    through gateways, the task's own row is the only row of the task and
    ends with the sentence "Wait until step <others> completed then Process
    Ends (<name>)", and no other routing text is added.  When no other step
    is found, no wait sentence is written and the ordinary routing
    applies. *)
Theorem wait_for_parallel_end (self : BPMNParser) (task_id : string) (task : Task)
    (step_num : digits) (gw_j : Gateway) (end_name : string) :
  (task_id, task, step_num) ∈ sorted_tasks self ->
  find_join_to_end self (_get_target_step_numbers self task_id) ∅ = Some (gw_j, end_name) ->
  (exists gateway_id name ends,
     (TGateway gateway_id, name) ∈ _get_target_step_numbers self task_id
     /\ gateways self !! gateway_id = Some gw_j
     /\ is_and_or (gw_type gw_j) = true /\ 1 < length (gw_incoming gw_j)
     /\ end_targets_of (_get_target_step_numbers self gateway_id) = end_name :: ends
     /\ task_targets_of (_get_target_step_numbers self gateway_id) = [])
  /\ (other_steps_of self task_id gw_j <> [] ->
      exists row before after,
        generate_sop_rows self = before ++ row :: after
        /\ task_iteration self [] (task_id, task, step_num) = [row]
        /\ ref row = str step_num /\ is_gateway row = false
        /\ paragraphs row
           = task_paragraphs self task_id task step_num
             ++ [blank;
                 para (wait_text_of (other_steps_of self task_id gw_j) end_name) 12 true])
  /\ (other_steps_of self task_id gw_j = [] ->
      exists row, task_iteration self [] (task_id, task, step_num)
                  = ordinary_routing self step_num (default na_raci (raci row))
                      (_get_target_step_numbers self task_id) [row]
        /\ ref row = str step_num /\ is_gateway row = false
        /\ paragraphs row = task_paragraphs self task_id task step_num).
Proof.
  intros Hsorted Hfound. split; [by eapply find_join_to_end_found|].
  destruct (block_in_rows self _ Hsorted) as (before & after & Hgen).
  destruct (_get_task_sla self task_id) as [sla_value sla_group] eqn:Esla.
  destruct (_get_target_step_numbers self task_id) as [|target targets] eqn:Et; [done|].
  set (task_raci := match task_lane_id task with
                    | Some lane_id => default na_raci (lane_raci self !! lane_id)
                    | None => na_raci
                    end).
  set (row := {| ref := str step_num; is_gateway := false; sla := sla_value;
                 sla_group := sla_group; raci := Some task_raci;
                 paragraphs := task_paragraphs self task_id task step_num |}).
  split; intros Hothers.
  - assert (task_iteration self [] (task_id, task, step_num)
            = [add_paragraphs
                 [blank;
                  para (wait_text_of (other_steps_of self task_id gw_j) end_name) 12 true]
                 row]) as Hblock.
    { unfold task_iteration. rewrite Esla, Et.
      cbn [length Nat.eqb]. unfold parallel_join_end. rewrite Hfound.
      apply nonempty_true in Hothers. rewrite Hothers. reflexivity. }
    eexists _, before, after. split; [by rewrite Hgen, Hblock|]. split; [exact Hblock|done].
  - exists row. split; [|done].
    unfold task_iteration. rewrite Esla, Et.
    cbn [length Nat.eqb]. unfold parallel_join_end. rewrite Hfound, Hothers.
    reflexivity.
Qed.

(** An instance: task 2 of the parallel scenario *)
Lemma wait_for_parallel_end_witness :
  exists row,
    task_iteration ex_parallel [] ("T2", mk_task "Pack" (Some 2) ["f2"] ["f4"], Nat.to_uint 2)
    = [row]
    /\ routing_sentence row = "Wait until step 3 completed then Process Ends (Done)".
Proof.
  destruct (wait_for_parallel_end ex_parallel "T2" (mk_task "Pack" (Some 2) ["f2"] ["f4"])
              (Nat.to_uint 2) (mk_gateway AND ["f4"; "f5"] ["f6"]) "Done")
    as (_ & Hwait & _).
  - vm_compute. right. left.
  - vm_compute. reflexivity.
  - destruct Hwait as (row & _ & _ & _ & Hrow & _ & _ & Hps).
    + vm_compute. discriminate.
    + exists row. split; [exact Hrow|].
      unfold routing_sentence. rewrite Hps. vm_compute. reflexivity.
Defined.

(** C8 as stated fails: task 2 feeds an AND join that leads directly to
    the end event "Done"; the other branch is a task without a step number,
    and the row of task 2 gets no wait sentence and no routing text at
    all. *)
Lemma no_wait_without_other_step :
  _get_target_step_numbers ex_join_unnumbered "T2" = [(TGateway "G2", "")]
  /\ (gateways ex_join_unnumbered !! "G2") = Some (mk_gateway AND ["f4"; "f5"] ["f6"])
  /\ _get_target_step_numbers ex_join_unnumbered "G2" = [(TEnd "Done", "")]
  /\ ((fun r => (ref r, text <$> paragraphs r)) <$> generate_sop_rows ex_join_unnumbered)
     = [("1", ["Prepare"; ""; "The Ops shall prepare."]);
        ("2", ["Pack"; ""; "The Ops shall pack."])].
Proof. repeat split; vm_compute; reflexivity. Qed.

(** ** What the traversals return *)

Section TraversalResults.
Variable self : BPMNParser.

Lemma explored_mono v v' x : v ⊆ v' -> explored self v x -> explored self v' x.
Proof.
  intros Hsub Hx y Hy. destruct (Hx y Hy) as [Hn Hin]. split; [done|].
  intros H. apply Hsub. auto.
Qed.

Lemma numbered_task_truthy id n : numbered_task self id = Some n -> truthy_digits n = true.
Proof.
  unfold numbered_task. destruct (oget (tasks self) id) as [t|]; [|done].
  destruct (task_number t) as [m|]; simpl; [|done].
  destruct (truthy_digits m) eqn:E; [|done]. by intros [= <-].
Qed.

Lemma find_first_loop_result rec e fl v res :
  (forall x w r, rec x w = Some r -> forward_result self x w r) ->
  (forall flow_id, flow_id ∈ fl -> flow_id ∈ forward_flows self e) ->
  find_first_loop self rec fl v = Some res ->
  v ⊆ res.2
  /\ match res.1 with
     | Some n =>
         truthy_digits n = true
         /\ exists t, leads_to self e t /\ numbered_task self t = Some n
     | None =>
         (forall x, x ∈ res.2 -> x ∉ v -> explored self res.2 x)
         /\ (forall flow_id flow, flow_id ∈ fl -> flows self !! flow_id = Some flow ->
               numbered_task self (flow_target flow) = None
               /\ (in_gateways self (flow_target flow) || in_events self (flow_target flow)
                   = true -> flow_target flow ∈ res.2))
     end.
Proof.
  intros Hrec. revert v.
  induction fl as [|flow_id rest IH]; intros v Hfl H; simpl in H.
  - injection H as <-. simpl. split; [done|]. split; [done|].
    intros ? ? ?%elem_of_nil. done.
  - assert (forall f, f ∈ rest -> f ∈ forward_flows self e) as Hrest.
    { intros f Hf. apply Hfl. by right. }
    destruct (flows self !! flow_id) as [flow|] eqn:Eflow; cycle 1.
    { destruct (IH v Hrest H) as [Hsub Hres]. split; [done|].
      destruct res.1; [done|]. destruct Hres as [Hnew Hflows]. split; [done|].
      intros f fl' [->|Hf]%elem_of_cons Hfl'; [congruence|]. by apply (Hflows f). }
    assert (flows_to self e (flow_target flow)) as Hstep.
    { exists flow_id, flow. split; [apply Hfl; left|done]. }
    destruct (numbered_task self (flow_target flow)) as [step_num|] eqn:Enum.
    { injection H as <-. simpl. split; [done|].
      split; [by eapply numbered_task_truthy|].
      exists (flow_target flow). split; [by constructor|done]. }
    destruct (in_gateways self (flow_target flow) || in_events self (flow_target flow))
      eqn:Ekind; cycle 1.
    { destruct (IH v Hrest H) as [Hsub Hres]. split; [done|].
      destruct res.1; [done|]. destruct Hres as [Hnew Hflows]. split; [done|].
      intros f fl' [->|Hf]%elem_of_cons Hfl'; [|by apply (Hflows f)].
      replace fl' with flow by congruence. split; [done|]. congruence. }
    destruct (rec (flow_target flow) v) as [[r v1]|] eqn:Erec; [|done].
    destruct (Hrec _ _ _ Erec) as [Hsub1 Hres1]. simpl in Hsub1, Hres1.
    destruct (truthy_num r) eqn:Etr.
    { injection H as <-. simpl. split; [done|].
      destruct r as [n|]; [|done]. destruct Hres1 as (Hn & t & Hpath & Ht).
      split; [done|]. exists t. split; [|done].
      by apply (leads_through self e (flow_target flow) t). }
    destruct r as [n|].
    { destruct Hres1 as [Hn _]. simpl in Etr. congruence. }
    destruct Hres1 as [Htarget Hnew1].
    destruct (IH v1 Hrest H) as [Hsub Hres]. split; [set_solver|].
    destruct res.1; [done|]. destruct Hres as [Hnew Hflows]. split.
    + intros x Hx Hxv. destruct (decide (x ∈ v1)) as [Hin|Hout].
      * eapply explored_mono; [exact Hsub|]. by apply Hnew1.
      * by apply Hnew.
    + intros f fl' [->|Hf]%elem_of_cons Hfl'; [|by apply (Hflows f)].
      replace fl' with flow by congruence. split; [done|]. intros _. by apply Hsub.
Qed.

Lemma find_first_task_result n e v res :
  find_first_task_fuel self n e v = Some res -> forward_result self e v res.
Proof.
  revert e v res. induction n as [|n IH]; intros e v res H; [done|].
  simpl in H. destruct (decide (e ∈ v)) as [Hin|Hout].
  { injection H as <-. split; [done|]. simpl. split; [done|]. intros x Hx Hxv. done. }
  destruct (find_first_loop_result (find_first_task_fuel self n) e _ _ _ IH
              (fun f Hf => Hf) H) as [Hsub Hres].
  split; [set_solver|].
  destruct res.1; [done|]. destruct Hres as [Hnew Hflows].
  split; [set_solver|].
  intros x Hx Hxv. destruct (decide (x = e)) as [->|Hne].
  - intros y (flow_id & flow & Hf & Hflow & <-). by apply (Hflows flow_id).
  - apply Hnew; [done|set_solver].
Qed.

(** A set of explored elements has no numbered task ahead. *)
Lemma explored_no_task (v : gset string) x t :
  (forall x, x ∈ v -> explored self v x) ->
  leads_to self x t -> x ∈ v -> numbered_task self t = None.
Proof.
  intros Hv. induction 1 as [x t Hstep|x y t Hstep Hkind _ IH]; intros Hx.
  - by destruct (Hv x Hx t Hstep).
  - destruct (Hv x Hx y Hstep) as [_ Hy]. auto.
Qed.

Lemma explored_back_mono v v' x : v ⊆ v' -> explored_back self v x -> explored_back self v' x.
Proof.
  intros Hsub Hx y Hy. destruct (Hx y Hy) as [Hn Hin]. split; [done|].
  intros H. apply Hsub. auto.
Qed.

Lemma trace_gateway_loop_result rec e gateway fl v res :
  (forall x w r, rec x w = Some r -> backward_result self x w r) ->
  gateways self !! e = Some gateway ->
  (forall flow_id, flow_id ∈ fl -> flow_id ∈ gw_incoming gateway) ->
  trace_gateway_loop self rec fl v = Some res ->
  v ⊆ res.2
  /\ match res.1 with
     | Some n =>
         truthy_digits n = true
         /\ exists t, comes_from self e t /\ numbered_task self t = Some n
     | None =>
         (forall x, x ∈ res.2 -> x ∉ v -> explored_back self res.2 x)
         /\ (forall flow_id flow, flow_id ∈ fl -> flows self !! flow_id = Some flow ->
               numbered_task self (flow_source flow) = None
               /\ (in_gateways self (flow_source flow) = true -> flow_source flow ∈ res.2))
     end.
Proof.
  intros Hrec Hgw. revert v.
  induction fl as [|flow_id rest IH]; intros v Hfl H; simpl in H.
  - injection H as <-. simpl. split; [done|]. split; [done|].
    intros ? ? ?%elem_of_nil. done.
  - assert (forall f, f ∈ rest -> f ∈ gw_incoming gateway) as Hrest.
    { intros f Hf. apply Hfl. by right. }
    destruct (flows self !! flow_id) as [flow|] eqn:Eflow; cycle 1.
    { destruct (IH v Hrest H) as [Hsub Hres]. split; [done|].
      destruct res.1; [done|]. destruct Hres as [Hnew Hflows]. split; [done|].
      intros f fl' [->|Hf]%elem_of_cons Hfl'; [congruence|]. by apply (Hflows f). }
    assert (flows_from self e (flow_source flow)) as Hstep.
    { exists gateway, flow_id, flow. split; [done|]. split; [apply Hfl; left|done]. }
    destruct (numbered_task self (flow_source flow)) as [step_num|] eqn:Enum.
    { injection H as <-. simpl. split; [done|].
      split; [by eapply numbered_task_truthy|].
      exists (flow_source flow). split; [by constructor|done]. }
    destruct (in_gateways self (flow_source flow)) eqn:Ekind; cycle 1.
    { destruct (IH v Hrest H) as [Hsub Hres]. split; [done|].
      destruct res.1; [done|]. destruct Hres as [Hnew Hflows]. split; [done|].
      intros f fl' [->|Hf]%elem_of_cons Hfl'; [|by apply (Hflows f)].
      replace fl' with flow by congruence. split; [done|]. congruence. }
    destruct (rec (flow_source flow) v) as [[r v1]|] eqn:Erec; [|done].
    destruct (Hrec _ _ _ Erec) as [Hsub1 Hres1]. simpl in Hsub1, Hres1.
    destruct (truthy_num r) eqn:Etr.
    { injection H as <-. simpl. split; [done|].
      destruct r as [n|]; [|done]. destruct Hres1 as (Hn & t & Hpath & Ht).
      split; [done|]. exists t. split; [|done].
      by apply (comes_through self e (flow_source flow) t). }
    destruct r as [n|].
    { destruct Hres1 as [Hn _]. simpl in Etr. congruence. }
    destruct Hres1 as [Hsource Hnew1].
    destruct (IH v1 Hrest H) as [Hsub Hres]. split; [set_solver|].
    destruct res.1; [done|]. destruct Hres as [Hnew Hflows]. split.
    + intros x Hx Hxv. destruct (decide (x ∈ v1)) as [Hin|Hout].
      * eapply explored_back_mono; [exact Hsub|]. by apply Hnew1.
      * by apply Hnew.
    + intros f fl' [->|Hf]%elem_of_cons Hfl'; [|by apply (Hflows f)].
      replace fl' with flow by congruence. split; [done|]. intros _. by apply Hsub.
Qed.

Lemma trace_gateway_result n e v res :
  trace_gateway_fuel self n e v = Some res -> backward_result self e v res.
Proof.
  revert e v res. induction n as [|n IH]; intros e v res H; [done|].
  simpl in H. destruct (decide (e ∈ v)) as [Hin|Hout].
  { injection H as <-. split; [done|]. simpl. split; [done|]. intros x Hx Hxv. done. }
  destruct (gateways self !! e) as [gateway|] eqn:Egw; cycle 1.
  { injection H as <-. split; [set_solver|]. simpl. split; [set_solver|].
    intros x Hx Hxv. assert (x = e) as -> by set_solver.
    intros y (g & ? & ? & Hg & _). congruence. }
  destruct (trace_gateway_loop_result (trace_gateway_fuel self n) e gateway _ _ _ IH Egw
              (fun f Hf => Hf) H) as [Hsub Hres].
  split; [set_solver|].
  destruct res.1; [done|]. destruct Hres as [Hnew Hflows].
  split; [set_solver|].
  intros x Hx Hxv. destruct (decide (x = e)) as [->|Hne].
  - intros y (g & flow_id & flow & Hg & Hf & Hflow & <-).
    replace g with gateway in Hf by congruence. by apply (Hflows flow_id).
  - apply Hnew; [done|set_solver].
Qed.

Lemma explored_back_no_task (v : gset string) x t :
  (forall x, x ∈ v -> explored_back self v x) ->
  comes_from self x t -> x ∈ v -> numbered_task self t = None.
Proof.
  intros Hv. induction 1 as [x t Hstep|x y t Hstep Hkind _ IH]; intros Hx.
  - by destruct (Hv x Hx t Hstep).
  - destruct (Hv x Hx y Hstep) as [_ Hy]. auto.
Qed.

Lemma chain_closed (v : gset string) x z :
  (forall x, x ∈ v ->
     split_type self x = None /\ exists y, single_source self x = Some y /\ y ∈ v) ->
  traces_back self x z -> x ∈ v -> split_type self z = None.
Proof.
  intros Hv. induction 1 as [x|x y z Hsplit Hsrc _ IH]; intros Hx.
  - by destruct (Hv x Hx).
  - destruct (Hv x Hx) as (_ & y' & Hy' & Hin). apply IH. congruence.
Qed.

Lemma trace_back_result n e v res :
  trace_back_fuel self n e v = Some res -> on_chain self v e ->
  match res with
  | Some (g, ty) => traces_back self e g /\ split_type self g = Some ty
  | None => forall z, traces_back self e z -> split_type self z = None
  end.
Proof.
  revert e v res. induction n as [|n IH]; intros e v res H Hv; [done|].
  simpl in H. destruct (decide (e ∈ v)) as [Hin|Hout].
  { injection H as <-. intros z Hz. apply (chain_closed v e z); [|done..].
    intros x Hx. destruct (Hv x Hx) as (Hs & y & Hy & [Hyv| ->]); eauto. }
  assert (forall z, split_type self e = None -> single_source self e = None ->
            traces_back self e z -> split_type self z = None) as Hend.
  { intros z Hs Hsrc Hz. inversion Hz; subst; [done|congruence]. }
  assert (forall flow,
            split_type self e = None -> single_source self e = Some (flow_source flow) ->
            trace_back_fuel self n (flow_source flow) ({[e]} ∪ v) = Some res ->
            match res with
            | Some (g, ty) => traces_back self e g /\ split_type self g = Some ty
            | None => forall z, traces_back self e z -> split_type self z = None
            end) as Hstep.
  { intros flow Hs Hsrc Hrec.
    assert (on_chain self ({[e]} ∪ v) (flow_source flow)) as Hchain.
    { intros x [->%elem_of_singleton|Hx]%elem_of_union.
      - split; [done|]. exists (flow_source flow). split; [done|by right].
      - destruct (Hv x Hx) as (Hsx & y & Hy & [Hyv| ->]).
        + split; [done|]. exists y. split; [done|]. left. set_solver.
        + split; [done|]. exists e. split; [done|]. left. set_solver. }
    specialize (IH _ _ _ Hrec Hchain). destruct res as [[g ty]|].
    - destruct IH as [Hpath Hty]. split; [|done]. by eapply traces_on.
    - intros z Hz. inversion Hz; subst; [done|]. apply IH. congruence. }
  assert (forall incoming_flows,
            split_type self e = None ->
            single_source self e
            = match incoming_flows with
              | [flow_id] => flow_source <$> flows self !! flow_id
              | _ => None
              end ->
            match incoming_flows with
            | [] => Some None
            | [flow_id] =>
                match flows self !! flow_id with
                | None => Some None
                | Some flow => trace_back_fuel self n (flow_source flow) ({[e]} ∪ v)
                end
            | _ => Some None
            end = Some res ->
            match res with
            | Some (g, ty) => traces_back self e g /\ split_type self g = Some ty
            | None => forall z, traces_back self e z -> split_type self z = None
            end) as Hcont.
  { intros incoming_flows Hs Hsrc Hres.
    destruct incoming_flows as [|flow_id [|? ?]].
    - injection Hres as <-. intros z. by apply Hend.
    - destruct (flows self !! flow_id) as [flow|] eqn:Eflow.
      + by apply (Hstep flow).
      + injection Hres as <-. intros z. by apply Hend.
    - injection Hres as <-. intros z. by apply Hend. }
  destruct (gateways self !! e) as [gw|] eqn:Egw.
  - destruct ((length (gw_incoming gw) =? 1)%nat && (1 <? length (gw_outgoing gw))%nat)
      eqn:Esplit.
    { injection H as <-. split; [constructor|]. unfold split_type. by rewrite Egw, Esplit. }
    apply (Hcont (gw_incoming gw)); [| |done].
    + unfold split_type. by rewrite Egw, Esplit.
    + unfold single_source. by rewrite Egw.
  - destruct (oget (tasks self) e) as [t|] eqn:Et.
    + apply (Hcont (task_incoming t)); [| |done].
      * unfold split_type. by rewrite Egw.
      * unfold single_source. by rewrite Egw, Et.
    + injection H as <-. intros z. apply Hend.
      * unfold split_type. by rewrite Egw.
      * unfold single_source. by rewrite Egw, Et.
Qed.

End TraversalResults.

(** X1: [_find_first_task_from_element] returns a step number exactly when a
    numbered task can be reached from the element along outgoing flows
    through gateways and events, and the number is that of such a task;
    when it returns nothing, no numbered task can be reached that way. *)
Theorem first_task_is_reachable (self : BPMNParser) (element_id : string) :
  match _find_first_task_from_element self element_id with
  | Some step_num =>
      truthy_digits step_num = true
      /\ exists task_id, leads_to self element_id task_id
           /\ numbered_task self task_id = Some step_num
  | None =>
      forall task_id, leads_to self element_id task_id ->
        numbered_task self task_id = None
  end.
Proof.
  unfold _find_first_task_from_element.
  destruct (find_first_task_returns self (budget self) element_id ∅
              (unvisited_empty self)) as (r & v & Hr & _).
  rewrite Hr. destruct (find_first_task_result self _ _ _ _ Hr) as [_ Hres].
  simpl in Hres. destruct r as [n|]; [done|].
  destruct Hres as [He Hnew]. intros task_id Hpath.
  apply (explored_no_task self v element_id task_id); [|done..].
  intros x Hx. apply Hnew; [done|set_solver].
Qed.

(** An instance: the start event of the graph with the loop leads to
    task 6 through the merging gateway. *)
Lemma first_task_is_reachable_witness :
  exists task_id, leads_to ex_nested_self_loop "S" task_id
    /\ numbered_task ex_nested_self_loop task_id = Some (Nat.to_uint 6).
Proof.
  assert (_find_first_task_from_element ex_nested_self_loop "S" = Some (Nat.to_uint 6)) as E
    by (vm_compute; reflexivity).
  pose proof (first_task_is_reachable ex_nested_self_loop "S") as H.
  rewrite E in H. exact (proj2 H).
Defined.

(** X2: [_trace_gateway_to_task] returns a step number exactly when a numbered
    task feeds the gateway, directly or through other gateways, and the
    number is that of such a task; when it returns nothing, there is no
    such task. *)
Theorem gateway_source_task_is_found (self : BPMNParser) (gateway_id : string) :
  match _trace_gateway_to_task self gateway_id with
  | Some step_num =>
      truthy_digits step_num = true
      /\ exists task_id, comes_from self gateway_id task_id
           /\ numbered_task self task_id = Some step_num
  | None =>
      forall task_id, comes_from self gateway_id task_id ->
        numbered_task self task_id = None
  end.
Proof.
  unfold _trace_gateway_to_task.
  destruct (trace_gateway_returns self (budget self) gateway_id ∅
              (unvisited_empty self)) as (r & v & Hr & _).
  rewrite Hr. destruct (trace_gateway_result self _ _ _ _ Hr) as [_ Hres].
  simpl in Hres. destruct r as [n|]; [done|].
  destruct Hres as [He Hnew]. intros task_id Hpath.
  apply (explored_back_no_task self v gateway_id task_id); [|done..].
  intros x Hx. apply Hnew; [done|set_solver].
Qed.

(** An instance: behind the joining gateway lies task 2. *)
Lemma gateway_source_task_is_found_witness :
  exists task_id, comes_from ex_join "G2" task_id
    /\ numbered_task ex_join task_id = Some (Nat.to_uint 2).
Proof.
  assert (_trace_gateway_to_task ex_join "G2" = Some (Nat.to_uint 2)) as E
    by (vm_compute; reflexivity).
  pose proof (gateway_source_task_is_found ex_join "G2") as H.
  rewrite E in H. exact (proj2 H).
Defined.

(** X3: [_trace_back_to_split_gateway] follows the chain of single incoming
    flows back from the element.  What it returns is the first split gateway
    on that chain, a gateway with one incoming and several outgoing flows,
    together with its type; when it returns nothing, the chain holds no
    split gateway: it ends at a join, at a start, or runs into a loop. *)
Theorem split_gateway_is_on_chain (self : BPMNParser) (element_id : string) :
  match _trace_back_to_split_gateway self element_id with
  | Some (gateway_id, gateway_type) =>
      traces_back self element_id gateway_id
      /\ split_type self gateway_id = Some gateway_type
  | None =>
      forall z, traces_back self element_id z -> split_type self z = None
  end.
Proof.
  unfold _trace_back_to_split_gateway.
  destruct (trace_back_returns self (budget self) element_id ∅ (unvisited_empty self))
    as (r & Hr).
  rewrite Hr. apply (trace_back_result self _ _ _ _ Hr).
  intros x Hx. set_solver.
Qed.

(** An instance: task 2 traces back to the AND split. *)
Lemma split_gateway_is_on_chain_witness :
  traces_back ex_join "T2" "G1" /\ split_type ex_join "G1" = Some AND.
Proof.
  assert (_trace_back_to_split_gateway ex_join "T2" = Some ("G1", AND)) as E
    by (vm_compute; reflexivity).
  pose proof (split_gateway_is_on_chain ex_join "T2") as H.
  rewrite E in H. exact H.
Defined.

(** ** The numbering of the start events *)

Lemma imap_numbers_fst {V} (l : list (string * V)) :
  (imap (fun n '(event_id, _) => (event_id, S n)) l).*1 = l.*1.
Proof.
  apply list_eq. intros i. rewrite !list_lookup_fmap, list_lookup_imap.
  by destruct (l !! i) as [[? ?]|].
Qed.

Lemma imap_numbers_snd {V} (l : list (string * V)) :
  (imap (fun n '(event_id, _) => (event_id, S n)) l).*2 = seq 1 (length l).
Proof.
  apply list_eq. intros i. rewrite list_lookup_fmap, list_lookup_imap.
  destruct (l !! i) as [[? ?]|] eqn:E; simpl.
  - symmetry. apply lookup_seq. split; [done|]. by eapply lookup_lt_Some.
  - symmetry. apply lookup_seq_ge. by apply lookup_ge_None.
Qed.

Lemma imap_numbers_lookup {V} (l : list (string * V)) a m :
  (a, m) ∈ imap (fun n '(event_id, _) => (event_id, S n)) l ->
  exists i k, l !! i = Some (a, k) /\ m = S i.
Proof.
  intros (i & Hi)%list_elem_of_lookup. rewrite list_lookup_imap in Hi.
  destruct (l !! i) as [[a' k]|] eqn:E; simplify_eq/=. eauto.
Qed.

Lemma start_events_with_step_keys (self : BPMNParser) :
  start_events_with_step self = (fun id => (id, first_step self id)) <$> start_events self.
Proof.
  unfold start_events_with_step, start_events.
  induction (events self) as [|[event_id event_data] l IH]; [done|].
  cbn [flat_map]. rewrite fmap_app, <- IH. f_equal.
  by destruct (ev_type event_data).
Qed.

Lemma start_event_numbers_perm (self : BPMNParser) :
  (_get_start_event_numbers self).*1 ≡ₚ start_events self.
Proof.
  unfold _get_start_event_numbers.
  rewrite imap_numbers_fst, sorted_perm, start_events_with_step_keys.
  rewrite <- list_fmap_compose. simpl. by rewrite list_fmap_id.
Qed.

Lemma start_event_numbers_seq (self : BPMNParser) :
  (_get_start_event_numbers self).*2 = seq 1 (length (start_events self)).
Proof.
  unfold _get_start_event_numbers.
  rewrite imap_numbers_snd, sorted_length, start_events_with_step_keys.
  by rewrite length_fmap.
Qed.

(** X4: [_get_start_event_numbers] gives every start event one input number:
    the numbers are 1, 2, ..., one for each start event, and a start event
    with a smaller number leads to a first task whose step number is not
    larger (a start event that leads to no task counts as step 9999). *)
Theorem start_events_are_numbered (self : BPMNParser) :
  let numbers := _get_start_event_numbers self in
  numbers.*1 ≡ₚ start_events self
  /\ numbers.*2 = seq 1 (length (start_events self))
  /\ (forall a m b n, (a, m) ∈ numbers -> (b, n) ∈ numbers -> m < n ->
        (first_step self a <= first_step self b)%Z).
Proof.
  intros numbers. unfold numbers, _get_start_event_numbers.
  set (l := sorted Z.ltb snd (start_events_with_step self)).
  assert (l ≡ₚ start_events_with_step self) as Hperm by apply sorted_perm.
  assert (forall a k, (a, k) ∈ l -> k = first_step self a) as Hkey.
  { intros a k Hin. rewrite Hperm, start_events_with_step_keys in Hin.
    apply list_elem_of_fmap in Hin as (id & [= -> ->] & _). done. }
  split; [apply start_event_numbers_perm|]. split; [apply start_event_numbers_seq|].
  intros a m b n (i & ka & Hi & ->)%imap_numbers_lookup
                   (j & kb & Hj & ->)%imap_numbers_lookup Hlt.
    rewrite <- (Hkey a ka), <- (Hkey b kb) by (by eapply list_elem_of_lookup_2).
    pose proof (sorted_int_ascending snd (start_events_with_step self)) as Hs.
    fold l in Hs.
    rewrite <- (take_drop (S i) l) in Hs.
    apply (StronglySorted_app_1_elem_of _ _ _ (a, ka) (b, kb) Hs).
  - apply (list_elem_of_lookup_2 _ i). rewrite lookup_take_lt by lia. done.
  - apply (list_elem_of_lookup_2 _ (j - S i)). rewrite lookup_drop.
    replace (S i + (j - S i)) with j by lia. done.
Qed.

(** An instance: the start event of the XOR scenario gets the number 1. *)
Lemma start_events_are_numbered_witness :
  _get_start_event_numbers ex_xor = [("S", 1)]
  /\ (_get_start_event_numbers ex_xor).*2 = seq 1 (length (start_events ex_xor)).
Proof.
  split; [vm_compute; reflexivity|].
  exact (proj1 (proj2 (start_events_are_numbered ex_xor))).
Defined.

(** ** The process inputs *)

Lemma Natltb_asym (a b : nat) : (a <? b)%nat = true -> (b <? a)%nat = false.
Proof. intros H%Nat.ltb_lt. apply Nat.ltb_ge. lia. Qed.

Lemma Natltb_trans (a b c : nat) :
  (b <? a)%nat = false -> (c <? b)%nat = false -> (c <? a)%nat = false.
Proof. intros H1%Nat.ltb_ge H2%Nat.ltb_ge. apply Nat.ltb_ge. lia. Qed.

Lemma sorted_nat_ascending {A} (key : A -> nat) l :
  StronglySorted (fun a b => key a <= key b) (sorted Nat.ltb key l).
Proof.
  eapply StronglySorted_weaken; [|apply (sorted_sorted Nat.ltb key Natltb_asym Natltb_trans)].
  unfold not_after. intros a b H%Nat.ltb_ge. lia.
Qed.

Lemma ascending_strict_nat {A} (key : A -> nat) l :
  StronglySorted (fun a b => key a <= key b) l -> NoDup (key <$> l) ->
  StronglySorted (fun a b => key a < key b) l.
Proof.
  induction 1 as [|x l Hs IH Hall]; intros Hnd; [constructor|].
  rewrite fmap_cons in Hnd. apply NoDup_cons in Hnd as [Hx Hnd].
  constructor; [auto|].
  rewrite Forall_forall in Hall. apply Forall_forall. intros y Hy.
  assert (key x <> key y); [|specialize (Hall y Hy); lia].
  intros Heq. apply Hx. rewrite Heq. by apply list_elem_of_fmap_2.
Qed.

(** Looking up a key of a dictionary without repeated keys *)
Lemma oget_elem_of {V} (d : odict V) k v :
  NoDup d.*1 -> oget d k = Some v <-> (k, v) ∈ d.
Proof.
  induction d as [|[k' v'] d IH]; simpl; intros Hnd.
  - split; [done|]. intros ?%elem_of_nil. done.
  - apply NoDup_cons in Hnd as [Hk' Hnd]. destruct (decide (k' = k)) as [->|Hne].
    + split.
      * intros [= ->]. left.
      * intros [[= ->]|Hin]%elem_of_cons; [done|].
        exfalso. apply Hk'. by apply (list_elem_of_fmap_2 fst _ (k, v)).
    + rewrite (IH Hnd). split; [by right|].
      intros [[= -> ->]|Hin]%elem_of_cons; done.
Qed.

Lemma start_events_elem_of (self : BPMNParser) event_id :
  event_id ∈ start_events self <->
  exists event_data, (event_id, event_data) ∈ events self /\ ev_type event_data = EvStart.
Proof.
  unfold start_events. rewrite list_elem_of_In, in_flat_map. split.
  - intros ([id ev] & Hin%list_elem_of_In & Hid).
    destruct (ev_type ev) eqn:E; simpl in Hid; try done.
    destruct Hid as [->|[]]. eauto.
  - intros (ev & Hin & Hstart). exists (event_id, ev).
    split; [by apply list_elem_of_In|]. rewrite Hstart. by left.
Qed.

(** X5: [get_process_inputs] lists the start events under the numbers that
    [_get_start_event_numbers] gives them, so that "Input n" in a step
    title and line "n." of the process inputs name the same start event.
    The lines are in strictly ascending order of these numbers; a start
    event is listed when it has a name or a named outgoing flow, and a start
    event without either is left out, which leaves a gap in the numbers. *)
Theorem process_inputs_follow_numbering (self : BPMNParser) :
  NoDup (events self).*1 ->
  exists entries : list (nat * string),
    get_process_inputs self = join (String "010"%char "") (numbered_line <$> entries)
    /\ StronglySorted (fun x y => x.1 < y.1) entries
    /\ (forall n name, (n, name) ∈ entries <->
          exists event_id event_data,
            (event_id, n) ∈ _get_start_event_numbers self
            /\ (event_id, event_data) ∈ events self
            /\ ev_type event_data = EvStart
            /\ input_name self event_data = Some name).
Proof.
  intros Hnd.
  set (inputs_with_numbers :=
    flat_map (fun '(event_id, input_num) =>
      match oget (events self) event_id with
      | Some event_data =>
          match input_name self event_data with
          | Some name => [(input_num, name)]
          | None => []
          end
      | None => []
      end) (_get_start_event_numbers self)).
  assert (get_process_inputs self
          = join (String "010"%char "")
                 (numbered_line <$> sorted Nat.ltb fst inputs_with_numbers)) as Heq.
  { unfold get_process_inputs. f_equal.
    assert (forall (f : nat * string -> string) l, map f l = f <$> l) as Hmap.
    { intros f l. induction l as [|x l IH]; simpl; [done|]. by rewrite IH. }
    assert (forall (f g : string * nat -> list (nat * string)) l,
              (forall x, f x = g x) -> flat_map f l = flat_map g l) as Hext.
    { intros f g l Hfg. induction l as [|x l IH]; simpl; [done|]. by rewrite Hfg, IH. }
    rewrite Hmap. unfold inputs_with_numbers.
    erewrite (Hext _ _ (_get_start_event_numbers self)).
    - apply list_fmap_ext. intros i [num name] _. done.
    - intros [event_id input_num]. unfold input_name.
      destruct (oget (events self) event_id); [|done].
      by destruct (truthy _). }
  assert (forall n name, (n, name) ∈ inputs_with_numbers <->
            exists event_id event_data,
              (event_id, n) ∈ _get_start_event_numbers self
              /\ (event_id, event_data) ∈ events self
              /\ ev_type event_data = EvStart
              /\ input_name self event_data = Some name) as Hin.
  { intros n name. unfold inputs_with_numbers.
    rewrite list_elem_of_In, in_flat_map. split.
    - intros ([event_id input_num] & Hnum%list_elem_of_In & Hentry).
      destruct (oget (events self) event_id) as [event_data|] eqn:Eev; [|done].
      destruct (input_name self event_data) as [name'|] eqn:Ename; [|done].
      destruct Hentry as [[= -> ->]|[]].
      exists event_id, event_data. split; [done|].
      apply (oget_elem_of _ _ _ Hnd) in Eev. split; [done|]. split; [|done].
      assert (event_id ∈ start_events self) as Hstart.
      { rewrite <- (start_event_numbers_perm self). by apply (list_elem_of_fmap_2 fst _ (event_id, n)). }
      apply start_events_elem_of in Hstart as (ev' & Hev' & Hty).
      apply (oget_elem_of _ _ _ Hnd) in Eev, Hev'. congruence.
    - intros (event_id & event_data & Hnum & Hev & _ & Hname).
      exists (event_id, n). split; [by apply list_elem_of_In|].
      apply (oget_elem_of _ _ _ Hnd) in Hev. rewrite Hev, Hname. by left. }
  exists (sorted Nat.ltb fst inputs_with_numbers).
  split; [exact Heq|]. split.
  - apply (ascending_strict_nat fst); [apply sorted_nat_ascending|].
    rewrite sorted_perm.
    assert (forall l : list (string * nat), NoDup l.*2 ->
              NoDup (flat_map (fun '(event_id, input_num) =>
                       match oget (events self) event_id with
                       | Some event_data =>
                           match input_name self event_data with
                           | Some name => [(input_num, name)]
                           | None => []
                           end
                       | None => []
                       end) l).*1) as Hsub.
    { intros l. induction l as [|[event_id input_num] l IH]; intros Hl; [constructor|].
      rewrite fmap_cons in Hl. apply NoDup_cons in Hl as [Hx Hl].
      cbn [flat_map]. rewrite fmap_app. apply NoDup_app. split; [|split; [|by apply IH]].
      - destruct (oget (events self) event_id) as [ev|]; [|constructor].
        destruct (input_name self ev); [|constructor]. apply NoDup_singleton.
      - intros x Hx1 Hx2. apply Hx. clear IH Hx Hl.
        assert (x = input_num) as ->.
        { destruct (oget (events self) event_id) as [ev|]; [|by apply elem_of_nil in Hx1].
          destruct (input_name self ev); [|by apply elem_of_nil in Hx1].
          by apply list_elem_of_singleton in Hx1. }
        apply list_elem_of_fmap in Hx2 as ([num name] & -> & Hin2).
        apply list_elem_of_In, in_flat_map in Hin2 as ([eid inum] & Hl' & Hentry).
        destruct (oget (events self) eid) as [ev|]; [|done].
        destruct (input_name self ev); [|done].
        destruct Hentry as [[= -> ->]|[]].
        apply (list_elem_of_fmap_2 snd _ (eid, num)). by apply list_elem_of_In. }
    apply Hsub. rewrite start_event_numbers_seq. apply NoDup_seq.
  - intros n name. rewrite <- Hin. by rewrite sorted_perm.
Qed.

(** An instance: the two start events of a graph, both named *)
Lemma process_inputs_follow_numbering_witness :
  NoDup (events ex_two_predecessors).*1
  /\ exists entries : list (nat * string),
       get_process_inputs ex_two_predecessors
       = join (String "010"%char "") (numbered_line <$> entries)
       /\ StronglySorted (fun x y => x.1 < y.1) entries.
Proof.
  assert (NoDup (events ex_two_predecessors).*1) as Hnd.
  { vm_compute. repeat constructor; set_solver. }
  split; [exact Hnd|].
  destruct (process_inputs_follow_numbering ex_two_predecessors Hnd)
    as (entries & Heq & Hsorted & _).
  exists entries. split; [exact Heq|exact Hsorted].
Defined.

(** ** The SLA of a task and of the generated rows *)

Section TaskSla.
Variable self : BPMNParser.

Lemma group_of_cases cx cy gs :
  match group_of self cx cy gs with
  | (Some s, Some g) =>
      exists before after, gs = before ++ (g, s) :: after
        /\ contains self cx cy g = true
        /\ Forall (fun kv => contains self cx cy kv.1 = false) before
  | (None, None) => Forall (fun kv => contains self cx cy kv.1 = false) gs
  | _ => False
  end.
Proof.
  induction gs as [|[group_id group_sla] gs IH]; simpl; [constructor|].
  assert (contains self cx cy group_id = false ->
          match group_of self cx cy gs with
          | (Some s, Some g) =>
              exists before after, (group_id, group_sla) :: gs = before ++ (g, s) :: after
                /\ contains self cx cy g = true
                /\ Forall (fun kv => contains self cx cy kv.1 = false) before
          | (None, None) =>
              Forall (fun kv => contains self cx cy kv.1 = false) ((group_id, group_sla) :: gs)
          | _ => False
          end) as Hskip.
  { intros Hno. destruct (group_of self cx cy gs) as [[s|] [g|]]; try done.
    - destruct IH as (before & after & -> & Hin & Hbefore).
      exists ((group_id, group_sla) :: before), after. split; [done|]. split; [done|].
      by constructor.
    - by constructor. }
  unfold contains in Hskip at 1.
  destruct (shape_bounds self !! group_id) as [gb|] eqn:Egb; [|by apply Hskip].
  destruct (in_group cx cy gb) eqn:Ein; [|by apply Hskip].
  exists [], gs. split; [done|]. split; [|constructor].
  unfold contains. by rewrite Egb.
Qed.

Lemma task_sla_group_has_value task_id s g :
  _get_task_sla self task_id = (s, Some g) -> is_Some s.
Proof.
  unfold _get_task_sla. destruct (oget (tasks self) task_id) as [task|]; [|done].
  destruct (truthy_opt (task_sla task)); [done|].
  destruct (shape_bounds self !! task_id) as [tb|]; [|done].
  match goal with |- group_of self ?cx ?cy ?gs = _ -> _ =>
    pose proof (group_of_cases cx cy gs) as H; intros E; rewrite E in H end.
  destruct s; [eauto|done].
Qed.

Lemma task_sla_own_is_truthy task_id s :
  _get_task_sla self task_id = (Some s, None) -> truthy s = true.
Proof.
  unfold _get_task_sla. destruct (oget (tasks self) task_id) as [task|]; [|done].
  destruct (truthy_opt (task_sla task)) eqn:E.
  { intros [= Hs]. by rewrite Hs in E. }
  destruct (shape_bounds self !! task_id) as [tb|]; [|done].
  match goal with |- group_of self ?cx ?cy ?gs = _ -> _ =>
    pose proof (group_of_cases cx cy gs) as H; intros E'; rewrite E' in H end.
  done.
Qed.

(** Every generated row is a gateway case without SLA or the row of a
    task with the SLA of that task. *)
Lemma generated_row_kinds r :
  r ∈ generate_sop_rows self ->
  (is_gateway r = true /\ sla r = None /\ sla_group r = None)
  \/ (is_gateway r = false
      /\ exists task_id, (sla r, sla_group r) = _get_task_sla self task_id).
Proof.
  rewrite generate_sop_rows_blocks, list_elem_of_In, in_flat_map.
  intros ([[task_id task] step_num] & _ & Hr%list_elem_of_In).
  destruct (task_iteration_shape self task_id task step_num)
    as (row & gws & Hblock & _ & Hng & Hsla & _ & Hgws).
  rewrite Hblock in Hr. apply elem_of_cons in Hr as [->|Hr].
  - right. eauto.
  - left. rewrite Forall_forall in Hgws. destruct (Hgws r Hr) as (? & ? & ? & _). done.
Qed.

End TaskSla.

(** X6: [_get_task_sla]: an SLA on the task itself has priority and comes
    without a group; otherwise the task gets the SLA and the id of the
    first group, in the order of [self.groups], whose shape contains the
    centre of the shape of the task; otherwise it has none.  A group is
    never returned without its SLA value. *)
Theorem task_sla_cases (self : BPMNParser) (task_id : string) :
  match _get_task_sla self task_id with
  | (Some s, None) =>
      exists task, oget (tasks self) task_id = Some task
        /\ task_sla task = Some s /\ truthy s = true
  | (Some s, Some g) =>
      exists task tb before after,
        oget (tasks self) task_id = Some task
        /\ truthy_opt (task_sla task) = false
        /\ shape_bounds self !! task_id = Some tb
        /\ groups self = before ++ (g, s) :: after
        /\ contains self (centre_x tb) (centre_y tb) g = true
        /\ Forall (fun kv => contains self (centre_x tb) (centre_y tb) kv.1 = false) before
  | (None, None) =>
      forall task, oget (tasks self) task_id = Some task ->
        truthy_opt (task_sla task) = false
        /\ forall tb, shape_bounds self !! task_id = Some tb ->
             Forall (fun kv => contains self (centre_x tb) (centre_y tb) kv.1 = false)
                    (groups self)
  | (None, Some _) => False
  end.
Proof.
  unfold _get_task_sla. destruct (oget (tasks self) task_id) as [task|] eqn:Etask; [|done].
  destruct (truthy_opt (task_sla task)) eqn:Eown.
  { destruct (task_sla task) as [s|] eqn:Es; [|done]. exists task. done. }
  destruct (shape_bounds self !! task_id) as [tb|] eqn:Etb.
  - pose proof (group_of_cases self (centre_x tb) (centre_y tb) (groups self)) as H.
    unfold centre_x, centre_y in *.
    destruct (group_of self _ _ (groups self)) as [[s|] [g|]]; try done.
    + destruct H as (before & after & Hgroups & Hin & Hbefore).
      exists task, tb, before, after. done.
    + intros task' [= <-]. split; [done|]. intros tb' [= <-]. done.
  - intros task' [= <-]. split; [done|]. intros tb' [=].
Qed.

(** An instance: task 1 has its own SLA, task 2 lies inside the group. *)
Lemma task_sla_cases_witness :
  _get_task_sla ex_sla_group "T1" = (Some "1 day", None)
  /\ _get_task_sla ex_sla_group "T2" = (Some "2 days", Some "Group_1")
  /\ exists task, oget (tasks ex_sla_group) "T1" = Some task /\ task_sla task = Some "1 day".
Proof.
  assert (_get_task_sla ex_sla_group "T1" = (Some "1 day", None)) as E
    by (vm_compute; reflexivity).
  split; [exact E|]. split; [vm_compute; reflexivity|].
  pose proof (task_sla_cases ex_sla_group "T1") as H. rewrite E in H.
  destruct H as (task & Htask & Hsla & _). exists task. split; [exact Htask|exact Hsla].
Defined.

(** X7: the SLA merge ranges of the generated rows.  A generated row that
    belongs to an SLA group is a task row and has an SLA value.  The scan
    over the generated rows returns, and each of its ranges starts on a task
    row, carries the SLA value of that row, which is present, and ends
    just before the next task row or with the last row: no range cuts the
    gateway cases of a step off from it. *)
Theorem generated_rows_merge_by_step (self : BPMNParser) :
  let rows := generate_sop_rows self in
  (forall r, r ∈ rows -> is_Some (sla_group r) -> is_gateway r = false /\ is_Some (sla r))
  /\ exists ranges, SlaMerge.sla_merges rows = Some ranges
       /\ forall s e v, (s, e, v) ∈ ranges ->
            exists head, rows !! s = Some head
              /\ is_gateway head = false /\ v = sla head /\ is_Some v
              /\ s <= e < length rows
              /\ (forall r, rows !! (S e) = Some r -> is_gateway r = false).
Proof.
  intros rows.
  assert (forall r, r ∈ rows -> is_Some (sla_group r) ->
            is_gateway r = false /\ is_Some (sla r)) as Hgroup.
  { intros r [(_ & _ & Hg)|(Hng & task_id & Hsla)]%generated_row_kinds [g Hsome].
    - congruence.
    - split; [done|]. rewrite Hsome in Hsla.
      by apply (task_sla_group_has_value self task_id (sla r) g). }
  split; [exact Hgroup|].
  destruct (scan_spec (length rows) rows 0 []) as (ranges & Hscan & _ & Hshape & _); [lia|].
  exists ranges. split; [exact Hscan|].
  rewrite Forall_forall in Hshape. intros s e v Hin.
  destruct (Hshape _ Hin) as (head & Hhead & -> & Hse & Hkind).
  exists head. split; [done|].
  assert (head ∈ rows) as Hrow by (by eapply list_elem_of_lookup_2).
  destruct Hkind as [[Hown ->]|[Hgrp [_ Hnext]]].
  - unfold own_sla in Hown. apply andb_true_iff in Hown as [Hs _].
    destruct (sla head) as [v|] eqn:Ev; [|done].
    split.
    { destruct (generated_row_kinds self head Hrow) as [(_ & ? & _)|[? _]]; [congruence|done]. }
    split; [done|]. split; [eauto|]. split; [done|].
    intros r. apply (gateway_cases_drop_stop rows (S s)).
  - unfold grouped in Hgrp. destruct (sla_group head) as [g|] eqn:Eg; [|done].
    destruct (Hgroup head Hrow) as [Hng Hv]; [by rewrite Eg|].
    split; [done|]. split; [done|]. split; [done|]. split; [done|].
    intros r Hr. by destruct (Hnext r Hr).
Qed.

(** An instance: the range of task 1 with its two gateway cases, and the
    range of the group of tasks 2 and 3 *)
Lemma generated_rows_merge_by_step_witness :
  SlaMerge.sla_merges (generate_sop_rows ex_sla_group)
  = Some [(0, 2, Some "1 day"); (3, 4, Some "2 days")].
Proof.
  destruct (generated_rows_merge_by_step ex_sla_group) as (_ & ranges & Hranges & _).
  rewrite Hranges. vm_compute in Hranges. injection Hranges as <-. reflexivity.
Defined.

(** ** The step number and the label of a task name *)

Section Strings.
#[local] Arguments String.append !_ _ /.

Lemma span_spec p s :
  let '(run, rest) := span p s in
  s = run +:+ rest /\ all_chars p run = true /\ starts_without p rest = true.
Proof.
  induction s as [|c s IH]; simpl; [done|].
  destruct (p c) eqn:E.
  - destruct (span p s) as [run rest]. destruct IH as (-> & Hrun & Hrest).
    simpl. by rewrite E.
  - simpl. by rewrite E.
Qed.

Lemma span_app p run rest :
  all_chars p run = true -> starts_without p rest = true ->
  span p (run +:+ rest) = (run, rest).
Proof.
  intros Hrun Hrest. induction run as [|c run IH]; simpl in *.
  - destruct rest as [|c rest]; [done|]. simpl in *.
    by destruct (p c).
  - apply andb_true_iff in Hrun as [-> Hrun]. by rewrite IH.
Qed.

Lemma lstrip_starts_without s : starts_without isspace (lstrip s) = true.
Proof.
  induction s as [|c s IH]; simpl; [done|].
  destruct (isspace c) eqn:E; [done|]. simpl. by rewrite E.
Qed.

Lemma lstrip_id s : starts_without isspace s = true -> lstrip s = s.
Proof. destruct s as [|c s]; simpl; [done|]. by destruct (isspace c). Qed.

Lemma lstrip_app_all ws s : all_chars isspace ws = true -> lstrip (ws +:+ s) = lstrip s.
Proof.
  induction ws as [|c ws IH]; simpl; [done|].
  intros [-> Hws]%andb_true_iff. auto.
Qed.

Lemma lstrip_split s :
  exists ws, s = ws +:+ lstrip s /\ all_chars isspace ws = true.
Proof.
  induction s as [|c s (ws & IH & Hws)]; simpl.
  - by exists "".
  - destruct (isspace c) eqn:E.
    + exists (String c ws). simpl. rewrite E. split; [simpl; by f_equal|done].
    + by exists "".
Qed.

Lemma isdigit_not_space c : isdigit c = true -> isspace c = false.
Proof.
  unfold isdigit, isspace. generalize (nat_of_ascii c). intros n H.
  apply andb_true_iff in H as [H1%Nat.leb_le H2%Nat.leb_le].
  apply orb_false_iff. split; apply andb_false_iff.
  - right. apply Nat.leb_gt. lia.
  - right. apply Nat.leb_gt. lia.
Qed.

(** A string of digits is the text of a step number. *)
Lemma digits_of_string s :
  all_chars isdigit s = true ->
  exists n, NilEmpty.uint_of_string s = Some n /\ str n = s.
Proof.
  induction s as [|c s IH]; simpl.
  - by exists Nil.
  - intros [Hc Hs]%andb_true_iff. destruct (IH Hs) as (n & Hn & Hstr).
    rewrite Hn. unfold str in *.
    destruct c as [[|] [|] [|] [|] [|] [|] [|] [|]]; vm_compute in Hc;
      try discriminate Hc;
      simpl; eexists; (split; [reflexivity|]); simpl; congruence.
Qed.

Lemma str_all_digits n : all_chars isdigit (str n) = true.
Proof. unfold str. induction n; simpl; auto. Qed.

Lemma str_nonempty n : n <> Nil -> truthy (str n) = true.
Proof. unfold str. by destruct n. Qed.

Lemma str_nil n : str n = "" -> n = Nil.
Proof. unfold str. by destruct n. Qed.

Lemma str_inj n m : str n = str m -> n = m.
Proof.
  intros H. assert (Some n = Some m) as [= ->]; [|done].
  unfold str in H. by rewrite <- !NilEmpty.usu, H.
Qed.

Lemma append_nil_r s : s +:+ "" = s.
Proof. induction s as [|c s IH]; simpl; [done|]. by rewrite IH. Qed.

Lemma append_assoc a b c : (a +:+ b) +:+ c = a +:+ (b +:+ c).
Proof. induction a as [|x a IH]; simpl; [done|]. by rewrite IH. Qed.

Lemma rev_app_append s acc : String.rev_app s acc = String.rev s +:+ acc.
Proof.
  unfold String.rev. revert acc. induction s as [|c s IH]; intros acc; simpl; [done|].
  rewrite IH, (IH (String c "")), append_assoc. done.
Qed.

Lemma rev_cons c s : String.rev (String c s) = String.rev s +:+ String c "".
Proof. unfold String.rev at 1. simpl. apply rev_app_append. Qed.

Lemma rev_append a b : String.rev (a +:+ b) = String.rev b +:+ String.rev a.
Proof.
  induction a as [|c a IH]; simpl.
  - by rewrite append_nil_r.
  - by rewrite !rev_cons, IH, append_assoc.
Qed.

Lemma rev_involutive s : String.rev (String.rev s) = s.
Proof.
  induction s as [|c s IH]; [done|]. by rewrite rev_cons, rev_append, IH.
Qed.

Lemma rev_empty s : String.rev s = "" -> s = "".
Proof. intros H. by rewrite <- (rev_involutive s), H. Qed.

Lemma lstrip_append_rest a b : lstrip a <> "" -> lstrip (a +:+ b) = lstrip a +:+ b.
Proof.
  induction a as [|c a IH]; simpl; [done|].
  destruct (isspace c); [done|]. done.
Qed.

Lemma lstrip_append_blank a b : lstrip a = "" -> lstrip (a +:+ b) = lstrip b.
Proof.
  induction a as [|c a IH]; simpl; [done|].
  destruct (isspace c); [done|]. done.
Qed.

(** [rstrip] from the front *)
Lemma rstrip_cons c s :
  rstrip (String c s)
  = match rstrip s with
    | "" => if isspace c then "" else String c ""
    | _ => String c (rstrip s)
    end.
Proof.
  unfold rstrip. rewrite rev_cons.
  destruct (lstrip (String.rev s)) as [|x l] eqn:E.
  - rewrite lstrip_append_blank by done. simpl. by destruct (isspace c).
  - rewrite lstrip_append_rest by (by rewrite E). rewrite E.
    rewrite rev_append. simpl.
    destruct (String.rev (String x l)) eqn:E'; [|done].
    by apply rev_empty in E'.
Qed.

Lemma tidy_after_spaced blank s : tidy_after blank s = true -> spaced blank s = true.
Proof.
  revert blank. induction s as [|c s IH]; intros blank; simpl; [done|].
  destruct (Ascii.eqb c " "); intros [? ?]%andb_true_iff; apply andb_true_iff; auto.
Qed.

Lemma spaced_weaken blank s : spaced true s = true -> spaced blank s = true.
Proof.
  destruct s as [|c s]; simpl; [done|].
  destruct (Ascii.eqb c " "); [done|]. done.
Qed.

Lemma spaced_starts s : spaced true s = true -> starts_without isspace s = true.
Proof.
  destruct s as [|c s]; simpl; [done|].
  destruct (Ascii.eqb c " "); [done|]. by intros [-> _]%andb_true_iff.
Qed.

(** Replacing the runs of white space leaves single blanks. *)
Lemma sub_runs_spaced in_run s : spaced in_run (sub_runs_from isspace in_run s) = true.
Proof.
  revert in_run. induction s as [|c s IH]; intros in_run; simpl; [done|].
  destruct (isspace c) eqn:E.
  - destruct in_run; [apply IH|]. simpl. apply IH.
  - simpl. rewrite E. simpl.
    destruct (Ascii.eqb c " ") eqn:E'; [|apply IH].
    apply Ascii.eqb_eq in E'. by subst c.
Qed.

(** A string with single blanks has no run to replace. *)
Lemma sub_runs_spaced_id blank s :
  spaced blank s = true ->
  sub_runs_from isspace false s = s
  /\ (blank = true -> sub_runs_from isspace true s = s).
Proof.
  revert blank. induction s as [|c s IH]; intros blank; simpl; [done|].
  destruct (Ascii.eqb c " ") eqn:E.
  - apply Ascii.eqb_eq in E as ->. intros [Hb Hs]%andb_true_iff.
    destruct (IH true Hs) as [_ ->]; [|done]. destruct blank; done.
  - intros [Hc Hs]%andb_true_iff. apply negb_true_iff in Hc. rewrite Hc.
    destruct (IH false Hs) as [-> _]. done.
Qed.

Lemma sub_runs_none p in_run s :
  all_chars (fun c => negb (p c)) s = true -> sub_runs_from p in_run s = s.
Proof.
  revert in_run. induction s as [|c s IH]; intros in_run; simpl; [done|].
  intros [Hc Hs]%andb_true_iff. apply negb_true_iff in Hc. by rewrite Hc, IH.
Qed.

Lemma all_chars_append p a b :
  all_chars p (a +:+ b) = all_chars p a && all_chars p b.
Proof. induction a as [|c a IH]; simpl; [done|]. by rewrite IH, andb_assoc. Qed.

Lemma all_chars_impl (p q : ascii -> bool) s :
  (forall c, p c = true -> q c = true) -> all_chars p s = true -> all_chars q s = true.
Proof.
  intros Hpq. induction s as [|c s IH]; simpl; [done|].
  intros [Hc Hs]%andb_true_iff. by rewrite (Hpq c Hc), IH.
Qed.

Lemma is_line_break_space c : is_line_break c = true -> isspace c = true.
Proof.
  unfold is_line_break.
  intros [[H|H]%orb_true_iff|H]%orb_true_iff; apply Ascii.eqb_eq in H; by subst c.
Qed.

Lemma spaced_no_line_break blank s :
  spaced blank s = true -> all_chars (fun c => negb (is_line_break c)) s = true.
Proof.
  revert blank. induction s as [|c s IH]; intros blank; simpl; [done|].
  destruct (Ascii.eqb c " ") eqn:E.
  - apply Ascii.eqb_eq in E as ->. intros [_ Hs]%andb_true_iff. simpl. eauto.
  - intros [Hc Hs]%andb_true_iff. apply andb_true_iff. split; [|eauto].
    apply negb_true_iff in Hc. apply negb_true_iff.
    destruct (is_line_break c) eqn:E'; [|done].
    apply is_line_break_space in E'. congruence.
Qed.

(** [rstrip] of a string with single blanks is tidy, and a tidy string
    has nothing to strip. *)
Lemma rstrip_spaced blank s :
  spaced blank s = true -> rstrip s = "" \/ tidy_after blank (rstrip s) = true.
Proof.
  revert blank. induction s as [|c s IH]; intros blank; [by left|].
  rewrite rstrip_cons. simpl.
  destruct (Ascii.eqb c " ") eqn:E.
  - apply Ascii.eqb_eq in E as ->. intros [Hb Hs]%andb_true_iff.
    destruct (IH true Hs) as [->|Ht]; [by left|].
    destruct (rstrip s) eqn:E; [by left|]. right. simpl in *. by rewrite Hb, Ht.
  - intros [Hc Hs]%andb_true_iff. right.
    destruct (IH false Hs) as [->|Ht].
    + apply negb_true_iff in Hc as Hc'. rewrite Hc'. simpl. by rewrite E, Hc.
    + destruct (rstrip s) eqn:E'; simpl in *.
      * apply negb_true_iff in Hc as Hc'. rewrite Hc'. simpl. by rewrite E, Hc.
      * by rewrite E, Hc, Ht.
Qed.

Lemma rstrip_tidy blank s : tidy_after blank s = true -> rstrip s = s.
Proof.
  revert blank. induction s as [|c s IH]; intros blank; [done|].
  rewrite rstrip_cons. simpl.
  destruct (Ascii.eqb c " ") eqn:E.
  - intros [_ Hs]%andb_true_iff. rewrite (IH true Hs).
    destruct s; [done|]. done.
  - intros [Hc Hs]%andb_true_iff. rewrite (IH false Hs).
    destruct s; [|done]. apply negb_true_iff in Hc. by rewrite Hc.
Qed.

Lemma tidy_strip s : tidy s = true -> strip s = s /\ sub_runs isspace s = s.
Proof.
  destruct s as [|c s]; [done|]. unfold tidy. intros Ht.
  pose proof (tidy_after_spaced _ _ Ht) as Hs.
  unfold strip. rewrite (lstrip_id _ (spaced_starts _ Hs)).
  split; [by eapply rstrip_tidy|].
  unfold sub_runs. by destruct (sub_runs_spaced_id _ _ Hs) as [-> _].
Qed.

Lemma strip_spaced s : spaced false s = true -> tidy (strip s) = true.
Proof.
  intros Hs. unfold strip.
  assert (spaced true (lstrip s) = true) as Hl.
  { destruct s as [|c s]; [done|]. simpl in *.
    destruct (Ascii.eqb c " ") eqn:E.
    - apply Ascii.eqb_eq in E as ->. simpl in *.
      by rewrite (lstrip_id _ (spaced_starts _ Hs)).
    - apply andb_true_iff in Hs as [Hc Hs]. apply negb_true_iff in Hc as Hc'.
      rewrite Hc'. simpl. by rewrite E, Hc, Hs. }
  destruct (rstrip_spaced _ _ Hl) as [->|Ht]; [done|].
  unfold tidy. by destruct (rstrip (lstrip s)).
Qed.

End Strings.

Lemma match_step_number_spec (s : string) :
  match match_step_number s with
  | Some (group_1, rest) =>
      exists n after, group_1 = str n /\ n <> Nil
        /\ NilEmpty.uint_of_string group_1 = Some n
        /\ lstrip s = str n +:+ after
        /\ starts_without isdigit after = true
        /\ rest = lstrip (match lstrip after with
                          | String c s' => if is_separator c then s' else lstrip after
                          | EmptyString => ""
                          end)
  | None => starts_without isdigit (lstrip s) = true
  end.
Proof.
  unfold match_step_number. pose proof (span_spec isdigit (lstrip s)) as H.
  destruct (span isdigit (lstrip s)) as [group_1 after].
  destruct H as (Hs & Hrun & Hafter).
  destruct (truthy group_1) eqn:E.
  - destruct (digits_of_string group_1 Hrun) as (n & Hn & Hstr).
    exists n, after. split; [done|]. split.
    { intros ->. subst group_1. done. }
    split; [done|]. split; [by rewrite Hstr|]. split; [done|].
    by destruct (lstrip after).
  - destruct group_1; [|done]. by rewrite Hs.
Qed.

(** X8: [_extract_step_number] returns the digits that follow the leading
    white space of the name, all of them and at least one; it returns
    nothing exactly when the first character after the leading white space
    is not a digit, or there is none. *)
Theorem step_number_is_leading_digits (task_name : string) :
  match _extract_step_number task_name with
  | Some n =>
      n <> Nil
      /\ exists after, lstrip task_name = str n +:+ after
           /\ starts_without isdigit after = true
  | None => starts_without isdigit (lstrip task_name) = true
  end.
Proof.
  unfold _extract_step_number. pose proof (match_step_number_spec task_name) as H.
  destruct (match_step_number task_name) as [[group_1 rest]|]; [|done].
  destruct H as (n & after & _ & Hn & -> & Hs & Hafter & _).
  split; [done|]. by exists after.
Qed.

(** An instance: a name with blanks in front of the number and a dash
    behind it *)
Lemma step_number_is_leading_digits_witness :
  _extract_step_number "  07 - Review" = Some (D0 (D7 Nil))
  /\ exists after, lstrip "  07 - Review" = "07" +:+ after.
Proof.
  assert (_extract_step_number "  07 - Review" = Some (D0 (D7 Nil))) as E
    by (vm_compute; reflexivity).
  split; [exact E|].
  pose proof (step_number_is_leading_digits "  07 - Review") as H. rewrite E in H.
  destruct H as (_ & after & Hafter & _). exists after. exact Hafter.
Defined.

(** X9: the label that [_remove_step_number] returns is tidy: it has no line
    break or tab, its words are separated by single blanks, and it neither
    starts nor ends with white space. *)
Theorem label_is_tidy (task_name : string) : tidy (_remove_step_number task_name) = true.
Proof. unfold _remove_step_number. apply strip_spaced, sub_runs_spaced. Qed.

(** An instance: a name with a line break and repeated blanks *)
Lemma label_is_tidy_witness :
  _remove_step_number ("3.  Check" +:+ String "010"%char "  the order ") = "Check the order"
  /\ tidy "Check the order" = true.
Proof.
  assert (_remove_step_number ("3.  Check" +:+ String "010"%char "  the order ")
          = "Check the order") as E by (vm_compute; reflexivity).
  split; [exact E|]. rewrite <- E. apply label_is_tidy.
Defined.

(** X10: a name made of a step number, a full stop, a blank and a tidy label
    is taken apart again: [_extract_step_number] returns the number and
    [_remove_step_number] the label. *)
Theorem numbered_name_round_trip (n : digits) (label : string) :
  n <> Nil -> tidy label = true ->
  _extract_step_number (str n +:+ ". " +:+ label) = Some n
  /\ _remove_step_number (str n +:+ ". " +:+ label) = label.
Proof.
  intros Hn Ht.
  assert (spaced true label = true) as Hs.
  { destruct label; [done|]. by apply tidy_after_spaced. }
  assert (lstrip label = label) as Hl by apply lstrip_id, spaced_starts, Hs.
  assert (match_step_number (str n +:+ ". " +:+ label) = Some (str n, label)) as Hm.
  { unfold match_step_number.
    rewrite lstrip_id; cycle 1.
    { pose proof (str_all_digits n) as Hd. pose proof (str_nonempty n Hn) as Hne.
      destruct (str n) as [|c s]; [done|]. simpl in *.
      apply andb_true_iff in Hd as [Hc _]. by rewrite (isdigit_not_space c Hc). }
    rewrite span_app; [|apply str_all_digits|done].
    rewrite (str_nonempty n Hn). simpl. change ("" +:+ label) with label.
    by rewrite Hl. }
  split.
  - unfold _extract_step_number. rewrite Hm. apply NilEmpty.usu.
  - unfold _remove_step_number, sub_runs. rewrite (sub_runs_none is_line_break); cycle 1.
    { rewrite !all_chars_append. apply andb_true_iff. split; [|apply andb_true_iff; split].
      - eapply all_chars_impl; [|apply (str_all_digits n)].
        intros c Hc. apply negb_true_iff. destruct (is_line_break c) eqn:E; [|done].
        apply is_line_break_space in E. apply isdigit_not_space in Hc. congruence.
      - done.
      - by eapply spaced_no_line_break. }
    rewrite Hm. destruct (tidy_strip label Ht) as [Hstrip Hruns].
    unfold sub_runs in Hruns. by rewrite Hruns.
Qed.

(** An instance: the name "12. Check order" *)
Lemma numbered_name_round_trip_witness :
  _extract_step_number "12. Check order" = Some (Nat.to_uint 12)
  /\ _remove_step_number "12. Check order" = "Check order".
Proof.
  apply (numbered_name_round_trip (Nat.to_uint 12) "Check order"); [discriminate|reflexivity].
Defined.

(** ** Full stops *)

Section Sentences.
#[local] Arguments String.append !_ _ /.

Lemma lstrip_idemp s : lstrip (lstrip s) = lstrip s.
Proof. apply lstrip_id, lstrip_starts_without. Qed.

Lemma rstrip_idemp s : rstrip (rstrip s) = rstrip s.
Proof. unfold rstrip. by rewrite rev_involutive, lstrip_idemp. Qed.

Lemma rstrip_snoc s c : isspace c = false -> rstrip (s +:+ String c "") = s +:+ String c "".
Proof.
  intros Hc. unfold rstrip. rewrite rev_append. simpl.
  rewrite Hc. change (String c (String.rev s)) with (String c "" +:+ String.rev s).
  rewrite rev_append, rev_involutive. done.
Qed.

Lemma endswith_snoc s c : endswith (s +:+ String c "") (String c "") = true.
Proof.
  unfold endswith. rewrite rev_append. simpl.
  destruct (ascii_dec c c); [|done]. by destruct (String.rev s).
Qed.

(** A string that ends with a character which is not white space, after
    a prefix that is kept *)
Lemma rstrip_append_keeps a b : rstrip b <> "" -> rstrip (a +:+ b) = a +:+ rstrip b.
Proof.
  intros Hb. induction a as [|c a IH]; [done|].
  simpl. rewrite rstrip_cons, IH.
  destruct (a +:+ rstrip b) eqn:E; [|done].
  destruct a; simpl in E; [|done]. done.
Qed.

Lemma rstrip_nonempty c s : isspace c = false -> rstrip (String c s) <> "".
Proof.
  intros Hc. rewrite rstrip_cons. destruct (rstrip s); [by rewrite Hc|done].
Qed.

Lemma ensure_period_cases text :
  (rstrip text = "" /\ ensure_period text = "")
  \/ (rstrip text <> "" /\ ends_sentence (rstrip text) = true
      /\ ensure_period text = rstrip text)
  \/ (rstrip text <> "" /\ ends_sentence (rstrip text) = false
      /\ ensure_period text = rstrip text +:+ ".").
Proof.
  unfold ensure_period, ends_sentence.
  destruct (rstrip text) as [|c s] eqn:E; [by left|]. right. simpl.
  destruct (endswith (String c s) "." || endswith (String c s) "!"
            || endswith (String c s) "?"); simpl; [left|right]; done.
Qed.

End Sentences.

(** X11: [ensure_period]: the result has no white space at its end; it is empty
    exactly when the text is empty or all white space, and otherwise it
    ends with a full stop, an exclamation mark or a question mark, the
    full stop being added only when none of the three is there.  Applying it
    again changes nothing. *)
Theorem ensure_period_ends_sentence (text : string) :
  let result := ensure_period text in
  rstrip result = result
  /\ (result = "" <-> rstrip text = "")
  /\ (result <> "" -> ends_sentence result = true)
  /\ (ends_sentence (rstrip text) = true -> result = rstrip text)
  /\ ensure_period result = result.
Proof.
  intros result.
  assert (rstrip result = result /\ (result = "" <-> rstrip text = "")
          /\ (result <> "" -> ends_sentence result = true)
          /\ (ends_sentence (rstrip text) = true -> result = rstrip text)) as H.
  { unfold result.
    destruct (ensure_period_cases text) as [[E ->]|[(Hne & Hend & ->)|(Hne & Hend & ->)]].
    - rewrite E. done.
    - split; [apply rstrip_idemp|]. split; [done|]. split; [done|]. done.
    - split; [by apply rstrip_snoc|]. split.
      + split; [|done]. by destruct (rstrip text).
      + split; [|congruence]. intros _. unfold ends_sentence.
        by rewrite (endswith_snoc (rstrip text) "."%char). }
  destruct H as (Hstrip & Hempty & Hends & Hkeep).
  split; [done|]. split; [done|]. split; [done|]. split; [done|].
  destruct (ensure_period_cases result) as [[E ->]|[(Hne & Hend & ->)|(Hne & Hend & _)]].
  - rewrite Hstrip in E. done.
  - done.
  - rewrite Hstrip in Hne, Hend. rewrite Hends in Hend; done.
Qed.

(** An instance: trailing blanks go and a full stop is added. *)
Lemma ensure_period_ends_sentence_witness :
  ensure_period "The Ops shall review  " = "The Ops shall review."
  /\ ends_sentence (ensure_period "The Ops shall review  ") = true.
Proof.
  split; [vm_compute; reflexivity|].
  apply (ensure_period_ends_sentence "The Ops shall review  "). vm_compute. discriminate.
Defined.

(** ** The row of a task *)

Section TaskRow.
Variable self : BPMNParser.
#[local] Arguments String.append !_ _ /.

Lemma prefix_append p s : String.prefix p (p +:+ s) = true.
Proof.
  induction p as [|c p IH]; simpl; [by destruct s|].
  destruct (ascii_dec c c); done.
Qed.

Lemma ensure_period_ends text :
  rstrip text <> "" -> ends_sentence (ensure_period text) = true.
Proof.
  intros Hne.
  destruct (ensure_period_cases text) as [[E _]|[(_ & Hend & ->)|(_ & _ & ->)]]; [done..|].
  unfold ends_sentence. by rewrite (endswith_snoc (rstrip text) "."%char).
Qed.

(** A sentence that is built from a subject, a blank and more text keeps
    the subject and the blank, and ends as a sentence. *)
Lemma ensure_period_subject p c w :
  isspace c = false ->
  (exists z, ensure_period (p +:+ String " " (String c w)) = (p +:+ " ") +:+ z)
  /\ ends_sentence (ensure_period (p +:+ String " " (String c w))) = true.
Proof.
  intros Hc.
  pose proof (rstrip_nonempty c w Hc) as Hcw.
  assert (rstrip (p +:+ String " " (String c w)) = (p +:+ " ") +:+ rstrip (String c w)) as Hr.
  { rewrite rstrip_append_keeps.
    - rewrite (rstrip_cons " "). destruct (rstrip (String c w)) eqn:E; [done|].
      by rewrite append_assoc.
    - rewrite (rstrip_cons " "). by destruct (rstrip (String c w)). }
  assert (rstrip (p +:+ String " " (String c w)) <> "") as Hne.
  { rewrite Hr. destruct p; simpl; done. }
  split; [|by apply ensure_period_ends].
  destruct (ensure_period_cases (p +:+ String " " (String c w)))
    as [[E _]|[(_ & _ & ->)|(_ & _ & ->)]]; [done|..]; rewrite Hr.
  - by eexists.
  - exists (rstrip (String c w) +:+ "."). by rewrite append_assoc.
Qed.

Lemma shall_not_space s :
  startswith (lower s) "shall " = true -> exists c w, s = String c w /\ isspace c = false.
Proof.
  destruct s as [|c w]; [done|]. intros H. exists c, w. split; [done|].
  unfold startswith in H.
  destruct c as [[|] [|] [|] [|] [|] [|] [|] [|]]; try reflexivity;
    exfalso; vm_compute in H; discriminate H.
Qed.

Lemma desc_text_sentence lane_name label doc_lines intermediate_event :
  let desc_text := desc_text_of lane_name label doc_lines intermediate_event in
  startswith desc_text ("The " +:+ lane_name +:+ " ") = true
  /\ ends_sentence desc_text = true.
Proof.
  intros desc_text.
  assert (exists c w, desc_text = ensure_period (("The " +:+ lane_name) +:+ String " " (String c w))
                      /\ isspace c = false) as (c & w & -> & Hc).
  { unfold desc_text, desc_text_of. rewrite append_nil_r.
    set (first_line := match doc_lines with l :: _ => strip l | [] => "" end).
    destruct (truthy_opt intermediate_event).
    - destruct (truthy first_line); [destruct (startswith (lower first_line) "shall ")|];
        rewrite ?append_assoc; exists "s"%char; eexists; (split; [reflexivity|done]).
    - destruct (truthy first_line);
        [|rewrite ?append_assoc; exists "s"%char; eexists; (split; [reflexivity|done])].
      destruct (startswith (lower first_line) "shall ") eqn:E;
        [|rewrite ?append_assoc; exists "s"%char; eexists; (split; [reflexivity|done])].
      destruct (shall_not_space _ E) as (c & w & -> & Hc). rewrite ?append_assoc.
      by exists c, w. }
  destruct (ensure_period_subject ("The " +:+ lane_name) c w Hc) as [[z ->] Hend].
  split; [|done]. unfold startswith.
  rewrite <- (append_assoc "The " lane_name " "). apply prefix_append.
Qed.

(** The first three paragraphs of a task row *)
Lemma task_paragraphs_head task_id task step_num :
  exists title intermediate_event rest,
    task_paragraphs self task_id task step_num
    = para title 12 true :: blank
        :: para (desc_text_of (task_lane task) (task_label task)
                              (doc_lines_of (task_documentation task)) intermediate_event)
                11 false :: rest.
Proof.
  unfold task_paragraphs.
  set (title := if truthy_opt (_detect_multi_input self task_id) then _ else _).
  set (intermediate_event := if truthy_opt _ then None else _).
  set (desc := desc_text_of _ _ _ _).
  assert (exists rest, add_extra_doc_lines (tail (doc_lines_of (task_documentation task)))
                         [para title 12 true; blank; para desc 11 false]
                       = para title 12 true :: blank :: para desc 11 false :: rest)
    as [rest ->].
  { unfold add_extra_doc_lines. destruct (nonempty _); [|by eexists].
    cbn [app]. rewrite !alter_last_cons. by eexists. }
  exists title, intermediate_event. repeat case_match; by eexists.
Qed.

(** One iteration starts with the row of the task. *)
Lemma task_iteration_row task_id task step_num :
  exists ps gws,
    task_iteration self [] (task_id, task, step_num)
    = {| ref := str step_num; is_gateway := false;
         sla := (_get_task_sla self task_id).1;
         sla_group := (_get_task_sla self task_id).2;
         raci := Some (lane_raci_of self task);
         paragraphs := task_paragraphs self task_id task step_num ++ ps |} :: gws.
Proof.
  unfold task_iteration, lane_raci_of.
  destruct (_get_task_sla self task_id) as [sla_value sla_group].
  rewrite app_nil_l.
  set (task_raci := match task_lane_id task with
                    | Some lane_id => default na_raci (lane_raci self !! lane_id)
                    | None => na_raci end).
  set (r := {| ref := str step_num; is_gateway := false; sla := sla_value;
               sla_group := sla_group; raci := Some task_raci;
               paragraphs := task_paragraphs self task_id task step_num |}).
  destruct (_ =? 0)%nat.
  { exists [], []. by rewrite app_nil_r. }
  destruct (parallel_join_end self task_id _).
  { by eexists _, []. }
  destruct (ordinary_routing_shape self step_num task_raci
              (_get_target_step_numbers self task_id) r) as (ps & gws & -> & _); [done..|].
  by exists ps, gws.
Qed.

End TaskRow.

(** X12: the row of a numbered task in the generated table: it carries the
    step number, the RACI of the lane of the task ("N/A" throughout when the
    lane has none), and its paragraphs start with the bold title, a blank
    paragraph and the description.  The description is a sentence about the
    lane: it starts with "The <lane> " and ends with a full stop, an
    exclamation mark or a question mark. *)
Theorem task_row_layout (self : BPMNParser) (task_id : string) (task : Task)
    (step_num : digits) :
  (task_id, task, step_num) ∈ sorted_tasks self ->
  exists row before after title description rest,
    generate_sop_rows self = before ++ row :: after
    /\ ref row = str step_num /\ is_gateway row = false
    /\ raci row = Some (lane_raci_of self task)
    /\ paragraphs row
       = para title 12 true :: blank :: para description 11 false :: rest
    /\ startswith description ("The " +:+ task_lane task +:+ " ") = true
    /\ ends_sentence description = true.
Proof.
  intros Hin. destruct (block_in_rows self _ Hin) as (before & after & Hgen).
  destruct (task_iteration_row self task_id task step_num) as (ps & gws & Hblock).
  destruct (task_paragraphs_head self task_id task step_num)
    as (title & intermediate_event & rest & Hps).
  rewrite Hblock in Hgen. rewrite Hps in Hgen.
  eexists _, before, (gws ++ after), title, _, (rest ++ ps).
  split; [exact Hgen|]. do 3 (split; [done|]). split; [done|].
  apply desc_text_sentence.
Qed.

(** An instance: the row of task 1 of the XOR scenario *)
Lemma task_row_layout_witness :
  exists row before after,
    generate_sop_rows ex_xor = before ++ row :: after
    /\ ref row = "1" /\ raci row = Some na_raci.
Proof.
  destruct (task_row_layout ex_xor "T1" (mk_task "Review" (Some 1) ["f0"; "fr"] ["f1"])
              (Nat.to_uint 1))
    as (row & before & after & _ & _ & _ & Hgen & Href & _ & Hraci & _).
  - vm_compute. left.
  - exists row, before, after. split; [exact Hgen|]. split; [exact Href|exact Hraci].
Defined.

(** ** The sources of a step *)

Section Sources.
Variable self : BPMNParser.
Variable current_task_num : Z.
Variable start_event_numbers : odict nat.

Lemma oget_Some_elem_of {V} (d : odict V) k v : oget d k = Some v -> (k, v) ∈ d.
Proof.
  induction d as [|[k' v'] d IH]; simpl; [done|].
  destruct (decide (k' = k)) as [->|]; [intros [= ->]; left|right; auto].
Qed.

Lemma set_add_NoDup {A} `{EqDecision A} (x : A) l : NoDup l -> NoDup (set_add x l).
Proof.
  intros Hl. unfold set_add. destruct (decide (x ∈ l)); [done|].
  apply NoDup_app. split; [done|]. split; [|apply NoDup_singleton].
  intros y Hy ->%list_elem_of_singleton. done.
Qed.

Lemma set_add_elem_of {A} `{EqDecision A} (x y : A) l :
  y ∈ set_add x l -> y ∈ l \/ y = x.
Proof.
  unfold set_add. destruct (decide (x ∈ l)); [by left|].
  intros [?|?%list_elem_of_singleton]%elem_of_app; auto.
Qed.

Lemma trace_source_loop_ok rec fl st st' :
  (forall e st st', rec e st = Some st' ->
     sources_ok self current_task_num start_event_numbers st ->
     sources_ok self current_task_num start_event_numbers st') ->
  trace_source_loop self rec fl st = Some st' ->
  sources_ok self current_task_num start_event_numbers st ->
  sources_ok self current_task_num start_event_numbers st'.
Proof.
  intros Hrec. revert st. induction fl as [|flow_id rest IH]; intros st; simpl.
  - by intros [= ->].
  - destruct (flows self !! flow_id) as [flow|]; [|apply IH].
    destruct (rec (flow_source flow) st) as [st1|] eqn:E; [|done].
    intros H Hst. apply (IH st1 H). by eapply Hrec.
Qed.

Lemma trace_source_fuel_ok n e st st' :
  trace_source_fuel self current_task_num start_event_numbers n e st = Some st' ->
  sources_ok self current_task_num start_event_numbers st ->
  sources_ok self current_task_num start_event_numbers st'.
Proof.
  revert e st st'. induction n as [|n IH]; intros e st st'; [done|]. simpl.
  destruct (decide (e ∈ ts_visited st)); [by intros [= ->]|].
  assert (sources_ok self current_task_num start_event_numbers st ->
          sources_ok self current_task_num start_event_numbers (add_visited e st)) as Hvis.
  { by intros (? & ? & ? & ?). }
  destruct (oget (tasks self) e) as [t|] eqn:Et.
  { destruct (task_number t) as [num|] eqn:Enum; [|intros [= <-]; exact Hvis].
    destruct (truthy_digits num && (int num <? current_task_num)%Z) eqn:E;
      [|intros [= <-]; exact Hvis].
    apply andb_true_iff in E as [Htr Hlt%Z.ltb_lt].
    intros [= <-] (Hsteps & Htrig & Hnd1 & Hnd2). split; [|split; [done|split; [|done]]].
    - simpl. intros m [Hm| ->]%set_add_elem_of; [by apply Hsteps|].
      split; [done|]. exists e. unfold numbered_task. rewrite Et, Enum. simpl.
      by rewrite Htr.
    - simpl. by apply set_add_NoDup. }
  destruct (oget (events self) e) as [ev|] eqn:Eev.
  { destruct (ev_type ev).
    - destruct (oget start_event_numbers e) as [k|] eqn:Ek; [|intros [= <-]; exact Hvis].
      intros [= <-] (Hsteps & Htrig & Hnd1 & Hnd2).
      split; [done|]. split; [|split; [done|]].
      + simpl. intros m [Hm| ->]%set_add_elem_of; [by apply Htrig|].
        exists e. by apply oget_Some_elem_of.
      + simpl. by apply set_add_NoDup.
    - intros H Hst. eapply trace_source_loop_ok; [exact IH|exact H|auto].
    - intros H Hst. eapply trace_source_loop_ok; [exact IH|exact H|auto]. }
  destruct (gateways self !! e).
  { intros H Hst. eapply trace_source_loop_ok; [exact IH|exact H|auto]. }
  destruct (subprocesses self !! e); [|intros [= <-]; exact Hvis].
  intros H Hst. eapply trace_source_loop_ok; [exact IH|exact H|auto].
Qed.

Lemma trace_source_ok e st st' :
  trace_source self current_task_num start_event_numbers e st = Some st' ->
  sources_ok self current_task_num start_event_numbers st ->
  sources_ok self current_task_num start_event_numbers st'.
Proof.
  unfold trace_source. intros H Hst. eapply trace_source_fuel_ok; [exact H|].
  by destruct Hst as (? & ? & ? & ?).
Qed.

End Sources.

Lemma sorted_elem_of {A K} (ltb : K -> K -> bool) (key : A -> K) l x :
  x ∈ sorted ltb key l <-> x ∈ l.
Proof. by rewrite sorted_perm. Qed.

(** X13: the "Step Input:" text of [_detect_step_trigger_input] names steps and
    inputs, in this order and each in ascending order, at least one of
    each.  Every step it names is the number of a numbered task and is
    smaller than the number of the task itself: a flow back from a later
    step does not count as an input.  Every input it names is the number
    that [_get_start_event_numbers] gives to a start event. *)
Theorem step_trigger_input_names_earlier_steps (self : BPMNParser) (task_id text : string) :
  _detect_step_trigger_input self task_id = Some text ->
  exists task current steps triggers,
    oget (tasks self) task_id = Some task /\ task_number task = Some current
    /\ text = "Step Input: "
              +:+ join " or " (map (fun step_num => "Step " +:+ str step_num) steps
                               ++ map (fun input_num => "Input " +:+ str_of_nat input_num)
                                      triggers)
    /\ steps <> [] /\ triggers <> []
    /\ StronglySorted (fun a b => (int a <= int b)%Z) steps
    /\ StronglySorted (fun a b => a <= b) triggers
    /\ (forall n, n ∈ steps ->
          (int n < int current)%Z /\ exists id, numbered_task self id = Some n)
    /\ (forall k, k ∈ triggers ->
          exists event_id, (event_id, k) ∈ _get_start_event_numbers self).
Proof.
  unfold _detect_step_trigger_input.
  destruct (step_trigger_sources self task_id) as [[steps triggers]|] eqn:E; [|done].
  destruct (nonempty steps && nonempty triggers) eqn:Ene; [|done].
  apply andb_true_iff in Ene as [Hs Ht]. intros [= <-].
  unfold step_trigger_sources in E.
  destruct (oget (tasks self) task_id) as [task|] eqn:Etask; [|done].
  destruct (length (task_incoming task) =? 0)%nat; [done|].
  destruct (task_number task) as [current|] eqn:Enum; [|done].
  destruct (negb (truthy_digits current)); [done|].
  destruct (trace_source_loop self _ (task_incoming task) no_sources) as [st|] eqn:Eloop;
    [|done].
  injection E as <- <-.
  assert (sources_ok self (int current) (_get_start_event_numbers self) st)
    as (Hsteps & Htrig & _).
  { eapply trace_source_loop_ok; [|exact Eloop|].
    - intros e st0 st1. apply trace_source_ok.
    - split; [|split; [|split; constructor]]; intros ? ?%elem_of_nil; done. }
  exists task, current, (sorted Z.ltb int (step_sources st)),
    (sorted Nat.ltb (fun n => n) (trigger_sources st)).
  split; [done|]. split; [done|]. split; [done|].
  split. { intros Hnil. apply (f_equal length) in Hnil. rewrite sorted_length in Hnil.
           by destruct (step_sources st). }
  split. { intros Hnil. apply (f_equal length) in Hnil. rewrite sorted_length in Hnil.
           by destruct (trigger_sources st). }
  split; [apply sorted_int_ascending|]. split; [apply (sorted_nat_ascending (fun n => n))|].
  split.
  - intros n Hn%sorted_elem_of. by apply Hsteps.
  - intros k Hk%sorted_elem_of. by apply Htrig.
Qed.

(** An instance: task 2 is entered from step 1 and from the second start
    event. *)
Lemma step_trigger_input_names_earlier_steps_witness :
  _detect_step_trigger_input ex_step_and_trigger "T2" = Some "Step Input: Step 1 or Input 2"
  /\ exists steps, steps <> []
       /\ forall n, n ∈ steps -> (int n < 2)%Z.
Proof.
  assert (_detect_step_trigger_input ex_step_and_trigger "T2"
          = Some "Step Input: Step 1 or Input 2") as H by (vm_compute; reflexivity).
  split; [exact H|].
  destruct (step_trigger_input_names_earlier_steps ex_step_and_trigger "T2" _ H)
    as (task & current & steps & triggers & Htask & Hnum & _ & Hne & _ & _ & _ & Hsteps & _).
  exists steps. split; [exact Hne|]. intros n Hn. destruct (Hsteps n Hn) as [Hlt _].
  vm_compute in Htask. injection Htask as <-. vm_compute in Hnum. injection Hnum as <-.
  exact Hlt.
Defined.

(** ** Waiting for an intermediate event *)

Section Chain.
#[local] Arguments String.append !_ _ /.

Lemma lower_append a b : lower (a +:+ b) = lower a +:+ lower b.
Proof. induction a as [|c a IH]; simpl; [done|]. by rewrite IH. Qed.

Lemma prefix_append_l p a b : String.prefix p a = true -> String.prefix p (a +:+ b) = true.
Proof.
  revert a. induction p as [|c p IH]; intros a; simpl; [by destruct (a +:+ b)|].
  destruct a as [|x a]; [done|]. simpl.
  destruct (ascii_dec c x); [apply IH|done].
Qed.

(** The wait clause reads "wait for ..." or "wait until ...", whatever
    follows it. *)
Lemma wait_clause event_name suffix :
  let wait_prefix :=
    if startswith (lower event_name) "wait for " then ""
    else if startswith (lower event_name) "wait until " then ""
    else "Wait for " in
  let text := (wait_prefix +:+ event_name) +:+ suffix in
  startswith (lower text) "wait for " || startswith (lower text) "wait until " = true.
Proof.
  intros wait_prefix text. unfold text, wait_prefix, startswith.
  rewrite lower_append.
  destruct (String.prefix "wait for " (lower event_name)) eqn:E1.
  { simpl "+:+" at 2. by rewrite (prefix_append_l _ _ _ E1). }
  destruct (String.prefix "wait until " (lower event_name)) eqn:E2.
  { simpl "+:+" at 2. rewrite (prefix_append_l _ _ _ E2). by rewrite orb_true_r. }
  rewrite lower_append, append_assoc.
  change (lower "Wait for ") with "wait for ". by rewrite prefix_append.
Qed.

End Chain.

(** X14: [_check_task_intermediate_chain] returns a text only for a task whose
    first target is an intermediate event, and the text starts with the
    wait clause: read in lower case it begins with "wait for " or with
    "wait until ", "Wait for " being put in front of the name of the event
    unless the name starts that way already.  So the text is never empty. *)
Theorem intermediate_chain_starts_with_wait (self : BPMNParser) (task_id : string)
    (current_step_num : option digits) (text : string) :
  _check_task_intermediate_chain self task_id current_step_num = Some text ->
  (exists event_id flow_name rest event,
     _get_target_step_numbers self task_id = (TIntermediate event_id, flow_name) :: rest
     /\ oget (events self) event_id = Some event)
  /\ startswith (lower text) "wait for " || startswith (lower text) "wait until " = true
  /\ truthy text = true.
Proof.
  unfold _check_task_intermediate_chain.
  destruct (_get_target_step_numbers self task_id) as [|[[| | | |event_id] flow_name] rest];
    try done.
  destruct (oget (events self) event_id) as [event|] eqn:Eev; [|done].
  intros H.
  assert (startswith (lower text) "wait for " || startswith (lower text) "wait until "
          = true) as Hwait.
  { pose proof (wait_clause (ev_name event)) as Hw. cbv zeta in Hw.
    pose proof (Hw "") as Hw0. rewrite append_nil_r in Hw0.
    repeat case_match; simplify_eq; rewrite ?append_assoc; first [apply Hw0|apply Hw]. }
  split; [by exists event_id, flow_name, rest, event|]. split; [done|].
  destruct text; [|done]. done.
Qed.

(** An instance: task 1 waits for the payment before step 2. *)
Lemma intermediate_chain_starts_with_wait_witness :
  _check_task_intermediate_chain ex_intermediate "T1" (Some (Nat.to_uint 1))
  = Some "Wait for Payment received and Then Proceed to Step 2"
  /\ truthy "Wait for Payment received and Then Proceed to Step 2" = true.
Proof.
  assert (_check_task_intermediate_chain ex_intermediate "T1" (Some (Nat.to_uint 1))
          = Some "Wait for Payment received and Then Proceed to Step 2") as H
    by (vm_compute; reflexivity).
  split; [exact H|].
  exact (proj2 (proj2 (intermediate_chain_starts_with_wait _ _ _ _ H))).
Defined.

(** ** The history of entered metadata *)

Section History.
Import HistoryManager.

Lemma set_timestamp_same existing entry :
  without_timestamp existing = without_timestamp entry ->
  set_timestamp (entry_timestamp entry) existing = entry.
Proof. destruct existing, entry. unfold without_timestamp. simpl. by intros [= -> -> -> -> -> -> ->]. Qed.

Lemma without_set_timestamp t e : without_timestamp (set_timestamp t e) = without_timestamp e.
Proof. done. Qed.

Lemma update_existing_found entry history history' :
  update_existing entry history = Some history' ->
  entry ∈ history'
  /\ length history' = length history
  /\ without_timestamp <$> history' = without_timestamp <$> history
  /\ exists existing, existing ∈ history
       /\ without_timestamp existing = without_timestamp entry.
Proof.
  revert history'. induction history as [|existing rest IH]; intros history'; simpl; [done|].
  destruct (bool_decide (without_timestamp existing = without_timestamp entry)) eqn:E.
  - apply bool_decide_eq_true in E. intros [= <-].
    rewrite (set_timestamp_same _ _ E). split; [left|]. split; [done|].
    split; [by rewrite !fmap_cons, E|]. exists existing. split; [left|done].
  - destruct (update_existing entry rest) as [rest'|]; [|done]. intros [= <-].
    destruct (IH rest' eq_refl) as (Hin & Hlen & Hmap & x & Hx & Hsame).
    split; [by right|]. split; [simpl; by rewrite Hlen|].
    split; [by rewrite !fmap_cons, Hmap|]. exists x. split; [by right|done].
Qed.

Lemma update_existing_new entry history :
  update_existing entry history = None ->
  forall existing, existing ∈ history ->
    without_timestamp existing <> without_timestamp entry.
Proof.
  induction history as [|x rest IH]; simpl; [by intros _ ? ?%elem_of_nil|].
  destruct (bool_decide (without_timestamp x = without_timestamp entry)) eqn:E; [done|].
  apply bool_decide_eq_false in E.
  destruct (update_existing entry rest); [done|]. intros _ existing [->|Hin]%elem_of_cons; auto.
Qed.

Lemma get_entry_lookup history (i : nat) entry :
  history !! i = Some entry -> get_entry history (Z.of_nat i) = Some entry.
Proof.
  intros H. unfold get_entry. pose proof (lookup_lt_Some _ _ _ H).
  rewrite Nat2Z.id, H.
  destruct (0 <=? Z.of_nat i)%Z eqn:E1; [|lia].
  destruct (Z.of_nat i <? Z.of_nat (length history))%Z eqn:E2; [done|lia].
Qed.

End History.

(** X15: [add_entry]: afterwards the history holds the new entry, and
    [get_entry] returns it at some index.  If the history already had an
    entry that differs from the new one in the time stamp at most, only
    that time stamp changes: the history keeps its length and its order, and
    the entry is not moved to the front.  If not, the new entry comes
    first and the history is cut to its first 50 entries.  In both cases
    the history is not longer than 50 entries, or than it was. *)
Theorem add_entry_records_metadata (history : list Entry) (metadata : gmap string Value)
    (now : string) :
  let entry := HistoryManager.new_entry now metadata in
  let history' := HistoryManager.add_entry history metadata now in
  length history' <= Nat.max 50 (length history)
  /\ (exists index, HistoryManager.get_entry history' index = Some entry)
  /\ ((exists existing, existing ∈ history
         /\ without_timestamp existing = without_timestamp entry) ->
      length history' = length history
      /\ without_timestamp <$> history' = without_timestamp <$> history)
  /\ ((forall existing, existing ∈ history ->
         without_timestamp existing <> without_timestamp entry) ->
      history' = take 50 (entry :: history)
      /\ HistoryManager.get_entry history' 0 = Some entry).
Proof.
  intros entry history'. unfold history', HistoryManager.add_entry. fold entry.
  destruct (HistoryManager.update_existing entry history) as [h|] eqn:E.
  - destruct (update_existing_found _ _ _ E) as (Hin & Hlen & Hmap & x & Hx & Hsame).
    split; [lia|]. split.
    { apply list_elem_of_lookup in Hin as [i Hi]. exists (Z.of_nat i).
      by apply get_entry_lookup. }
    split; [done|]. intros Hnew. exfalso. by apply (Hnew x).
  - pose proof (update_existing_new _ _ E) as Hnew.
    split; [rewrite length_take; cbn [length]; lia|]. split; [by exists 0%Z|].
    split; [|done]. intros (x & Hx & Hsame). exfalso. by apply (Hnew x).
Qed.

(** An instance: the same metadata entered twice *)
Lemma add_entry_records_metadata_witness :
  let metadata : gmap string Value := {["process_name" := VStr "Onboarding"]} in
  let history := HistoryManager.add_entry [] metadata "2024-01-01T10:00:00" in
  length (HistoryManager.add_entry history metadata "2024-01-02T09:30:00") = 1.
Proof.
  intros metadata history.
  destruct (add_entry_records_metadata history metadata "2024-01-02T09:30:00")
    as (_ & _ & Hsame & _).
  destruct Hsame as [Hlen _]; [|exact Hlen].
  eexists. split; [left|]. reflexivity.
Defined.

(** X16: [add_entry] keeps the history free of repetitions: when no two
    entries are equal but for their time stamps, this is still so
    afterwards. *)
Theorem add_entry_keeps_entries_distinct (history : list Entry)
    (metadata : gmap string Value) (now : string) :
  NoDup (without_timestamp <$> history) ->
  NoDup (without_timestamp <$> HistoryManager.add_entry history metadata now).
Proof.
  intros Hnd. unfold HistoryManager.add_entry.
  destruct (HistoryManager.update_existing _ history) as [h|] eqn:E.
  - destruct (update_existing_found _ _ _ E) as (_ & _ & -> & _). done.
  - pose proof (update_existing_new _ _ E) as Hnew.
    rewrite fmap_take. eapply sublist_NoDup; cycle 1; [apply sublist_take|].
    rewrite fmap_cons. apply NoDup_cons. split; [|done].
    intros (x & Hsame & Hx)%list_elem_of_fmap. by apply (Hnew x).
Qed.

(** An instance: a third entry added to a history of two *)
Lemma add_entry_keeps_entries_distinct_witness :
  let history :=
    HistoryManager.add_entry
      (HistoryManager.add_entry [] {["process_name" := VStr "Onboarding"]} "t1")
      {["process_name" := VStr "Billing"]} "t2" in
  NoDup (without_timestamp
           <$> HistoryManager.add_entry history {["process_name" := VStr "Returns"]} "t3").
Proof.
  intros history. apply add_entry_keeps_entries_distinct.
  vm_compute. repeat constructor; set_solver.
Defined.

(** ** Metadata for the form *)

(** X17: [extract_metadata_from_bpmn] never raises.  When the parser cannot be
    built or the extraction fails, it returns the empty dictionary;
    otherwise it returns the extracted metadata with the process inputs and
    outputs of the graph under "inputs" and "outputs" and the other keys as
    they were extracted. *)
Theorem extract_metadata_never_raises
    (new_BPMNParser : list Byte.byte -> result BPMNParser)
    (extract_bpmn_metadata : BPMNParser -> result (gmap string Value))
    (xml_content : list Byte.byte) :
  exists metadata,
    extract_metadata_from_bpmn new_BPMNParser extract_bpmn_metadata xml_content = Ok metadata
    /\ match new_BPMNParser xml_content with
       | Ok parser =>
           match extract_bpmn_metadata parser with
           | Ok extracted =>
               metadata !! "inputs" = Some (VStr (get_process_inputs parser))
               /\ metadata !! "outputs" = Some (VStr (get_process_outputs parser))
               /\ forall key, key <> "inputs" -> key <> "outputs" ->
                    metadata !! key = extracted !! key
           | Raise _ => metadata = ∅
           end
       | Raise _ => metadata = ∅
       end.
Proof.
  unfold extract_metadata_from_bpmn.
  destruct (new_BPMNParser xml_content) as [parser|e]; simpl; [|by eexists].
  destruct (extract_bpmn_metadata parser) as [extracted|e]; simpl; [|by eexists].
  eexists. split; [done|]. split; [|split].
  - rewrite lookup_insert_ne by done. by rewrite lookup_insert.
  - by rewrite lookup_insert.
  - intros key H1 H2. by rewrite !lookup_insert_ne.
Qed.

(** An instance: a constructor that rejects its input, and one that
    accepts it *)
Lemma extract_metadata_never_raises_witness :
  extract_metadata_from_bpmn ex_reject ex_extract [] = Ok ∅
  /\ exists metadata, extract_metadata_from_bpmn ex_accept ex_extract [] = Ok metadata
       /\ metadata !! "inputs" = Some (VStr "1. Request").
Proof.
  split; [reflexivity|].
  destruct (extract_metadata_never_raises ex_accept ex_extract [])
    as (metadata & Heq & Hin & _).
  exists metadata. split; [exact Heq|]. rewrite Hin. vm_compute. reflexivity.
Defined.
